(** * Comparison batch allocation and vote ingestion (mc_bench.apps.api.routers.comparison)

    A shallow embedding of [get_comparison_batch] and [post_comparison]
    together with the collaborators they drive: the durable store (tables
    and a query log), the ephemeral cache (TTL-bound string keys) and the
    task queue.  A request runs at one instant [now] of the cache's clock. *)

From Stdlib Require Import ZArith String Ascii List Bool Lia QArith.
From stdpp Require Import base option list gmap strings pretty sorting.

Local Open Scope string_scope.
Local Open Scope list_scope.
Local Open Scope Z_scope.

(** ** Strings: the token payload format *)

Module Payload.

Definition is_colon (c : ascii) : bool := Ascii.eqb c ":"%char.

Fixpoint colon_free (s : string) : bool :=
  match s with
  | EmptyString => true
  | String c rest => negb (is_colon c) && colon_free rest
  end.

(** [s.split(":", 1)] unpacked into two names: [None] is the [ValueError]
    of the unpacking when there is no colon. *)
Fixpoint split_colon (s : string) : option (string * string) :=
  match s with
  | EmptyString => None
  | String c rest =>
      if is_colon c then Some (EmptyString, rest)
      else match split_colon rest with
           | Some (a, b) => Some (String c a, b)
           | None => None
           end
  end.

(** [f"{a}:{b}:{c}"] *)
Definition join3 (a b c : string) : string := a +:+ ":" +:+ b +:+ ":" +:+ c.

(** [f"active_comparison:{token}"] *)
Definition active_key (token : string) : string := "active_comparison:" +:+ token.

Definition lock_key : string := "elo_calculation_in_progress".

End Payload.

(** ** UUID values

  [uuid.UUID] objects are used through their string form [str u] and
  through the constructor [uuid.UUID(s)], which raises [ValueError] on a
  malformed string.  The two laws are the ones the token payload relies
  on. *)

Class UuidCodec (U : Type) := {
uuid_eq_dec :: EqDecision U;
uuid_str : U → string;
uuid_parse : string → option U;
uuid_str_colon_free : ∀ u, Payload.colon_free (uuid_str u) = true;
uuid_parse_str : ∀ u, uuid_parse (uuid_str u) = Some u
}.

(** ** The ephemeral cache *)

Module Cache.

Record Entry := mkEntry { value : string; expires_at : option Z }.

Definition live (now : Z) (e : Entry) : bool :=
  match expires_at e with
  | None => true
  | Some t => now <? t
  end.

Definition get (now : Z) (k : string) (r : gmap string Entry) : option string :=
  match r !! k with
  | Some e => if live now e then Some (value e) else None
  | None => None
  end.

(** [redis.setex(k, ttl, v)] *)
Definition setex (now : Z) (k : string) (ttl : Z) (v : string)
    (r : gmap string Entry) : gmap string Entry :=
  <[k := mkEntry v (Some (now + ttl))]> r.

(** [redis.getdel(k)] *)
Definition getdel (now : Z) (k : string) (r : gmap string Entry)
    : option string * gmap string Entry :=
  (get now k r, delete k r).

(** [redis.set(k, v, ex=ttl, nx=True)] *)
Definition set_nx_ex (now : Z) (k v : string) (ttl : Z) (r : gmap string Entry)
    : bool * gmap string Entry :=
  match get now k r with
  | Some _ => (false, r)
  | None => (true, <[k := mkEntry v (Some (now + ttl))]> r)
  end.

End Cache.

(** ** Outcomes of a request handler *)

Inductive PyExn :=
| KeyError | ValueError | IndexError | AttributeError
| NoResultFound | MultipleResultsFound.

Inductive Outcome (A : Type) :=
| Returned (a : A)
| HTTPException (status_code : Z) (detail : string)
| Raised (e : PyExn).
Arguments Returned {A} a.
Arguments HTTPException {A} status_code detail.
Arguments Raised {A} e.

(** The status line the framework sends: 200 for a returned body, the
  exception's own code for [HTTPException], 500 for anything unhandled. *)
Definition http_status {A} (o : Outcome A) : Z :=
match o with
| Returned _ => 200
| HTTPException c _ => c
| Raised _ => 500
end.

Definition MAX_BATCH_SIZE : Z := 10.

(** ** The durable store *)

Section Tables.
Context {U : Type}.

Record TestSet := { test_set_id : Z; test_set_name : string }.

Record User := { user_id : Z; user_external_id : string; user_scopes : list string }.

Record Metric := { metric_id : Z; metric_external_id : U }.

(** [sample_model_name] is [sample.run.model.name]. *)
Record Sample := {
  sample_id : Z;
  comparison_sample_id : U;
  sample_test_set_id : option Z;
  sample_model_name : string
}.

Record Comparison := {
  comparison_id : Z;
  comparison_user_id : option Z;
  comparison_metric_id : Z;
  comparison_test_set_id : option Z;
  comparison_session_id : Z;
  comparison_identification_token_id : Z
}.

Record ComparisonRank := {
  rank_comparison_id : Z;
  rank_sample_id : Z;
  rank : Z
}.

Record Db := {
  test_sets : list TestSet;
  users : list User;
  metrics : list Metric;
  samples : list Sample;
  comparisons : list Comparison;
  comparison_ranks : list ComparisonRank
}.

(** A cell of a row returned by a raw SQL statement. *)
Inductive Cell := CUuid (u : U) | CText (s : string) | CInt (z : Z).

(** Every statement sent to the store, in order. *)
Inductive Query :=
| SelectTestSetIdByName (name : string)
| SelectUserByExternalId (external_id : string)
| SelectMetricByExternalId (external_id : string)
| SelectSamplesIn (a b : U)
| ExecutePlan (query_name : string) (test_set : Z) (sample_count : Z)
| SelectAvgVoteCount (test_set : Z)
| InsertComparison (c : Comparison)
| InsertComparisonRank (r : ComparisonRank).

End Tables.
Arguments TestSet : clear implicits.
Arguments Metric : clear implicits.
Arguments Sample : clear implicits.
Arguments ComparisonRank : clear implicits.
Arguments Comparison : clear implicits.
Arguments User : clear implicits.
Arguments Db : clear implicits.
Arguments Cell : clear implicits.
Arguments Query : clear implicits.

(** ** Collaborators outside this module

    Settings, the permission constant, the UUID source, the session-header
    processing of [AuthManager] (acting on its own tables only) and the two
    prepared pairing plans ([None] is any exception raised by the store). *)

Class Env (U : Type) := {
  Headers : Type;
  AuthState : Type;
  process_session_headers :
    Headers → option User → AuthState → AuthState * (Z * Z);
  PERM_VOTING_VOTE : string;
  uuid4 : nat → U;
  USE_PRIORITY_COMPARISON : bool;
  EXTERNAL_OBJECT_BUCKET : string;
  execute_plan : string → Z → Z → Db U → option (list (list (Cell U)))
}.

Section Handlers.
Context {U : Type} `{!UuidCodec U} `{!Env U}.

Record World := {
  db : Db U;
  auth : AuthState;
  redis : gmap string Cache.Entry;
  tasks : list string;
  queries : list (Query U);
  uuid_calls : nat
}.

(** *** A state-and-exception monad for handlers *)

Definition M (A : Type) : Type := World → Outcome A * World.

Definition ret {A} (a : A) : M A := λ w, (Returned a, w).

Definition bind {A B} (c : M A) (k : A → M B) : M B :=
  λ w, match c w with
       | (Returned a, w') => k a w'
       | (HTTPException s d, w') => (HTTPException s d, w')
       | (Raised e, w') => (Raised e, w')
       end.

Definition http_exception {A} (status_code : Z) (detail : string) : M A :=
  λ w, (HTTPException status_code detail, w).

Definition raise {A} (e : PyExn) : M A := λ w, (Raised e, w).

Notation "'let*' x ':=' c 'in' k" := (bind c (λ x, k))
  (at level 10, x name, c at level 100, k at level 200, only parsing).

Definition set_db (d : Db U) (w : World) : World :=
  {| db := d; auth := auth w; redis := redis w; tasks := tasks w;
     queries := queries w; uuid_calls := uuid_calls w |}.

Definition set_auth (a : AuthState) (w : World) : World :=
  {| db := db w; auth := a; redis := redis w; tasks := tasks w;
     queries := queries w; uuid_calls := uuid_calls w |}.

Definition set_redis (r : gmap string Cache.Entry) (w : World) : World :=
  {| db := db w; auth := auth w; redis := r; tasks := tasks w;
     queries := queries w; uuid_calls := uuid_calls w |}.

Definition log_query (q : Query U) : M unit :=
  λ w, (Returned tt,
        {| db := db w; auth := auth w; redis := redis w; tasks := tasks w;
           queries := queries w ++ [q]; uuid_calls := uuid_calls w |}).

(** *** Store operations *)

(** [db.scalar(select(TestSet.id).where(TestSet.name == name))] *)
Definition scalar_test_set_id (name : string) : M (option Z) :=
  let* _ := log_query (SelectTestSetIdByName name) in
  λ w, (Returned
          (test_set_id <$>
             head (filter (λ t, test_set_name t = name) (test_sets (db w)))), w).

(** [db.scalar(select(User).where(User.external_id == user_id))] *)
Definition scalar_user (external_id : string) : M (option User) :=
  let* _ := log_query (SelectUserByExternalId external_id) in
  λ w, (Returned
          (head (filter (λ u, user_external_id u = external_id) (users (db w)))), w).

(** [db.scalars(select(User).where(User.external_id == user_uuid)).one()] *)
Definition one_user (external_id : string) : M User :=
  let* _ := log_query (SelectUserByExternalId external_id) in
  λ w, match filter (λ u, user_external_id u = external_id) (users (db w)) with
       | [] => (Raised NoResultFound, w)
       | [u] => (Returned u, w)
       | _ => (Raised MultipleResultsFound, w)
       end.

(** [db.scalar(select(Metric).where(Metric.external_id == external_id))] *)
Definition scalar_metric (external_id : string) : M (option (Metric U)) :=
  let* _ := log_query (SelectMetricByExternalId external_id) in
  λ w, (Returned
          (head (filter (λ m, uuid_str (metric_external_id m) = external_id)
                   (metrics (db w)))), w).

(** [list(db.scalars(select(Sample).where(Sample.comparison_sample_id.in_([a, b]))))] *)
Definition select_samples_in (a b : U) : M (list (Sample U)) :=
  let* _ := log_query (SelectSamplesIn a b) in
  λ w, (Returned
          (filter (λ s, comparison_sample_id s = a ∨ comparison_sample_id s = b)
             (samples (db w))), w).

(** [db.execute(text(f"EXECUTE {query_name}(:test_set_id, :sample_count)")).fetchall()] *)
Definition execute_named (query_name : string) (test_set sample_count : Z)
    : M (option (list (list (Cell U)))) :=
  let* _ := log_query (ExecutePlan query_name test_set sample_count) in
  λ w, (Returned (execute_plan query_name test_set sample_count (db w)), w).

(** The average-votes statement of the priority logging block; its value is
    only logged and every exception there is caught. *)
Definition log_average_votes (test_set : Z) : M unit :=
  log_query (SelectAvgVoteCount test_set).

(** [db.add(comparison); db.flush()]: the row gets the next id. *)
Definition add_comparison (user : option Z) (metric : Z) (test_set : option Z)
    (session_id identification_token_id : Z) : M Comparison :=
  λ w,
    let c := {| comparison_id := Z.of_nat (length (comparisons (db w))) + 1;
                comparison_user_id := user;
                comparison_metric_id := metric;
                comparison_test_set_id := test_set;
                comparison_session_id := session_id;
                comparison_identification_token_id := identification_token_id |} in
    let d := db w in
    (Returned c,
     {| db := {| test_sets := test_sets d; users := users d; metrics := metrics d;
                 samples := samples d;
                 comparisons := comparisons d ++ [c];
                 comparison_ranks := comparison_ranks d |};
        auth := auth w; redis := redis w; tasks := tasks w;
        queries := queries w ++ [InsertComparison c];
        uuid_calls := uuid_calls w |}).

(** [db.add(ComparisonRank(...))] *)
Definition add_comparison_rank (r : ComparisonRank) : M unit :=
  λ w,
    let d := db w in
    (Returned tt,
     {| db := {| test_sets := test_sets d; users := users d; metrics := metrics d;
                 samples := samples d;
                 comparisons := comparisons d;
                 comparison_ranks := comparison_ranks d ++ [r] |};
        auth := auth w; redis := redis w; tasks := tasks w;
        queries := queries w ++ [InsertComparisonRank r];
        uuid_calls := uuid_calls w |}).

(** [am.process_session_headers(request_obj, response, db, user=user)] *)
Definition session_headers (request_obj : Headers) (user : option User) : M (Z * Z) :=
  λ w, let '(a, ids) := process_session_headers request_obj user (auth w) in
       (Returned ids, set_auth a w).

(** *** Cache and queue operations, at the cache's clock [now] *)

Definition redis_setex (now : Z) (k : string) (ttl : Z) (v : string) : M unit :=
  λ w, (Returned tt, set_redis (Cache.setex now k ttl v (redis w)) w).

Definition redis_getdel (now : Z) (k : string) : M (option string) :=
  λ w, let '(v, r) := Cache.getdel now k (redis w) in (Returned v, set_redis r w).

Definition redis_set_nx_ex (now : Z) (k v : string) (ttl : Z) : M bool :=
  λ w, let '(b, r) := Cache.set_nx_ex now k v ttl (redis w) in (Returned b, set_redis r w).

(** Modelled from the spec: [send_task] of the application's task module is
    not among the sources; it enqueues the named job, with no payload, on
    the asynchronous job system. *)
Definition send_task (name : string) : M unit :=
  λ w, (Returned tt,
        {| db := db w; auth := auth w; redis := redis w; tasks := tasks w ++ [name];
           queries := queries w; uuid_calls := uuid_calls w |}).

(** [uuid.uuid4()] *)
Definition fresh_uuid : M U :=
  λ w, (Returned (uuid4 (uuid_calls w)),
        {| db := db w; auth := auth w; redis := redis w; tasks := tasks w;
           queries := queries w; uuid_calls := S (uuid_calls w) |}).

(** *** [get_comparison_batch] *)

Record NewComparisonBatchRequest := {
  request_metric_id : U;
  batch_size : Z
}.

Record AssetFile := { file_kind : string; file_bucket : string; file_key : Cell U }.

Record Asset := { asset_sample_id : string; asset_files : list AssetFile }.

Record ComparisonToken := {
  token : U;
  token_metric_id : U;
  token_samples : list string;
  build_description : Cell U;
  assets : list Asset
}.

(** [str(x)] / [f"{x}"] of a cell *)
Definition cell_str (c : Cell U) : string :=
  match c with
  | CUuid u => uuid_str u
  | CText s => s
  | CInt z => pretty z
  end.

(** [row[i]] *)
Definition row_at (row : list (Cell U)) (i : nat) : M (Cell U) :=
  match row !! i with
  | Some c => ret c
  | None => raise IndexError
  end.

Definition gltf_asset (sample : Cell U) (key : Cell U) : Asset :=
  {| asset_sample_id := cell_str sample;
     asset_files := [ {| file_kind := "gltf_scene";
                         file_bucket := EXTERNAL_OBJECT_BUCKET;
                         file_key := key |} ] |}.

(** One iteration of [for row in sample_data]; [None] is the [continue] of
    a malformed priority row. *)
Definition batch_row (now : Z) (metric : Metric U) (test_set : Z)
    (row : list (Cell U)) : M (option ComparisonToken) :=
  let* sample_1_id := row_at row 0 in
  let* sample_1_key := row_at row 1 in
  let* sample_2_id := row_at row 2 in
  let* sample_2_key := row_at row 3 in
  let* build_specification := row_at row 4 in
  let* keep := (if USE_PRIORITY_COMPARISON then
             if (Z.of_nat (length row) <? 11)%Z then ret false
             else (let* _ := log_average_votes test_set in ret true)
           else ret true) in
  if keep then
    let* tok := fresh_uuid in
    let* _ := redis_setex now (Payload.active_key (uuid_str tok)) 3600
                (Payload.join3 (uuid_str (metric_external_id metric))
                   (cell_str sample_1_id) (cell_str sample_2_id)) in
    ret (Some {| token := tok;
                 token_metric_id := metric_external_id metric;
                 token_samples := [cell_str sample_1_id; cell_str sample_2_id];
                 build_description := build_specification;
                 assets := [gltf_asset sample_1_id sample_1_key;
                            gltf_asset sample_2_id sample_2_key] |})
  else ret None.

Fixpoint batch_loop (now : Z) (metric : Metric U) (test_set : Z)
    (sample_data : list (list (Cell U))) (comparison_tokens : list ComparisonToken)
    : M (list ComparisonToken) :=
  match sample_data with
  | [] => ret comparison_tokens
  | row :: rest =>
      let* r := batch_row now metric test_set row in
      batch_loop now metric test_set rest
        (match r with
         | Some t => comparison_tokens ++ [t]
         | None => comparison_tokens
         end)
  end.

Definition batch_query_name : string :=
  if USE_PRIORITY_COMPARISON then "comparison_batch_query_priority"
  else "comparison_batch_query".

(** The first block of the handler: the test set is looked up by a fixed
    name chosen by the authentication state. *)
Definition batch_test_set (request_obj : Headers) (user_id : option string) : M Z :=
  match user_id with
  | None =>
      let* ts := scalar_test_set_id "Unauthenticated Test Set" in
      match ts with
      | None => http_exception 500 "Default unauthenticated test set not found"
      | Some id => let* _ := session_headers request_obj None in ret id
      end
  | Some uid =>
      let* ts := scalar_test_set_id "Authenticated Test Set" in
      match ts with
      | None => http_exception 500 "Default authenticated test set not found"
      | Some id =>
          let* user := scalar_user uid in
          match user with
          | None => http_exception 404 "Authenticated user not found"
          | Some u => let* _ := session_headers request_obj (Some u) in ret id
          end
      end
  end.

Definition get_comparison_batch (now : Z) (request : NewComparisonBatchRequest)
    (request_obj : Headers) (user_id : option string) : M (list ComparisonToken) :=
  let* test_set := batch_test_set request_obj user_id in
  if (batch_size request >? MAX_BATCH_SIZE)%Z then
    http_exception 406 "Invalid batch size"
  else
    let* metric := scalar_metric (uuid_str (request_metric_id request)) in
    match metric with
    | None => http_exception 400 "Invalid metric id"
    | Some metric =>
        let* sample_data := execute_named batch_query_name test_set (batch_size request) in
        match sample_data with
        | None =>
            http_exception 500
              ("Failed to retrieve comparison batch using '" +:+ batch_query_name +:+ "'")
        | Some sample_data => batch_loop now metric test_set sample_data []
        end
    end.

(** The fixed test-set name the header block looks up. *)
Definition default_test_set_name (user_id : option string) : string :=
  match user_id with
  | None => "Unauthenticated Test Set"
  | Some _ => "Authenticated Test Set"
  end.

Definition default_test_set_missing (user_id : option string) : string :=
  match user_id with
  | None => "Default unauthenticated test set not found"
  | Some _ => "Default authenticated test set not found"
  end.

(** The id [scalar_test_set_id] finds for a name. *)
Definition named_test_set (w : World) (name : string) : option Z :=
  test_set_id <$> head (filter (λ t, test_set_name t = name) (test_sets (db w))).

(** The row [scalar_user] finds for an external id. *)
Definition known_user (w : World) (external_id : string) : option User :=
  head (filter (λ u, user_external_id u = external_id) (users (db w))).

(** The user row the header block hands to [process_session_headers]. *)
Definition batch_user (w : World) (user_id : option string) : option User :=
  match user_id with
  | None => None
  | Some uid => known_user w uid
  end.

(** The header block of [get_comparison_batch] finds the caller. *)
Definition batch_caller_found (w : World) (user_id : option string) : Prop :=
  match user_id with
  | None => True
  | Some uid => is_Some (known_user w uid)
  end.

(** The statements the header block sends when it passes. *)
Definition header_queries (user_id : option string) : list (Query U) :=
  match user_id with
  | None => [SelectTestSetIdByName "Unauthenticated Test Set"]
  | Some uid => [SelectTestSetIdByName "Authenticated Test Set";
                 SelectUserByExternalId uid]
  end.

Definition is_execute_plan (q : Query U) : bool :=
  match q with
  | ExecutePlan _ _ _ => true
  | _ => false
  end.

(** The failure detail of the pairing plan. *)
Definition plan_failure_detail : string :=
  "Failed to retrieve comparison batch using '" +:+ batch_query_name +:+ "'".

(** The cache entry a returned pair must be stored under its token. *)
Definition token_entry (now : Z) (t : ComparisonToken) : option Cache.Entry :=
  match token_samples t with
  | [a; b] =>
      Some (Cache.mkEntry (Payload.join3 (uuid_str (token_metric_id t)) a b)
              (Some (now + 3600)))
  | _ => None
  end.

(** *** [post_comparison] *)

Inductive RankItem := One (sample : U) | Tie (group : list U).

Record UserComparisonRequest := {
  comparison_token : string;
  ordered_sample_ids : list RankItem
}.

Record VoteResponse := { sample_1_model : string; sample_2_model : string }.

(** [{sample.comparison_sample_id: sample for sample in samples}[k]] *)
Definition sample_lookup (samples : list (Sample U)) (k : U) : option (Sample U) :=
  last (filter (λ s, comparison_sample_id s = k) samples).

Definition getitem (samples : list (Sample U)) (k : U) : M (Sample U) :=
  match sample_lookup samples k with
  | Some s => ret s
  | None => raise KeyError
  end.

(** The payload [metric:sample_1:sample_2]; [None] is a [ValueError]. *)
Definition decode_token (token_data : string) : option (string * U * U) :=
  match Payload.split_colon token_data with
  | None => None
  | Some (metric, sample_data) =>
      match Payload.split_colon sample_data with
      | None => None
      | Some (a, b) =>
          match uuid_parse a, uuid_parse b with
          | Some sample_1, Some sample_2 => Some (metric, sample_1, sample_2)
          | _, _ => None
          end
      end
  end.

(** The body of the ranking loop for one position; [None] is a [KeyError]. *)
Definition rank_item (samples : list (Sample U)) (rank : Z) (item : RankItem)
    : option (list (Z * Sample U)) :=
  match item with
  | Tie group => mapM (λ id, (λ s, (rank, s)) <$> sample_lookup samples id) group
  | One id => (λ s, [(rank, s)]) <$> sample_lookup samples id
  end.

(** [for idx, sample_or_samples in enumerate(...)], starting at [idx]. *)
Fixpoint expand_ranks (samples : list (Sample U)) (idx : Z) (items : list RankItem)
    : option (list (Z * Sample U)) :=
  match items with
  | [] => Some []
  | item :: rest =>
      match rank_item samples (idx + 1) item with
      | None => None
      | Some here =>
          match expand_ranks samples (idx + 1) rest with
          | None => None
          | Some later => Some (here ++ later)
          end
      end
  end.

Definition derive_test_set (sample_1 sample_2 : Sample U) : option Z :=
  match sample_test_set_id sample_1 with
  | Some t => if (t =? 0)%Z then
                match sample_test_set_id sample_2 with
                | Some t2 => if (t2 =? 0)%Z then None else Some t2
                | None => None
                end
              else Some t
  | None => match sample_test_set_id sample_2 with
            | Some t2 => if (t2 =? 0)%Z then None else Some t2
            | None => None
            end
  end.

(** [ComparisonRank(comparison_id=comparison.id, sample_id=sample.id, rank=rank)] *)
Definition rank_row (comparison : Comparison) (ranked : Z * Sample U) : ComparisonRank :=
  {| rank_comparison_id := comparison_id comparison;
     rank_sample_id := sample_id (snd ranked);
     rank := fst ranked |}.

Fixpoint add_ranks (comparison : Comparison) (ranks : list (Z * Sample U)) : M unit :=
  match ranks with
  | [] => ret tt
  | ranked :: rest =>
      let* _ := add_comparison_rank (rank_row comparison ranked) in
      add_ranks comparison rest
  end.

(** The header block: the user row, the session ids and [can_vote]. *)
Definition vote_caller (request_obj : Headers) (user_uuid : option string)
    : M (option User * bool * (Z * Z)) :=
  match user_uuid with
  | Some (String c rest as uid) =>
      let* user := one_user uid in
      let* ids := session_headers request_obj (Some user) in
      ret (Some user, bool_decide (PERM_VOTING_VOTE ∈ user_scopes user), ids)
  | _ =>
      let* ids := session_headers request_obj None in
      ret (None, true, ids)
  end.

(** Everything after the header block: redeem the token, resolve the
    samples, expand the ranking, write the ledger when [can_vote], answer. *)
Definition redeem_and_record (now : Z) (request : UserComparisonRequest)
    (caller : option User * bool * (Z * Z)) : M VoteResponse :=
  let '(user, can_vote, (session_id, identification_token_id)) := caller in
  let* token_data := redis_getdel now (Payload.active_key (comparison_token request)) in
  match token_data with
  | None | Some EmptyString => http_exception 404 "No active comparisons found"
  | Some token_data =>
      match decode_token token_data with
      | None => raise ValueError
      | Some (metric_id_str, sample_1_id, sample_2_id) =>
          let* samples := select_samples_in sample_1_id sample_2_id in
          let* sample_1 := getitem samples sample_1_id in
          let* sample_2 := getitem samples sample_2_id in
          match expand_ranks samples 0 (ordered_sample_ids request) with
          | None => raise KeyError
          | Some ranks =>
              let* metric := scalar_metric metric_id_str in
              let test_set := derive_test_set sample_1 sample_2 in
              let* _ :=
                (if can_vote then
                   match metric with
                   | None => raise AttributeError
                   | Some metric =>
                       let* comparison :=
                         add_comparison (user_id <$> user) (metric_id metric)
                           test_set session_id identification_token_id in
                       let* _ := add_ranks comparison ranks in
                       let* acquired := redis_set_nx_ex now Payload.lock_key "1" 300 in
                       if acquired then send_task "elo_calculation" else ret tt
                   end
                 else ret tt) in
              ret {| sample_1_model := sample_model_name sample_1;
                     sample_2_model := sample_model_name sample_2 |}
          end
      end
  end.

Definition post_comparison (now : Z) (request : UserComparisonRequest)
    (request_obj : Headers) (user_uuid : option string) : M VoteResponse :=
  let* caller := vote_caller request_obj user_uuid in
  redeem_and_record now request caller.

(** *** Sequences of vote requests *)

Record Vote := {
  vote_now : Z;
  vote_request : UserComparisonRequest;
  vote_headers : Headers;
  vote_caller_id : option string
}.

Definition run_vote (v : Vote) : World → Outcome VoteResponse * World :=
  post_comparison (vote_now v) (vote_request v) (vote_headers v) (vote_caller_id v).

Fixpoint run_votes (vs : list Vote) (w : World) : World :=
  match vs with
  | [] => w
  | v :: rest => run_votes rest (snd (run_vote v w))
  end.

(** The rows of the append-only ledger. *)
Definition ledger (w : World) : list Comparison * list ComparisonRank :=
  (comparisons (db w), comparison_ranks (db w)).

(** The samples the store returns for the pair of a token. *)
Definition pair_samples (w : World) (a b : U) : list (Sample U) :=
  filter (λ s, comparison_sample_id s = a ∨ comparison_sample_id s = b) (samples (db w)).

(** At the cache's time [now], [tok] is an active token whose payload
    decodes to a metric and two samples. *)
Definition bound_to (now : Z) (w : World) (tok : string) (metric : string) (a b : U) : Prop :=
  ∃ data, Cache.get now (Payload.active_key tok) (redis w) = Some data
          ∧ decode_token data = Some (metric, a, b).

(** The metric row found by [scalar_metric]. *)
Definition metric_row (w : World) (external_id : string) : option (Metric U) :=
  head (filter (λ m, uuid_str (metric_external_id m) = external_id) (metrics (db w))).

(** The ledger row written for an eligible vote. *)
Definition vote_comparison (w : World) (user : option User) (metric : Metric U)
    (sample_1 sample_2 : Sample U) (ids : Z * Z) : Comparison :=
  {| comparison_id := Z.of_nat (length (comparisons (db w))) + 1;
     comparison_user_id := user_id <$> user;
     comparison_metric_id := metric_id metric;
     comparison_test_set_id := derive_test_set sample_1 sample_2;
     comparison_session_id := fst ids;
     comparison_identification_token_id := snd ids |}.

(** The 1-based position of every ranked sample id, as the ranking is
    described: position [i] (from 0) gives rank [i + 1], and the members of
    a tie-group all take the rank of the group's position. *)
Definition members (item : RankItem) : list U :=
  match item with
  | One id => [id]
  | Tie group => group
  end.

Definition rank_positions (items : list RankItem) : list (Z * U) :=
  concat (imap (λ i item, (λ id, (Z.of_nat i + 1, id)) <$> members item) items).

(** A ranked sample row, read back as (rank, comparison sample id). *)
Definition ranked_id (ranked : Z * Sample U) : Z * U :=
  (fst ranked, comparison_sample_id (snd ranked)).

(** The value of [can_vote] after the header block. *)
Definition can_vote_of (w : World) (user_uuid : option string) : bool :=
  match user_uuid with
  | Some (String c rest as uid) =>
      match filter (λ u, user_external_id u = uid) (users (db w)) with
      | [u] => bool_decide (PERM_VOTING_VOTE ∈ user_scopes u)
      | _ => false
      end
  | _ => true
  end.

(** The user row of the caller after the header block. *)
Definition user_of (w : World) (user_uuid : option string) : option User :=
  match user_uuid with
  | Some (String c rest as uid) =>
      head (filter (λ u, user_external_id u = uid) (users (db w)))
  | _ => None
  end.

(** The header block of [post_comparison] finds the caller: anonymous, or
    exactly one user row. *)
Definition caller_resolves (w : World) (user_uuid : option string) : Prop :=
  match user_uuid with
  | Some (String c rest as uid) =>
      length (filter (λ u, user_external_id u = uid) (users (db w))) = 1%nat
  | _ => True
  end.

End Handlers.

(** ** A concrete deployment used to run the handlers *)

Module Fixture.

Inductive Id := SampleA | SampleB | SampleC | Metric1 | Token1 | Token2.

Definition id_str (i : Id) : string :=
  match i with
  | SampleA => "0a0a0a0a-0000-4000-8000-00000000000a"
  | SampleB => "0b0b0b0b-0000-4000-8000-00000000000b"
  | SampleC => "0c0c0c0c-0000-4000-8000-00000000000c"
  | Metric1 => "11111111-0000-4000-8000-000000000001"
  | Token1 => "70000000-0000-4000-8000-000000000001"
  | Token2 => "70000000-0000-4000-8000-000000000002"
  end.

Definition id_parse (s : string) : option Id :=
  head (filter (λ i, id_str i = s) [SampleA; SampleB; SampleC; Metric1; Token1; Token2]).

#[export] Instance id_eq_dec : EqDecision Id.
Proof. solve_decision. Defined.

#[export] Instance id_codec : UuidCodec Id := {|
  uuid_eq_dec := id_eq_dec;
  uuid_str := id_str;
  uuid_parse := id_parse;
  uuid_str_colon_free := ltac:(intros []; reflexivity);
  uuid_parse_str := ltac:(intros []; reflexivity)
|}.

#[export] Instance env : Env Id := {|
  Headers := unit;
  AuthState := nat;
  process_session_headers := λ _ _ n, (S n, (Z.of_nat n + 1, Z.of_nat n + 101));
  PERM_VOTING_VOTE := "voting:vote";
  uuid4 := λ n, match n with O => Token1 | _ => Token2 end;
  USE_PRIORITY_COMPARISON := false;
  EXTERNAL_OBJECT_BUCKET := "assets";
  execute_plan := λ name ts n d,
    if decide (name = "comparison_batch_query") then
      if (n <? 0)%Z then None
      else Some (take (Z.to_nat n)
                   [[CUuid SampleA; CText "a.gltf"; CUuid SampleB; CText "b.gltf";
                     CText "a small house"];
                    [CUuid SampleB; CText "b.gltf"; CUuid SampleA; CText "a.gltf";
                     CText "a small house"]])
    else None
|}.

Definition store : Db Id := {|
  test_sets := [ {| test_set_id := 1; test_set_name := "Unauthenticated Test Set" |};
                 {| test_set_id := 2; test_set_name := "Authenticated Test Set" |} ];
  users := [ {| user_id := 7; user_external_id := "alice"; user_scopes := [] |};
             {| user_id := 8; user_external_id := "bob"; user_scopes := ["voting:vote"] |} ];
  metrics := [ {| metric_id := 3; metric_external_id := Metric1 |} ];
  samples := [ {| sample_id := 10; comparison_sample_id := SampleA;
                  sample_test_set_id := Some 1; sample_model_name := "model-a" |};
               {| sample_id := 11; comparison_sample_id := SampleB;
                  sample_test_set_id := Some 1; sample_model_name := "model-b" |} ];
  comparisons := [];
  comparison_ranks := []
|}.

Definition world0 : World := {|
  db := store; auth := O; redis := ∅; tasks := []; queries := []; uuid_calls := O
|}.

Definition no_headers : @Headers Id env := tt.

Definition batch_request (n : Z) : NewComparisonBatchRequest :=
  {| request_metric_id := Metric1; batch_size := n |}.

(** The world after one anonymous batch of one pair at time 1000. *)
Definition world1 : World := snd (get_comparison_batch 1000 (batch_request 1) tt None world0).

(** An anonymous batch of two pairs at time 1000, its pairs and its world. *)
Definition batch2 : Outcome (list ComparisonToken) * World :=
  get_comparison_batch 1000 (batch_request 2) tt None world0.

Definition tokens2 : list ComparisonToken :=
  match fst batch2 with
  | Returned l => l
  | _ => []
  end.

Definition world2 : World := snd batch2.

(** [world1] after the row of the second sample, of the metric, or of both
    test sets has gone from the store. *)
Definition world_missing_sample : World :=
  set_db {| test_sets := test_sets store; users := users store; metrics := metrics store;
            samples := take 1 (samples store);
            comparisons := []; comparison_ranks := [] |} world1.

Definition world_missing_metric : World :=
  set_db {| test_sets := test_sets store; users := users store; metrics := [];
            samples := samples store;
            comparisons := []; comparison_ranks := [] |} world1.

Definition world_no_test_set : World :=
  set_db {| test_sets := []; users := users store; metrics := metrics store;
            samples := samples store;
            comparisons := []; comparison_ranks := [] |} world0.

Definition vote_with (tok : Id) (now : Z) (items : list RankItem) (caller : option string)
    : Vote :=
  {| vote_now := now;
     vote_request := {| comparison_token := id_str tok; ordered_sample_ids := items |};
     vote_headers := tt;
     vote_caller_id := caller |}.

Definition vote : Z → list RankItem → option string → Vote := vote_with Token1.

Definition payload1 : string :=
  Payload.join3 (id_str Metric1) (id_str SampleA) (id_str SampleB).

Definition both_models : VoteResponse :=
  {| sample_1_model := "model-a"; sample_2_model := "model-b" |}.

End Fixture.

(** ** Rows of the pairing loop *)

Section BatchRows.
Context {U : Type} `{!UuidCodec U} `{!Env U}.

(** Whether the loop keeps a row that has its five common columns: in
    priority mode a row with fewer than eleven columns is skipped. *)
Definition row_kept (row : list (Cell U)) : bool :=
  if USE_PRIORITY_COMPARISON then negb (Z.of_nat (length row) <? 11)%Z else true.

(** [[str(row[0]), str(row[2])]], the sample ids of the pair of a row. *)
Definition row_samples (row : list (Cell U)) : list string :=
  match row !! 0%nat, row !! 2%nat with
  | Some a, Some b => [cell_str a; cell_str b]
  | _, _ => []
  end.

End BatchRows.

(** ** The admin API client (mc_bench.clients.mcbench_admin_api) *)

Module AdminClient.

Definition is_slash (c : ascii) : bool := Ascii.eqb c "/"%char.

(** [s.lstrip("/")] *)
Fixpoint lstrip_slash (s : string) : string :=
  match s with
  | EmptyString => EmptyString
  | String c rest => if is_slash c then lstrip_slash rest else s
  end.

(** [s.rstrip("/")] *)
Fixpoint rstrip_slash (s : string) : string :=
  match s with
  | EmptyString => EmptyString
  | String c rest =>
      match rstrip_slash rest with
      | EmptyString => if is_slash c then EmptyString else String c EmptyString
      | kept => String c kept
      end
  end.

Record Client := { client_token : string; base_url : string }.

Record Request := {
  request_method : string;
  request_url : string;
  request_headers : list (string * string)
}.

(** [Client._make_path] *)
Definition _make_path (self : Client) (path : string) : string :=
  let path := lstrip_slash path in
  let host := rstrip_slash (base_url self) in
  host +:+ "/" +:+ path.

(** [Client._make_request], as the request handed to [requests.request]. *)
Definition _make_request (self : Client) (method path : string) : Request :=
  {| request_method := method;
     request_url := _make_path self path;
     request_headers := [("Authorization", "Bearer " +:+ client_token self)] |}.

(** [Client.post] *)
Definition post (self : Client) (path : string) : Request :=
  _make_request self "POST" path.

(** [n] slashes. *)
Fixpoint slashes (n : nat) : string :=
  match n with
  | O => EmptyString
  | S n => String "/"%char (slashes n)
  end.

Definition starts_with_slash (s : string) : bool :=
  match s with
  | String c _ => is_slash c
  | EmptyString => false
  end.

Fixpoint ends_with_slash (s : string) : bool :=
  match s with
  | EmptyString => false
  | String c EmptyString => is_slash c
  | String _ rest => ends_with_slash rest
  end.

End AdminClient.

(** ** Pagination of the model leaderboards
       ([get_model_prompt_leaderboard], [get_model_samples]) *)

Module Paging.

Record PagingResponse := {
  page : Z;
  page_size : Z;
  total_pages : Z;
  total_items : Z;
  has_next : bool;
  has_previous : bool
}.

(** [(total_items + pageSize - 1) // pageSize if total_items > 0 else 1] *)
Definition total_pages_of (total_items pageSize : Z) : Z :=
  if (total_items >? 0)%Z then (total_items + pageSize - 1) / pageSize else 1.

(** [(page - 1) * pageSize] *)
Definition offset_of (page pageSize : Z) : Z := (page - 1) * pageSize.

(** [PagingResponse(page=page, page_size=pageSize, ...)] *)
Definition paging (page pageSize total_items : Z) : PagingResponse :=
  {| page := page;
     page_size := pageSize;
     total_pages := total_pages_of total_items pageSize;
     total_items := total_items;
     has_next := (page <? total_pages_of total_items pageSize)%Z;
     has_previous := (page >? 1)%Z |}.

(** [base_query.order_by(...).offset(offset).limit(pageSize)] on the ordered
    rows of the base query. *)
Definition page_rows {A} (rows : list A) (page pageSize : Z) : list A :=
  take (Z.to_nat pageSize) (drop (Z.to_nat (offset_of page pageSize)) rows).

(** Pages [first], [first + 1], ..., [n] pages in all, one after the other. *)
Fixpoint pages_from {A} (rows : list A) (pageSize : Z) (first : Z) (n : nat) : list A :=
  match n with
  | O => []
  | S n => page_rows rows first pageSize ++ pages_from rows pageSize (first + 1) n
  end.

End Paging.

(** ** The [excludeIds] parameter of [get_random_model_sample]

    A Python string is a sequence of code points; [isspace] is the
    whitespace test of [str.strip] and the comma is not whitespace. *)

Class CodePoints (Char : Type) := {
  char_eq_dec :: EqDecision Char;
  comma : Char;
  isspace : Char → bool;
  comma_not_space : isspace comma = false
}.

Section ExcludeIds.
Context {Char : Type} `{!CodePoints Char}.

(** [s.split(",")] *)
Fixpoint split_comma (s : list Char) : list (list Char) :=
  match s with
  | [] => [[]]
  | c :: rest =>
      if decide (c = comma) then [] :: split_comma rest
      else match split_comma rest with
           | piece :: pieces => (c :: piece) :: pieces
           | [] => [[c]]
           end
  end.

Fixpoint lstrip (s : list Char) : list Char :=
  match s with
  | [] => []
  | c :: rest => if isspace c then lstrip rest else s
  end.

Fixpoint rstrip (s : list Char) : list Char :=
  match s with
  | [] => []
  | c :: rest =>
      match rstrip rest with
      | [] => if isspace c then [] else [c]
      | kept => c :: kept
      end
  end.

(** [s.strip()] *)
Definition strip (s : list Char) : list Char := lstrip (rstrip s).

Definition nonempty (s : list Char) : bool :=
  match s with
  | [] => false
  | _ => true
  end.

(** [[id.strip() for id in excludeIds.split(",") if id.strip()]] *)
Definition exclude_list (excludeIds : list Char) : list (list Char) :=
  omap (λ id, if nonempty (strip id) then Some (strip id) else None)
    (split_comma excludeIds).

(** The ids the query excludes: [None] when no [notin_] filter is added. *)
Definition excluded (excludeIds : option (list Char)) : option (list (list Char)) :=
  match excludeIds with
  | Some (c :: rest) =>
      match exclude_list (c :: rest) with
      | [] => None
      | ids => Some ids
      end
  | _ => None
  end.

(** [",".join(ids)] *)
Fixpoint join_comma (ids : list (list Char)) : list Char :=
  match ids with
  | [] => []
  | [id] => id
  | id :: rest => id ++ (comma :: join_comma rest)
  end.

(** A string of whitespace only. *)
Definition spaces (s : list Char) : Prop := Forall (λ c, isspace c = true) s.

(** An id as [exclude_list] yields them: not empty, no comma, no
    whitespace at either end. *)
Definition clean_id (id : list Char) : Prop :=
  id ≠ [] ∧ (comma ∉ id)
  ∧ (∀ c, head id = Some c → isspace c = false)
  ∧ (∀ c, last id = Some c → isspace c = false).

End ExcludeIds.

(** ** Preparing the pairing plans on a new connection
       (mc_bench.apps.api.lifespan) *)

Module Prepare.

(** The calls made on the DB-API connection and its cursor. *)
Inductive Call :=
| OpenCursor
| ExecutePrepare (name : string)
| Commit
| Rollback
| CloseCursor.

#[export] Instance call_eq_dec : EqDecision Call.
Proof. solve_decision. Defined.

(** A computation that makes calls and ends normally ([None]) or with the
    exception of a failed call, an [Exception].  Logging is not a call. *)
Definition Run : Type := list Call → option Call * list Call.

Section Connection.
(** Which calls raise. *)
Variable fails : Call → bool.

Definition call (c : Call) : Run :=
  λ trace, (if fails c then Some c else None, trace ++ [c]).

Definition skip : Run := λ trace, (None, trace).

Definition seq_run (a b : Run) : Run :=
  λ trace, match a trace with
           | (None, trace') => b trace'
           | (Some e, trace') => (Some e, trace')
           end.

(** [try: body  except Exception: handler  finally: final] *)
Definition try_except_finally (body handler final : Run) : Run :=
  λ trace,
    let '(pending, trace1) :=
      match body trace with
      | (None, trace') => (None, trace')
      | (Some _, trace') => handler trace'
      end in
    match final trace1 with
    | (None, trace2) => (pending, trace2)
    | (Some e, trace2) => (Some e, trace2)
    end.

(** [prepare_statements(dbapi_connection, connection_record)] *)
Definition prepare_statements : Run :=
  seq_run (call OpenCursor)
    (try_except_finally
       (seq_run (call (ExecutePrepare "comparison_batch_query"))
          (seq_run (call (ExecutePrepare "comparison_batch_query_priority"))
             (call Commit)))
       (call Rollback)
       (call CloseCursor)).

End Connection.

End Prepare.

(** ** Sample statistics of a model ([get_model_sample_stats])

    Scores are floats: their arithmetic and the built-in [sorted] are taken
    as given, [sorted] with the one law used here, that it permutes its
    input.  Every division, of a score by an int or of two ints, fails on a
    zero divisor. *)

Class Scores (F : Type) := {
  of_int : Z → F;
  truediv : Z → Z → F;
  fsum : list F → F;
  fdiv : F → Z → F;
  sorted_desc : ∀ {A : Type}, (A → F) → list A → list A;
  sorted_desc_permutation : ∀ (A : Type) (key : A → F) (l : list A),
    sorted_desc key l ≡ₚ l
}.

Module ModelStats.
Section Statistics.
Context {F : Type} `{!Scores F}.

Record SampleLeaderboard := {
  elo_score : F;
  vote_count : Z;
  win_count : Z;
  loss_count : Z;
  tie_count : Z
}.

(** A row [(SampleLeaderboard, Sample, Run, Prompt)] of the sample query,
    with the fields the handler reads. *)
Record SampleEntry := {
  leaderboard : SampleLeaderboard;
  sample_external_id : string;
  prompt_external_id : string;
  prompt_name : string
}.

Record BucketStatsResponse := {
  bucket : Z;
  bucket_sample_count : Z;
  avg_elo : F;
  win_rate : F;
  total_votes : Z;
  total_wins : Z;
  total_losses : Z;
  total_ties : Z;
  model_name : string
}.

Record TopSampleResponse := {
  top_id : string;
  top_elo_score : F;
  top_win_rate : F;
  top_vote_count : Z;
  top_prompt_id : string;
  top_prompt_name : string
}.

Record GlobalStatsResponse := {
  global_avg_elo : F;
  global_total_votes : Z;
  global_total_wins : Z;
  global_total_losses : Z;
  global_total_ties : Z;
  global_win_rate : F
}.

Record ModelSampleStatsResponse := {
  sample_count : Z;
  statistics : option (list (string * string));
  global_stats : option GlobalStatsResponse;
  bucket_stats : option (list BucketStatsResponse);
  top_samples : option (list TopSampleResponse)
}.

(** [sum(f(sample[0]) for sample in samples)] *)
Definition sum_of (f : SampleLeaderboard → Z) (samples : list SampleEntry) : Z :=
  foldr (λ sample acc, f (leaderboard sample) + acc) 0 samples.

(** [l[start:stop]] for [0 <= start] *)
Definition slice {A} (l : list A) (start stop : Z) : list A :=
  take (Z.to_nat (stop - start)) (drop (Z.to_nat start) l).

(** [x / n] for a score and an int: [None] is [ZeroDivisionError]. *)
Definition score_div (x : F) (n : Z) : option F :=
  if (n =? 0)%Z then None else Some (fdiv x n).

(** [a / b] for two ints: [None] is [ZeroDivisionError]. *)
Definition int_div (a b : Z) : option F :=
  if (b =? 0)%Z then None else Some (truediv a b).

(** [wins / votes if votes > 0 else 0] *)
Definition rate (wins votes : Z) : option F :=
  if (votes >? 0)%Z then int_div wins votes else Some (of_int 0).

(** The body of the bucket loop after the [break] test. *)
Definition make_bucket (number : Z) (bucket_samples : list SampleEntry) (name : string)
    : option BucketStatsResponse :=
  let votes := sum_of vote_count bucket_samples in
  let wins := sum_of win_count bucket_samples in
  let losses := sum_of loss_count bucket_samples in
  let ties := sum_of tie_count bucket_samples in
  match rate wins votes with
  | None => None
  | Some rate_of_wins =>
      match score_div (fsum (map (λ sample, elo_score (leaderboard sample)) bucket_samples))
              (Z.of_nat (length bucket_samples)) with
      | None => None
      | Some avg =>
          Some {| bucket := number;
                  bucket_sample_count := Z.of_nat (length bucket_samples);
                  avg_elo := avg;
                  win_rate := rate_of_wins;
                  total_votes := votes;
                  total_wins := wins;
                  total_losses := losses;
                  total_ties := ties;
                  model_name := name |}
      end
  end.

(** [for i in range(10): ...] over the remaining values of [i]. *)
Fixpoint bucket_loop (indices : list Z) (sorted_by_elo : list SampleEntry)
    (total_samples bucket_size : Z) (name : string) : option (list BucketStatsResponse) :=
  match indices with
  | [] => Some []
  | i :: rest =>
      let start_idx := i * bucket_size in
      let end_idx := Z.min (start_idx + bucket_size) total_samples in
      if (start_idx >=? total_samples)%Z then Some []
      else
        match make_bucket (i + 1) (slice sorted_by_elo start_idx end_idx) name with
        | None => None
        | Some b =>
            match bucket_loop rest sorted_by_elo total_samples bucket_size name with
            | None => None
            | Some bs => Some (b :: bs)
            end
        end
  end.

(** [range(10)] *)
Definition range10 : list Z := Z.of_nat <$> seq 0 10.

(** The body of the loop over [sorted_by_elo[:20]]. *)
Definition top_sample (entry : SampleEntry) : option TopSampleResponse :=
  match rate (win_count (leaderboard entry)) (vote_count (leaderboard entry)) with
  | None => None
  | Some rate_of_wins =>
      Some {| top_id := sample_external_id entry;
              top_elo_score := elo_score (leaderboard entry);
              top_win_rate := rate_of_wins;
              top_vote_count := vote_count (leaderboard entry);
              top_prompt_id := prompt_external_id entry;
              top_prompt_name := prompt_name entry |}
  end.

(** The statistics part of [get_model_sample_stats], from
    [total_samples = len(sample_entries)] on; [None] is a
    [ZeroDivisionError].  The [model] field of the response, a copy of the
    model row, is left out. *)
Definition sample_statistics (name : string) (model_entry_elo : F)
    (sample_entries : list SampleEntry) : option ModelSampleStatsResponse :=
  let total_samples := Z.of_nat (length sample_entries) in
  if (total_samples =? 0)%Z then
    Some {| sample_count := 0;
            statistics := Some [("message", "No sample data available for this model")];
            global_stats := None; bucket_stats := None; top_samples := None |}
  else
    let sorted_by_elo := sorted_desc (λ x, elo_score (leaderboard x)) sample_entries in
    let bucket_size := Z.max 1 (total_samples / 10) in
    match bucket_loop range10 sorted_by_elo total_samples bucket_size name with
    | None => None
    | Some buckets =>
        match mapM top_sample (take 20 sorted_by_elo) with
        | None => None
        | Some tops =>
            match rate (sum_of win_count sample_entries)
                    (sum_of vote_count sample_entries) with
            | None => None
            | Some rate_of_wins =>
                Some {| sample_count := total_samples;
                        statistics := None;
                        global_stats :=
                          Some {| global_avg_elo := model_entry_elo;
                                  global_total_votes := sum_of vote_count sample_entries;
                                  global_total_wins := sum_of win_count sample_entries;
                                  global_total_losses := sum_of loss_count sample_entries;
                                  global_total_ties := sum_of tie_count sample_entries;
                                  global_win_rate := rate_of_wins |};
                        bucket_stats := Some buckets;
                        top_samples := Some tops |}
            end
        end
    end.

(** The samples counted in some bucket: the best-scored ones, up to ten
    times the bucket size. *)
Definition bucketed (sample_entries : list SampleEntry) : list SampleEntry :=
  let total := length sample_entries in
  take (10 * Nat.max 1 (total / 10))
    (sorted_desc (λ x, elo_score (leaderboard x)) sample_entries).

(** The samples counted in no bucket. *)
Definition unbucketed (sample_entries : list SampleEntry) : list SampleEntry :=
  let total := length sample_entries in
  drop (10 * Nat.max 1 (total / 10))
    (sorted_desc (λ x, elo_score (leaderboard x)) sample_entries).

(** A sum over the buckets of a response. *)
Definition over_buckets (f : BucketStatsResponse → Z) (buckets : list BucketStatsResponse)
    : Z :=
  foldr (λ b acc, f b + acc) 0 buckets.

End Statistics.
End ModelStats.

(** ** Further concrete inputs *)

(** A deployment in priority mode: the plan returns a row of the priority
    shape, a row of the standard shape and a row cut short after three
    columns. *)
Module PriorityFixture.
Import Fixture.

Definition priority_rows : list (list (Cell Id)) :=
  [ [CUuid SampleA; CText "a.gltf"; CUuid SampleB; CText "b.gltf"; CText "a small house";
     CText "model-a"; CInt 4; CInt 2; CText "model-b"; CInt 9; CInt 1];
    [CUuid SampleB; CText "b.gltf"; CUuid SampleA; CText "a.gltf"; CText "a small house"];
    [CUuid SampleA; CText "a.gltf"; CUuid SampleB] ].

Definition priority_env : Env Id := {|
  Headers := unit;
  AuthState := nat;
  process_session_headers := λ _ _ n, (S n, (Z.of_nat n + 1, Z.of_nat n + 101));
  PERM_VOTING_VOTE := "voting:vote";
  uuid4 := λ n, match n with O => Token1 | _ => Token2 end;
  USE_PRIORITY_COMPARISON := true;
  EXTERNAL_OBJECT_BUCKET := "assets";
  execute_plan := λ name ts n d,
    if decide (name = "comparison_batch_query_priority") then
      if (n <? 0)%Z then None else Some (take (Z.to_nat n) priority_rows)
    else None
|}.

Definition priority_world0 : @World Id priority_env :=
  @Build_World Id priority_env store O ∅ [] [] O.

(** An anonymous batch of [n] pairs at time 1000. *)
Definition priority_batch (n : Z) : Outcome (list ComparisonToken) * @World Id priority_env :=
  @get_comparison_batch Id id_codec priority_env 1000 (batch_request n) tt None
    priority_world0.

End PriorityFixture.

Module MoreFixture.
Import Fixture.

(** [world0] with a value under a token key that is no payload. *)
Definition world_bad_token : World :=
  set_redis (<[Payload.active_key (id_str Token1) := Cache.mkEntry "stale" None]> ∅) world0.

Definition no_token : ComparisonToken :=
  {| token := Token1; token_metric_id := Metric1; token_samples := [];
     build_description := CInt 0; assets := [] |}.

(** The first pair of [batch2]. *)
Definition first_token : ComparisonToken := nth 0 tokens2 no_token.

(** ASCII code points: comma, and the whitespace of [str.isspace]. *)
#[export] Instance ascii_points : CodePoints ascii := {|
  char_eq_dec := _;
  comma := ","%char;
  isspace := λ c,
    let n := nat_of_ascii c in
    ((9 <=? n)%nat && (n <=? 13)%nat) || ((28 <=? n)%nat && (n <=? 32)%nat);
  comma_not_space := eq_refl
|}.

Definition chars (s : string) : list ascii := list_ascii_of_string s.

(** A connection on which preparing the second statement fails. *)
Definition fails_second (c : Prepare.Call) : bool :=
  if Prepare.call_eq_dec c (Prepare.ExecutePrepare "comparison_batch_query_priority")
  then true else false.

(** Rational scores, sorted by a stable merge sort. *)
#[export] Instance rational_scores : Scores Q := {|
  of_int := inject_Z;
  truediv := λ a b, Qdiv (inject_Z a) (inject_Z b);
  fsum := foldr Qplus (inject_Z 0);
  fdiv := λ x n, Qdiv x (inject_Z n);
  sorted_desc := λ A key, merge_sort (λ a b, Is_true (Qle_bool (key b) (key a)));
  sorted_desc_permutation := λ A key l,
    merge_sort_Permutation (λ a b, Is_true (Qle_bool (key b) (key a))) l
|}.

Definition entry (id : string) (elo : Z) (votes wins losses ties : Z)
    : @ModelStats.SampleEntry Q :=
  {| ModelStats.leaderboard :=
       {| ModelStats.elo_score := inject_Z elo; ModelStats.vote_count := votes;
          ModelStats.win_count := wins; ModelStats.loss_count := losses;
          ModelStats.tie_count := ties |};
     ModelStats.sample_external_id := id;
     ModelStats.prompt_external_id := "prompt";
     ModelStats.prompt_name := "a small house" |}.

(** Twelve sample rows: the two lowest-scored ones, s01 and s02, have votes. *)
Definition twelve_entries : list (@ModelStats.SampleEntry Q) :=
  [ entry "s01" 901 3 1 2 0; entry "s02" 902 5 0 4 1; entry "s03" 1003 2 1 1 0;
    entry "s04" 1004 2 1 1 0; entry "s05" 1005 2 1 1 0; entry "s06" 1006 2 1 1 0;
    entry "s07" 1007 2 1 1 0; entry "s08" 1008 2 1 1 0; entry "s09" 1009 2 1 1 0;
    entry "s10" 1010 2 1 1 0; entry "s11" 1011 2 2 0 0; entry "s12" 1012 2 2 0 0 ].

End MoreFixture.

(** ** Facts about the payload format and the cache primitives *)

Module PayloadFacts.
Import Payload.

Lemma split_colon_app (a b : string) :
  colon_free a = true → split_colon (a +:+ ":" +:+ b) = Some (a, b).
Proof.
  induction a as [|c a IH]; simpl; intros Hfree.
  - reflexivity.
  - apply andb_true_iff in Hfree as [Hc Ha].
    apply negb_true_iff in Hc. rewrite Hc, (IH Ha). reflexivity.
Qed.

Lemma split_colon_join3 (a b c : string) :
  colon_free a = true → colon_free b = true →
  split_colon (join3 a b c) = Some (a, b +:+ ":" +:+ c)
  ∧ split_colon (b +:+ ":" +:+ c) = Some (b, c).
Proof.
  intros Ha Hb. unfold join3. split; by apply split_colon_app.
Qed.

Lemma active_key_inj (s t : string) : active_key s = active_key t → s = t.
Proof. unfold active_key. apply String.app_inj. Qed.

Lemma active_key_not_lock (s : string) : active_key s ≠ lock_key.
Proof. unfold active_key, lock_key. cbv [String.append]. discriminate. Qed.

End PayloadFacts.

Module CacheFacts.
Import Cache.

Lemma get_delete_eq now k (r : gmap string Entry) : get now k (delete k r) = None.
Proof. unfold get. by rewrite lookup_delete_eq. Qed.

Lemma get_delete_ne now k k' (r : gmap string Entry) :
  k ≠ k' → get now k' (delete k r) = get now k' r.
Proof. intros. unfold get. by rewrite lookup_delete_ne. Qed.


Lemma get_expired now k v t (r : gmap string Entry) :
  r !! k = Some (mkEntry v (Some t)) → t ≤ now → get now k r = None.
Proof.
  unfold get, live. intros -> Hle. simpl.
  destruct (Z.ltb_spec now t); [lia | done].
Qed.

Lemma get_live now k v t (r : gmap string Entry) :
  r !! k = Some (mkEntry v (Some t)) → now < t → get now k r = Some v.
Proof.
  unfold get, live. intros -> Hlt. simpl.
  destruct (Z.ltb_spec now t); [done | lia].
Qed.

Lemma set_nx_ex_held now k v ttl (r : gmap string Entry) x :
  get now k r = Some x → set_nx_ex now k v ttl r = (false, r).
Proof. unfold set_nx_ex. by intros ->. Qed.

Lemma set_nx_ex_free now k v ttl (r : gmap string Entry) :
  get now k r = None →
  set_nx_ex now k v ttl r = (true, <[k := mkEntry v (Some (now + ttl))]> r).
Proof. unfold set_nx_ex. by intros ->. Qed.

End CacheFacts.

(** ** Properties of the handlers *)

Section Properties.
Context {U : Type} `{!UuidCodec U} `{!Env U}.

Ltac unfold_ops :=
  cbv beta delta
    [bind ret http_exception raise log_query scalar_test_set_id
     scalar_user one_user scalar_metric select_samples_in execute_named
     log_average_votes session_headers redis_setex redis_getdel
     redis_set_nx_ex send_task fresh_uuid getitem row_at
     set_db set_auth set_redis] in *.

Ltac crunch := repeat (simplify_eq/=; case_match); simplify_eq/=.

(** *** The header block of [post_comparison] *)

Lemma vote_caller_frame request_obj user_uuid (w w' : World) r :
  vote_caller request_obj user_uuid w = (r, w') →
  db w' = db w ∧ redis w' = redis w ∧ tasks w' = tasks w
  ∧ uuid_calls w' = uuid_calls w.
Proof.
  unfold vote_caller. unfold_ops. intros Hrun.
  crunch; done.
Qed.

Lemma vote_caller_outcome request_obj user_uuid (w w' : World) r :
  vote_caller request_obj user_uuid w = (r, w') →
  (∃ user can_vote ids, r = Returned (user, can_vote, ids))
  ∨ r = Raised NoResultFound ∨ r = Raised MultipleResultsFound.
Proof.
  unfold vote_caller. unfold_ops. intros Hrun.
  crunch; eauto 10.
Qed.

Lemma vote_caller_resolved request_obj user_uuid (w : World) :
  caller_resolves w user_uuid →
  ∃ user can_vote ids, fst (vote_caller request_obj user_uuid w) = Returned (user, can_vote, ids).
Proof.
  unfold caller_resolves, vote_caller. unfold_ops. intros Hres.
  crunch; eauto 10.
Qed.

Lemma vote_caller_run request_obj user_uuid (w : World) :
  caller_resolves w user_uuid →
  ∃ ids w0,
    vote_caller request_obj user_uuid w
    = (Returned (user_of w user_uuid, can_vote_of w user_uuid, ids), w0).
Proof.
  unfold caller_resolves, vote_caller, can_vote_of, user_of. unfold_ops. intros Hres.
  destruct user_uuid as [[|c rest]|].
  - destruct (process_session_headers _ _ _). eauto.
  - destruct (filter _ _) as [|u [|u' l]]; simplify_eq/=.
    destruct (process_session_headers _ _ _). eauto.
  - destruct (process_session_headers _ _ _). eauto.
Qed.

(** *** The body of [post_comparison] *)

Lemma add_ranks_run comparison ranks (w : World) :
  ∃ w', add_ranks comparison ranks w = (Returned tt, w')
    ∧ comparison_ranks (db w') = comparison_ranks (db w) ++ map (rank_row comparison) ranks
    ∧ comparisons (db w') = comparisons (db w)
    ∧ redis w' = redis w ∧ tasks w' = tasks w.
Proof.
  revert w. induction ranks as [|ranked rest IH]; intros w; simpl.
  - exists w. unfold ret. by rewrite app_nil_r.
  - unfold bind, add_comparison_rank.
    destruct (IH
      {| db := {| test_sets := test_sets (db w); users := users (db w);
                  metrics := metrics (db w); samples := samples (db w);
                  comparisons := comparisons (db w);
                  comparison_ranks := comparison_ranks (db w) ++ [rank_row comparison ranked] |};
         auth := auth w; redis := redis w; tasks := tasks w;
         queries := queries w ++ [InsertComparisonRank (rank_row comparison ranked)];
         uuid_calls := uuid_calls w |}) as (w' & Hrun & Hranks & Hcmp & Hredis & Htasks).
    exists w'. rewrite Hrun. simpl in *. by rewrite Hranks, <- app_assoc.
Qed.

Lemma decode_token_nonempty : decode_token "" = None.
Proof. reflexivity. Qed.

Lemma redeem_absent now request caller (w : World) :
  Cache.get now (Payload.active_key (comparison_token request)) (redis w) = None →
  redeem_and_record now request caller w
  = (HTTPException 404 "No active comparisons found",
     set_redis (delete (Payload.active_key (comparison_token request)) (redis w)) w).
Proof.
  intros Habsent. destruct caller as [[user can_vote] [sid itid]].
  unfold redeem_and_record, bind, redis_getdel, Cache.getdel.
  by rewrite Habsent.
Qed.

Lemma redeem_inversion now request user can_vote ids (w w' : World) resp :
  redeem_and_record now request (user, can_vote, ids) w = (Returned resp, w') →
  ∃ metric a b sample_1 sample_2 ranks,
    bound_to now w (comparison_token request) metric a b
    ∧ sample_lookup (pair_samples w a b) a = Some sample_1
    ∧ sample_lookup (pair_samples w a b) b = Some sample_2
    ∧ expand_ranks (pair_samples w a b) 0 (ordered_sample_ids request) = Some ranks
    ∧ (can_vote = true → is_Some (metric_row w metric))
    ∧ resp = {| sample_1_model := sample_model_name sample_1;
                sample_2_model := sample_model_name sample_2 |}.
Proof.
  destruct ids as [sid itid].
  unfold redeem_and_record, bound_to, pair_samples, metric_row, Cache.getdel.
  unfold_ops. intros Hrun. crunch.
  all: eexists _, _, _, _, _, _; split_and!; eauto.
  all: try (intros; simplify_eq).
Qed.

Lemma lock_after_redeem now tok (r : gmap string Cache.Entry) :
  Cache.get now Payload.lock_key (delete (Payload.active_key tok) r)
  = Cache.get now Payload.lock_key r.
Proof. apply CacheFacts.get_delete_ne, PayloadFacts.active_key_not_lock. Qed.

(** What a run of the body does when everything it needs resolves. *)
Lemma redeem_success now request user can_vote ids (w : World)
    metric a b sample_1 sample_2 ranks mrow :
  bound_to now w (comparison_token request) metric a b →
  sample_lookup (pair_samples w a b) a = Some sample_1 →
  sample_lookup (pair_samples w a b) b = Some sample_2 →
  expand_ranks (pair_samples w a b) 0 (ordered_sample_ids request) = Some ranks →
  (can_vote = true → metric_row w metric = Some mrow) →
  ∃ w',
    redeem_and_record now request (user, can_vote, ids) w
    = (Returned {| sample_1_model := sample_model_name sample_1;
                   sample_2_model := sample_model_name sample_2 |}, w')
    ∧ (if can_vote then
         let c := vote_comparison w user mrow sample_1 sample_2 ids in
         comparisons (db w') = comparisons (db w) ++ [c]
         ∧ comparison_ranks (db w') = comparison_ranks (db w) ++ map (rank_row c) ranks
         ∧ match Cache.get now Payload.lock_key (redis w) with
           | Some _ =>
               redis w' = delete (Payload.active_key (comparison_token request)) (redis w)
               ∧ tasks w' = tasks w
           | None =>
               redis w' = <[Payload.lock_key := Cache.mkEntry "1" (Some (now + 300))]>
                            (delete (Payload.active_key (comparison_token request)) (redis w))
               ∧ tasks w' = tasks w ++ ["elo_calculation"]
           end
       else
         db w' = db w ∧ tasks w' = tasks w
         ∧ redis w' = delete (Payload.active_key (comparison_token request)) (redis w)).
Proof.
  intros (data & Hget & Hdecode) Hs1 Hs2 Hranks Hmetric.
  destruct ids as [sid itid].
  assert (data ≠ "") as Hne by (intros ->; simplify_eq).
  unfold redeem_and_record, pair_samples, metric_row in *.
  cbv beta delta [bind redis_getdel Cache.getdel set_redis select_samples_in log_query
                  getitem scalar_metric ret raise http_exception] in *.
  simpl. rewrite Hget. destruct data as [|c0 data]; [done|].
  rewrite Hdecode. simpl. rewrite Hs1, Hs2. simpl. rewrite Hranks.
  destruct can_vote.
  - simpl. rewrite (Hmetric eq_refl). unfold add_comparison. simpl.
    match goal with
    | |- context [add_ranks ?c ranks ?w0] =>
        destruct (add_ranks_run c ranks w0) as (w1 & Hrun & Hrk & Hcmp & Hredis & Htasks);
        rewrite Hrun
    end.
    unfold redis_set_nx_ex, Cache.set_nx_ex. rewrite Hredis. simpl.
    rewrite lock_after_redeem.
    destruct (Cache.get now Payload.lock_key (redis w)) eqn:Hlock; simpl.
    + eexists. split; [reflexivity|]. simpl in *.
      rewrite Hcmp, Hrk, Htasks. done.
    + unfold send_task. simpl. eexists. split; [reflexivity|]. simpl in *.
      rewrite Hcmp, Hrk, Htasks. done.
  - eexists. split; [reflexivity|]. done.
Qed.

(** A failed run of the body writes nothing to the ledger or the queue and
    only deletes the token's key. *)
Lemma redeem_failure_frame now request caller (w w' : World) r :
  redeem_and_record now request caller w = (r, w') →
  (∀ resp, r ≠ Returned resp) →
  db w' = db w ∧ tasks w' = tasks w
  ∧ redis w' = delete (Payload.active_key (comparison_token request)) (redis w).
Proof.
  destruct caller as [[user can_vote] [sid itid]].
  unfold redeem_and_record. unfold_ops. unfold Cache.getdel. simpl. intros Hrun Hfail.
  destruct (Cache.get now _ (redis w)) as [[|c0 data]|] eqn:Hget; simplify_eq/=; try done.
  destruct (decode_token _) as [[[m a] b]|]; simplify_eq/=; try done.
  destruct (sample_lookup _ a); simplify_eq/=; try done.
  destruct (sample_lookup _ b); simplify_eq/=; try done.
  destruct (expand_ranks _ _ _) as [ranks|]; simplify_eq/=; try done.
  destruct can_vote; simplify_eq/=.
  - destruct (head _) as [mrow|]; simplify_eq/=; try done.
    unfold add_comparison in Hrun. simpl in Hrun.
    match type of Hrun with
    | context [add_ranks ?c ranks ?w0] =>
        destruct (add_ranks_run c ranks w0) as (w1 & Hr & _); rewrite Hr in Hrun
    end.
    unfold Cache.set_nx_ex in Hrun. crunch; by edestruct Hfail.
  - by edestruct Hfail.
Qed.

(** A caller without the permission leaves the ledger, the queue and the
    rest of the cache alone, whatever the outcome. *)
Lemma redeem_ineligible_frame now request user ids (w w' : World) r :
  redeem_and_record now request (user, false, ids) w = (r, w') →
  db w' = db w ∧ tasks w' = tasks w
  ∧ redis w' = delete (Payload.active_key (comparison_token request)) (redis w).
Proof.
  destruct ids as [sid itid].
  unfold redeem_and_record, Cache.getdel. unfold_ops. intros Hrun.
  crunch; done.
Qed.

(** Every run of the body is either an eligible vote that was recorded, or
    leaves the store and the queue alone and only deletes the token key. *)
Lemma redeem_cases now request user can_vote ids (w w' : World) r :
  redeem_and_record now request (user, can_vote, ids) w = (r, w') →
  (db w' = db w ∧ tasks w' = tasks w
   ∧ redis w' = delete (Payload.active_key (comparison_token request)) (redis w)
   ∧ (can_vote = true → ∀ resp, r ≠ Returned resp))
  ∨ (can_vote = true
     ∧ ∃ metric a b sample_1 sample_2 ranks mrow,
         bound_to now w (comparison_token request) metric a b
         ∧ sample_lookup (pair_samples w a b) a = Some sample_1
         ∧ sample_lookup (pair_samples w a b) b = Some sample_2
         ∧ expand_ranks (pair_samples w a b) 0 (ordered_sample_ids request) = Some ranks
         ∧ metric_row w metric = Some mrow
         ∧ r = Returned {| sample_1_model := sample_model_name sample_1;
                           sample_2_model := sample_model_name sample_2 |}
         ∧ let c := vote_comparison w user mrow sample_1 sample_2 ids in
           comparisons (db w') = comparisons (db w) ++ [c]
           ∧ comparison_ranks (db w') = comparison_ranks (db w) ++ map (rank_row c) ranks
           ∧ match Cache.get now Payload.lock_key (redis w) with
             | Some _ =>
                 redis w' = delete (Payload.active_key (comparison_token request)) (redis w)
                 ∧ tasks w' = tasks w
             | None =>
                 redis w' = <[Payload.lock_key := Cache.mkEntry "1" (Some (now + 300))]>
                              (delete (Payload.active_key (comparison_token request)) (redis w))
                 ∧ tasks w' = tasks w ++ ["elo_calculation"]
             end).
Proof.
  intros Hrun. destruct can_vote.
  - destruct r as [resp|status detail|e].
    + right. split; [done|].
      destruct (redeem_inversion _ _ _ _ _ _ _ _ Hrun)
        as (metric & a & b & s1 & s2 & ranks & Hb & Hs1 & Hs2 & Hranks & Hm & ->).
      destruct (Hm eq_refl) as [mrow Hmrow].
      destruct (redeem_success now request user true ids w metric a b s1 s2 ranks mrow
                  Hb Hs1 Hs2 Hranks (λ _, Hmrow)) as (w1 & Hrun1 & Heff).
      rewrite Hrun in Hrun1. simplify_eq.
      exists metric, a, b, s1, s2, ranks, mrow. split_and!; try done.
    + left. destruct (redeem_failure_frame _ _ _ _ _ _ Hrun) as (? & ? & ?); done.
    + left. destruct (redeem_failure_frame _ _ _ _ _ _ Hrun) as (? & ? & ?); done.
  - left. destruct (redeem_ineligible_frame _ _ _ _ _ _ _ Hrun) as (? & ? & ?); done.
Qed.

(** *** [post_comparison] as header block followed by body *)

Lemma post_comparison_split now request request_obj user_uuid (w : World) :
  ∃ r0 w0,
    vote_caller request_obj user_uuid w = (r0, w0)
    ∧ db w0 = db w ∧ redis w0 = redis w ∧ tasks w0 = tasks w
    ∧ match r0 with
      | Returned caller =>
          post_comparison now request request_obj user_uuid w
          = redeem_and_record now request caller w0
      | HTTPException _ _ => False
      | Raised e =>
          post_comparison now request request_obj user_uuid w = (Raised e, w0)
          ∧ (e = NoResultFound ∨ e = MultipleResultsFound)
      end.
Proof.
  destruct (vote_caller request_obj user_uuid w) as [r0 w0] eqn:Hcaller.
  exists r0, w0.
  destruct (vote_caller_frame _ _ _ _ _ Hcaller) as (Hdb & Hredis & Htasks & _).
  split_and!; try done.
  unfold post_comparison, bind. rewrite Hcaller.
  destruct (vote_caller_outcome _ _ _ _ _ Hcaller)
    as [(user & can_vote & ids & ->)|[-> | ->]]; auto.
Qed.

(** The only cache writes of the body: the token key is deleted, and the
    lock key may be set. *)
Lemma redeem_redis_shape now request caller (w w' : World) r :
  redeem_and_record now request caller w = (r, w') →
  redis w' = delete (Payload.active_key (comparison_token request)) (redis w)
  ∨ redis w' = <[Payload.lock_key := Cache.mkEntry "1" (Some (now + 300))]>
                 (delete (Payload.active_key (comparison_token request)) (redis w)).
Proof.
  destruct caller as [[user can_vote] [sid itid]].
  unfold redeem_and_record. unfold_ops. unfold Cache.getdel. simpl. intros Hrun.
  destruct (Cache.get now _ (redis w)) as [[|c0 data]|] eqn:Hget; simplify_eq/=; auto.
  destruct (decode_token _) as [[[m a] b]|]; simplify_eq/=; auto.
  destruct (sample_lookup _ a); simplify_eq/=; auto.
  destruct (sample_lookup _ b); simplify_eq/=; auto.
  destruct (expand_ranks _ _ _) as [ranks|]; simplify_eq/=; auto.
  destruct can_vote; simplify_eq/=; auto.
  destruct (head _) as [mrow|]; simplify_eq/=; auto.
  unfold add_comparison in Hrun. simpl in Hrun.
  match type of Hrun with
  | context [add_ranks ?c ranks ?w0] =>
      destruct (add_ranks_run c ranks w0) as (w1 & Hr & _ & _ & Hredis & _);
      rewrite Hr in Hrun
  end.
  unfold Cache.set_nx_ex in Hrun. simpl in Hredis.
  crunch; rewrite Hredis; auto.
Qed.



(** Once the header block has found the caller, the token's key is gone,
    whatever else the request does. *)
Lemma post_comparison_consumes now request request_obj user_uuid (w : World) :
  caller_resolves w user_uuid →
  redis (snd (post_comparison now request request_obj user_uuid w))
    !! Payload.active_key (comparison_token request) = None.
Proof.
  intros Hres.
  destruct (post_comparison_split now request request_obj user_uuid w)
    as (r0 & w0 & Hcaller & Hdb & Hredis & Htasks & Hpost).
  destruct (vote_caller_resolved request_obj _ _ Hres) as (user & can_vote & ids & Hok).
  rewrite Hcaller in Hok. simpl in Hok. subst r0. rewrite Hpost.
  destruct (redeem_and_record now request _ w0) as [r w'] eqn:Hrun.
  destruct (redeem_redis_shape _ _ _ _ _ _ Hrun) as [Hs | Hs]; simpl; rewrite Hs.
  - apply lookup_delete_eq.
  - rewrite lookup_insert_ne by (symmetry; apply PayloadFacts.active_key_not_lock).
    apply lookup_delete_eq.
Qed.

(** Redeeming a dead token: no success, nothing written, and 404 as soon
    as the header block has found the caller. *)
Lemma post_comparison_dead now request request_obj user_uuid (w : World) :
  Cache.get now (Payload.active_key (comparison_token request)) (redis w) = None →
  let '(r, w') := post_comparison now request request_obj user_uuid w in
  (∀ resp, r ≠ Returned resp)
  ∧ ledger w' = ledger w ∧ tasks w' = tasks w
  ∧ (caller_resolves w user_uuid →
     r = HTTPException 404 "No active comparisons found").
Proof.
  intros Hdead.
  destruct (post_comparison_split now request request_obj user_uuid w)
    as (r0 & w0 & Hcaller & Hdb & Hredis & Htasks & Hpost).
  destruct r0 as [caller| |e]; [|done|].
  - rewrite Hpost, redeem_absent by (by rewrite Hredis).
    unfold ledger. simpl. rewrite Hdb, Htasks. done.
  - destruct Hpost as [-> He]. unfold ledger. rewrite Hdb, Htasks.
    split_and!; try done.
    intros Hres.
    destruct (vote_caller_resolved request_obj _ _ Hres) as (user & can_vote & ids & Hok).
    rewrite Hcaller in Hok. done.
Qed.

Lemma post_comparison_resolved now request request_obj user_uuid (w : World) :
  caller_resolves w user_uuid →
  ∃ ids w0,
    db w0 = db w ∧ redis w0 = redis w ∧ tasks w0 = tasks w
    ∧ post_comparison now request request_obj user_uuid w
      = redeem_and_record now request
          (user_of w user_uuid, can_vote_of w user_uuid, ids) w0.
Proof.
  intros Hres.
  destruct (vote_caller_run request_obj _ _ Hres) as (ids & w0 & Hcaller).
  destruct (vote_caller_frame _ _ _ _ _ Hcaller) as (Hdb & Hredis & Htasks & _).
  exists ids, w0. split_and!; try done.
  unfold post_comparison, bind. by rewrite Hcaller.
Qed.


(** What one accepted vote request does, by eligibility of its caller. *)
Lemma vote_effects now request request_obj user_uuid (w : World)
    metric a b sample_1 sample_2 ranks mrow :
  bound_to now w (comparison_token request) metric a b →
  sample_lookup (pair_samples w a b) a = Some sample_1 →
  sample_lookup (pair_samples w a b) b = Some sample_2 →
  expand_ranks (pair_samples w a b) 0 (ordered_sample_ids request) = Some ranks →
  metric_row w metric = Some mrow →
  caller_resolves w user_uuid →
  ∃ w' ids,
    post_comparison now request request_obj user_uuid w
    = (Returned {| sample_1_model := sample_model_name sample_1;
                   sample_2_model := sample_model_name sample_2 |}, w')
    ∧ (if can_vote_of w user_uuid then
         let c := vote_comparison w (user_of w user_uuid) mrow sample_1 sample_2 ids in
         comparisons (db w') = comparisons (db w) ++ [c]
         ∧ comparison_ranks (db w') = comparison_ranks (db w) ++ map (rank_row c) ranks
         ∧ match Cache.get now Payload.lock_key (redis w) with
           | Some _ =>
               redis w' = delete (Payload.active_key (comparison_token request)) (redis w)
               ∧ tasks w' = tasks w
           | None =>
               redis w' = <[Payload.lock_key := Cache.mkEntry "1" (Some (now + 300))]>
                            (delete (Payload.active_key (comparison_token request)) (redis w))
               ∧ tasks w' = tasks w ++ ["elo_calculation"]
           end
       else
         db w' = db w ∧ tasks w' = tasks w
         ∧ redis w' = delete (Payload.active_key (comparison_token request)) (redis w)).
Proof.
  intros Hb Hs1 Hs2 Hranks Hm Hres.
  destruct (post_comparison_resolved now request request_obj _ _ Hres)
    as (ids & w0 & Hdb & Hredis & Htasks & Hpost).
  destruct (redeem_success now request (user_of w user_uuid) (can_vote_of w user_uuid)
              ids w0 metric a b sample_1 sample_2 ranks mrow) as (w' & Hrun & Heff).
  - unfold bound_to in *. by rewrite Hredis.
  - unfold pair_samples in *. by rewrite Hdb.
  - unfold pair_samples in *. by rewrite Hdb.
  - unfold pair_samples in *. by rewrite Hdb.
  - intros _. unfold metric_row in *. by rewrite Hdb.
  - exists w', ids. rewrite Hpost. split; [done|].
    unfold vote_comparison in *. rewrite Hdb, Hredis, Htasks in Heff. done.
Qed.


(** *** Single-use tokens *)



(** *** The eligibility gate *)

(** C4 (as amended). For a vote request whose token is active and whose
    two samples, ranking and metric all resolve: the response is the same
    200 body with both samples' model names for every caller the header
    block finds, whatever the caller's eligibility; an eligible caller (an
    anonymous one is always eligible) adds exactly one Comparison row and
    one ComparisonRank row per expanded rank; a caller without the voting
    scope leaves the ledger unchanged. *)
Theorem vote_response_ignores_eligibility now request (h1 h2 : Headers)
    (c1 c2 : option string) (w : World) metric a b sample_1 sample_2 ranks mrow :
  bound_to now w (comparison_token request) metric a b →
  sample_lookup (pair_samples w a b) a = Some sample_1 →
  sample_lookup (pair_samples w a b) b = Some sample_2 →
  expand_ranks (pair_samples w a b) 0 (ordered_sample_ids request) = Some ranks →
  metric_row w metric = Some mrow →
  caller_resolves w c1 →
  caller_resolves w c2 →
  let resp := {| sample_1_model := sample_model_name sample_1;
                 sample_2_model := sample_model_name sample_2 |} in
  let run1 := post_comparison now request h1 c1 w in
  let run2 := post_comparison now request h2 c2 w in
  fst run1 = fst run2
  ∧ fst run1 = Returned resp
  ∧ http_status (fst run1) = 200
  ∧ can_vote_of w None = true
  ∧ (can_vote_of w c1 = true →
     ∃ c, comparisons (db (snd run1)) = comparisons (db w) ++ [c]
          ∧ comparison_user_id c = user_id <$> user_of w c1
          ∧ comparison_ranks (db (snd run1))
            = comparison_ranks (db w) ++ map (rank_row c) ranks)
  ∧ (can_vote_of w c1 = false → ledger (snd run1) = ledger w).
Proof.
  intros Hb Hs1 Hs2 Hranks Hm Hres1 Hres2 resp run1 run2.
  destruct (vote_effects now request h1 c1 w _ _ _ _ _ _ _ Hb Hs1 Hs2 Hranks Hm Hres1)
    as (w1 & ids1 & Hrun1 & Heff1).
  destruct (vote_effects now request h2 c2 w _ _ _ _ _ _ _ Hb Hs1 Hs2 Hranks Hm Hres2)
    as (w2 & ids2 & Hrun2 & _).
  subst run1 run2. rewrite Hrun1, Hrun2. simpl.
  split_and!; try done.
  - intros Hyes. rewrite Hyes in Heff1. destruct Heff1 as (Hc & Hr & _). eauto.
  - intros Hno. rewrite Hno in Heff1. destruct Heff1 as (Hdb & _).
    unfold ledger. by rewrite Hdb.
Qed.

(** *** Samples that do not resolve *)

Lemma sample_lookup_absent (l : list (Sample U)) (x : U) :
  Forall (λ s, comparison_sample_id s ≠ x) l → sample_lookup l x = None.
Proof.
  unfold sample_lookup. intros Hall.
  assert (filter (λ s : Sample U, comparison_sample_id s = x) l = []) as ->; [|done].
  induction Hall as [|s l Hs _ IH]; [done|].
  rewrite filter_cons. by destruct (decide _).
Qed.

Lemma pair_samples_absent (w : World) (a b x : U) :
  Forall (λ s, comparison_sample_id s ≠ x) (samples (db w)) →
  sample_lookup (pair_samples w a b) x = None.
Proof.
  intros Hall. apply sample_lookup_absent. unfold pair_samples.
  induction Hall as [|s l Hs _ IH]; [constructor|].
  rewrite filter_cons. destruct (decide _); [constructor|]; done.
Qed.

Lemma redeem_missing_sample now request caller (w : World) metric a b :
  bound_to now w (comparison_token request) metric a b →
  sample_lookup (pair_samples w a b) a = None
  ∨ sample_lookup (pair_samples w a b) b = None →
  fst (redeem_and_record now request caller w) = Raised KeyError.
Proof.
  intros (data & Hget & Hdecode) Hmissing.
  destruct caller as [[user can_vote] [sid itid]].
  assert (data ≠ "") as Hne by (intros ->; simplify_eq).
  unfold redeem_and_record, pair_samples in *.
  cbv beta delta [bind redis_getdel Cache.getdel set_redis select_samples_in log_query
                  getitem ret raise] in *.
  simpl. rewrite Hget. destruct data as [|c0 data]; [done|].
  rewrite Hdecode. simpl.
  destruct Hmissing as [Ha | Hb].
  - by rewrite Ha.
  - rewrite Hb. by destruct (sample_lookup _ a).
Qed.

(** C6 (as amended). When the redeemed token names a sample that has no
    row in the store, the request fails with an unhandled [KeyError], which
    the framework answers with status 500; this is not the 404 "No active
    comparisons found" of a missing token.  The token is consumed and
    nothing is written to the ledger or the queue. *)
Theorem missing_sample_is_unhandled now request request_obj user_uuid (w : World)
    metric a b :
  bound_to now w (comparison_token request) metric a b →
  caller_resolves w user_uuid →
  Forall (λ s, comparison_sample_id s ≠ a) (samples (db w))
  ∨ Forall (λ s, comparison_sample_id s ≠ b) (samples (db w)) →
  let run := post_comparison now request request_obj user_uuid w in
  fst run = Raised KeyError
  ∧ http_status (fst run) = 500
  ∧ fst run ≠ HTTPException 404 "No active comparisons found"
  ∧ ledger (snd run) = ledger w
  ∧ tasks (snd run) = tasks w
  ∧ redis (snd run) !! Payload.active_key (comparison_token request) = None.
Proof.
  intros Hb Hres Hmissing run.
  pose proof (post_comparison_consumes now request request_obj _ _ Hres) as Hgone.
  destruct (post_comparison_resolved now request request_obj _ _ Hres)
    as (ids & w0 & Hdb & Hredis & Htasks & Hpost).
  assert (fst run = Raised KeyError) as Hkey.
  { subst run. rewrite Hpost.
    apply (redeem_missing_sample _ _ _ _ metric a b).
    - unfold bound_to in *. by rewrite Hredis.
    - destruct Hmissing as [Ha | Hb'];
        [left | right]; apply pair_samples_absent; by rewrite Hdb. }
  assert (db (snd run) = db w ∧ tasks (snd run) = tasks w) as [Hdb' Htasks'].
  { subst run. rewrite Hpost in *.
    destruct (redeem_and_record _ _ _ w0) as [r w1] eqn:Hrun.
    simpl in Hkey. simpl. subst r.
    destruct (redeem_failure_frame _ _ _ _ _ _ Hrun) as (-> & -> & _); [done|].
    by rewrite Hdb, Htasks. }
  rewrite Hkey. split_and!; try done.
  unfold ledger. by rewrite Hdb'.
Qed.

(** *** Ranking expansion *)

Lemma sample_lookup_Some (l : list (Sample U)) (x : U) (s : Sample U) :
  sample_lookup l x = Some s → comparison_sample_id s = x ∧ s ∈ l.
Proof.
  unfold sample_lookup. intros Hlast.
  apply last_Some_elem_of in Hlast.
  apply list_elem_of_filter in Hlast. done.
Qed.

Lemma rank_item_positions samples rank item here :
  rank_item samples rank item = Some here →
  map ranked_id here = (λ id, (rank, id)) <$> members item
  ∧ Forall (λ ranked, snd ranked ∈ samples) here.
Proof.
  destruct item as [id | group]; simpl.
  - destruct (sample_lookup samples id) as [s|] eqn:Hs; intros; simplify_eq/=.
    apply sample_lookup_Some in Hs as [<- Hin]. split; [done|]. by constructor.
  - intros Hall. apply mapM_Some in Hall.
    induction Hall as [|id ranked group here Hhead _ IH]; [by split|].
    destruct (sample_lookup samples id) as [s|] eqn:Hs; simplify_eq/=.
    apply sample_lookup_Some in Hs as [<- Hin].
    destruct IH as [-> Hrest]. split; [done|]. by constructor.
Qed.

Lemma expand_ranks_positions samples (k : nat) items ranks :
  expand_ranks samples (Z.of_nat k) items = Some ranks →
  map ranked_id ranks
  = concat (imap (λ i item, (λ id, (Z.of_nat (k + i) + 1, id)) <$> members item) items)
  ∧ Forall (λ ranked, snd ranked ∈ samples) ranks.
Proof.
  revert k ranks. induction items as [|item rest IH]; intros k ranks; simpl.
  - intros; simplify_eq. done.
  - destruct (rank_item samples (Z.of_nat k + 1) item) as [here|] eqn:Hhere; [|done].
    replace (Z.of_nat k + 1) with (Z.of_nat (S k)) by lia.
    destruct (expand_ranks samples (Z.of_nat (S k)) rest) as [later|] eqn:Hlater; [|done].
    intros; simplify_eq.
    apply rank_item_positions in Hhere as [Hhere Hin1].
    apply IH in Hlater as [Hlater Hin2].
    rewrite map_app, Hhere, Hlater. split.
    + f_equal.
      * replace (k + 0)%nat with k by lia. done.
      * f_equal. apply imap_ext. intros i x _. simpl.
        by replace (S (k + i))%nat with (k + S i)%nat by lia.
    + by apply Forall_app.
Qed.

Lemma vote_caller_returned request_obj user_uuid (w w0 : World) caller :
  vote_caller request_obj user_uuid w = (Returned caller, w0) →
  caller_resolves w user_uuid.
Proof.
  unfold vote_caller, caller_resolves. unfold_ops. intros Hrun.
  crunch; done.
Qed.

Lemma post_comparison_returned now request request_obj user_uuid (w w' : World) resp :
  post_comparison now request request_obj user_uuid w = (Returned resp, w') →
  caller_resolves w user_uuid.
Proof.
  intros Hrun.
  destruct (post_comparison_split now request request_obj user_uuid w)
    as (r0 & w0 & Hcaller & _ & _ & _ & Hpost).
  destruct r0 as [caller| |e]; [|done|].
  - by eapply vote_caller_returned.
  - destruct Hpost as [Hpost _]. rewrite Hpost in Hrun. simplify_eq.
Qed.

(** C3. For every accepted vote request the ranking is expanded by
    position: the ranked samples, with their ranks, are exactly the ids of
    [ordered_sample_ids] numbered by their 1-based position, the members of
    a tie-group all taking the position of the group.  So [[a, b]] gives a
    rank 1 and b rank 2, and [[[a, b]]] gives both rank 1.  When the gate is
    open one Comparison row is persisted and, for it, one ComparisonRank row
    per (rank, sample) pair of the expansion, in order: the row of a
    position carries that position's rank, the id of the new Comparison and
    the row id of a stored sample whose comparison id is the one ranked
    there.  When the gate is closed no row is persisted. *)
Theorem ranking_expansion now request request_obj user_uuid (w w' : World) resp :
  post_comparison now request request_obj user_uuid w = (Returned resp, w') →
  (∃ a b ranks,
     expand_ranks (pair_samples w a b) 0 (ordered_sample_ids request) = Some ranks
     ∧ map ranked_id ranks = rank_positions (ordered_sample_ids request)
     ∧ Forall (λ ranked, snd ranked ∈ samples (db w)) ranks
     ∧ if can_vote_of w user_uuid then
         ∃ comparison,
           comparisons (db w') = comparisons (db w) ++ [comparison]
           ∧ comparison_ranks (db w')
             = comparison_ranks (db w) ++ map (rank_row comparison) ranks
           ∧ map rank (map (rank_row comparison) ranks)
             = map fst (rank_positions (ordered_sample_ids request))
           ∧ Forall (λ row, rank_comparison_id row = comparison_id comparison)
               (map (rank_row comparison) ranks)
           ∧ ∃ rows,
               comparison_ranks (db w') = comparison_ranks (db w) ++ rows
               ∧ Forall2 (λ row position,
                            rank row = fst position
                            ∧ rank_comparison_id row = comparison_id comparison
                            ∧ ∃ s, s ∈ samples (db w)
                                   ∧ comparison_sample_id s = snd position
                                   ∧ rank_sample_id row = sample_id s)
                   rows (rank_positions (ordered_sample_ids request))
       else ledger w' = ledger w)
  ∧ (∀ a b : U, rank_positions [One a; One b] = [(1, a); (2, b)])
  ∧ (∀ a b : U, rank_positions [Tie [a; b]] = [(1, a); (1, b)]).
Proof.
  intros Hrun. split; [|done].
  pose proof (post_comparison_returned _ _ _ _ _ _ _ Hrun) as Hres.
  destruct (post_comparison_resolved now request request_obj _ _ Hres)
    as (ids & w0 & Hdb & Hredis & Htasks & Hpost).
  rewrite Hpost in Hrun.
  destruct (redeem_inversion _ _ _ _ _ _ _ _ Hrun)
    as (metric & a & b & s1 & s2 & ranks & Hb & Hs1 & Hs2 & Hranks & Hm & _).
  assert (pair_samples w0 a b = pair_samples w a b) as Hpair
    by (unfold pair_samples; by rewrite Hdb).
  pose proof Hranks as Hexp.
  apply (expand_ranks_positions _ 0) in Hexp as [Hpos Hin].
  change (map ranked_id ranks = rank_positions (ordered_sample_ids request)) in Hpos.
  exists a, b, ranks. rewrite <- Hpair. split_and!; try done.
  - eapply Forall_impl; [exact Hin|]. intros ranked. simpl.
    unfold pair_samples. rewrite Hdb. intros Hel.
    by apply list_elem_of_filter in Hel as [_ ?].
  - destruct (can_vote_of w user_uuid).
    + destruct (Hm eq_refl) as [mrow Hmrow].
      destruct (redeem_success now request (user_of w user_uuid) true ids w0
                  metric a b s1 s2 ranks mrow Hb Hs1 Hs2 Hranks (λ _, Hmrow))
        as (w1 & Hrun1 & Hc & Hr & _).
      rewrite Hrun in Hrun1. simplify_eq.
      eexists. rewrite Hc, Hr, Hdb. split_and!; try done.
      * rewrite <- Hpos, !map_map. by apply map_ext.
      * apply Forall_forall. intros row Hrow.
        apply list_elem_of_fmap in Hrow as (ranked & -> & _). done.
      * eexists. split; [done|]. rewrite <- Hpos.
        apply Forall2_fmap, Forall_Forall2_diag.
        eapply Forall_impl; [exact Hin|]. intros ranked Hel. simpl in Hel.
        unfold pair_samples in Hel. rewrite Hdb in Hel.
        apply list_elem_of_filter in Hel as [_ Hel].
        split_and!; [done | done |]. exists (snd ranked). done.
    + destruct (redeem_ineligible_frame _ _ _ _ _ _ _ Hrun) as (Hdb' & _).
      unfold ledger. by rewrite Hdb', Hdb.
Qed.


(** *** The recompute trigger *)

(** A vote request either writes no ledger row, enqueues nothing and at
    most deletes its token key, or it is answered normally, has appended one
    Comparison row and has tried the lock. *)
Lemma post_comparison_cases now request request_obj user_uuid (w : World) :
  let run := post_comparison now request request_obj user_uuid w in
  (db (snd run) = db w ∧ tasks (snd run) = tasks w
   ∧ (redis (snd run) = redis w
      ∨ redis (snd run)
        = delete (Payload.active_key (comparison_token request)) (redis w)))
  ∨ (∃ resp c,
       fst run = Returned resp
       ∧ comparisons (db (snd run)) = comparisons (db w) ++ [c]
       ∧ match Cache.get now Payload.lock_key (redis w) with
         | Some _ =>
             redis (snd run)
             = delete (Payload.active_key (comparison_token request)) (redis w)
             ∧ tasks (snd run) = tasks w
         | None =>
             redis (snd run)
             = <[Payload.lock_key := Cache.mkEntry "1" (Some (now + 300))]>
                 (delete (Payload.active_key (comparison_token request)) (redis w))
             ∧ tasks (snd run) = tasks w ++ ["elo_calculation"]
         end).
Proof.
  intros run. subst run.
  destruct (post_comparison_split now request request_obj user_uuid w)
    as (r0 & w0 & Hcaller & Hdb & Hredis & Htasks & Hpost).
  destruct r0 as [[[user can_vote] ids]| |e]; [|done|].
  - rewrite Hpost.
    destruct (redeem_and_record now request (user, can_vote, ids) w0) as [r w'] eqn:Hrun.
    simpl.
    destruct (redeem_cases _ _ _ _ _ _ _ _ Hrun)
      as [(-> & -> & -> & _) | (_ & metric & a & b & s1 & s2 & ranks & mrow
           & _ & _ & _ & _ & _ & -> & Hc & _ & Hlock)].
    + left. rewrite Hdb, Htasks, Hredis. auto.
    + right. eexists _, _. split; [done|].
      rewrite Hc, Hdb. split; [done|].
      rewrite Hredis, Htasks in Hlock. done.
  - destruct Hpost as [-> _]. simpl. left. auto.
Qed.

Lemma post_comparison_lock_held now request request_obj user_uuid (w : World) x :
  Cache.get now Payload.lock_key (redis w) = Some x →
  tasks (snd (post_comparison now request request_obj user_uuid w)) = tasks w
  ∧ redis (snd (post_comparison now request request_obj user_uuid w)) !! Payload.lock_key
    = redis w !! Payload.lock_key.
Proof.
  intros Hheld.
  destruct (post_comparison_cases now request request_obj user_uuid w)
    as [(_ & Htasks & [Hredis | Hredis]) | (resp & c & _ & _ & Hlock)].
  - by rewrite Htasks, Hredis.
  - rewrite Htasks, Hredis. split; [done|].
    apply lookup_delete_ne, PayloadFacts.active_key_not_lock.
  - rewrite Hheld in Hlock. destruct Hlock as [Hredis Htasks].
    rewrite Htasks, Hredis. split; [done|].
    apply lookup_delete_ne, PayloadFacts.active_key_not_lock.
Qed.

Lemma run_votes_lock_held (vs : list Vote) (w : World) value deadline :
  redis w !! Payload.lock_key = Some (Cache.mkEntry value (Some deadline)) →
  (∀ v, v ∈ vs → vote_now v < deadline) →
  tasks (run_votes vs w) = tasks w.
Proof.
  revert w. induction vs as [|v vs IH]; intros w Hlock Htimes; simpl; [done|].
  assert (vote_now v < deadline) as Hv by (apply Htimes; left).
  destruct (post_comparison_lock_held (vote_now v) (vote_request v) (vote_headers v)
              (vote_caller_id v) w value) as [Htasks Hkeep].
  { by eapply CacheFacts.get_live. }
  unfold run_vote. rewrite IH.
  - done.
  - by rewrite Hkeep.
  - intros v' Hv'. apply Htimes. by right.
Qed.

(** C5. A vote request that wrote a ledger row tries the fixed lock key
    once, with a 300 second expiry.  When the lock was free it is taken and
    exactly one "elo_calculation" task is enqueued; when it was held nothing
    is enqueued and the request is still answered normally.  So a first
    recorded vote that takes the lock, followed by any number of vote
    requests within the next 300 seconds, enqueues exactly one task in
    total. *)
Theorem recompute_debounced (first : Vote) (rest : list Vote) (w : World) :
  Cache.get (vote_now first) Payload.lock_key (redis w) = None →
  comparisons (db (snd (run_vote first w))) ≠ comparisons (db w) →
  (∀ v, v ∈ rest → vote_now first ≤ vote_now v < vote_now first + 300) →
  (tasks (snd (run_vote first w)) = tasks w ++ ["elo_calculation"]
   ∧ redis (snd (run_vote first w)) !! Payload.lock_key
     = Some (Cache.mkEntry "1" (Some (vote_now first + 300)))
   ∧ tasks (run_votes (first :: rest) w) = tasks w ++ ["elo_calculation"])
  ∧ (∀ (v0 : Vote) (w0 : World) x,
       Cache.get (vote_now v0) Payload.lock_key (redis w0) = Some x →
       tasks (snd (run_vote v0 w0)) = tasks w0
       ∧ (comparisons (db (snd (run_vote v0 w0))) ≠ comparisons (db w0) →
          http_status (fst (run_vote v0 w0)) = 200)).
Proof.
  intros Hfree Hwrote Hwindow. split.
  - unfold run_vote in *.
    destruct (post_comparison_cases (vote_now first) (vote_request first)
                (vote_headers first) (vote_caller_id first) w)
      as [(Hdb & _) | (resp & c & _ & _ & Hlock)].
    { by rewrite Hdb in Hwrote. }
    rewrite Hfree in Hlock. destruct Hlock as [Hredis Htasks].
    assert (redis (snd (post_comparison (vote_now first) (vote_request first)
                          (vote_headers first) (vote_caller_id first) w))
              !! Payload.lock_key
            = Some (Cache.mkEntry "1" (Some (vote_now first + 300)))) as Hlock.
    { rewrite Hredis. apply lookup_insert_eq. }
    split_and!; try done.
    simpl. unfold run_vote.
    rewrite (run_votes_lock_held rest _ _ _ Hlock); [done|].
    intros v Hv. apply Hwindow in Hv. lia.
  - intros v0 w0 x Hheld. unfold run_vote.
    destruct (post_comparison_lock_held (vote_now v0) (vote_request v0) (vote_headers v0)
                (vote_caller_id v0) w0 x Hheld) as [Htasks _].
    split; [done|]. intros Hwrote0.
    destruct (post_comparison_cases (vote_now v0) (vote_request v0)
                (vote_headers v0) (vote_caller_id v0) w0)
      as [(Hdb & _) | (resp & c & Hresp & _)].
    + by rewrite Hdb in Hwrote0.
    + by rewrite Hresp.
Qed.

(** *** The header block of [get_comparison_batch] *)

Lemma batch_test_set_missing request_obj user_id (w : World) :
  named_test_set w (default_test_set_name user_id) = None →
  ∃ w0,
    batch_test_set request_obj user_id w
    = (HTTPException 500 (default_test_set_missing user_id), w0)
    ∧ queries w0 = queries w ++ [SelectTestSetIdByName (default_test_set_name user_id)]
    ∧ db w0 = db w ∧ redis w0 = redis w ∧ tasks w0 = tasks w
    ∧ uuid_calls w0 = uuid_calls w.
Proof.
  unfold named_test_set, batch_test_set. unfold_ops. intros Hnone.
  destruct user_id as [uid|]; simpl in *; rewrite Hnone; eauto 10.
Qed.

Lemma batch_user_missing request_obj uid (w : World) ts :
  named_test_set w "Authenticated Test Set" = Some ts →
  known_user w uid = None →
  ∃ w0,
    batch_test_set request_obj (Some uid) w
    = (HTTPException 404 "Authenticated user not found", w0)
    ∧ queries w0 = queries w ++ header_queries (Some uid)
    ∧ db w0 = db w ∧ redis w0 = redis w ∧ tasks w0 = tasks w
    ∧ uuid_calls w0 = uuid_calls w.
Proof.
  unfold named_test_set, known_user, batch_test_set. unfold_ops. intros Hts Huser.
  simpl in *. rewrite Hts. simpl. rewrite Huser. simpl.
  eexists. split; [done|]. simpl. rewrite <- app_assoc. done.
Qed.

Lemma batch_test_set_found request_obj user_id (w : World) ts :
  named_test_set w (default_test_set_name user_id) = Some ts →
  batch_caller_found w user_id →
  ∃ w0,
    batch_test_set request_obj user_id w = (Returned ts, w0)
    ∧ queries w0 = queries w ++ header_queries user_id
    ∧ db w0 = db w ∧ redis w0 = redis w ∧ tasks w0 = tasks w
    ∧ uuid_calls w0 = uuid_calls w.
Proof.
  unfold named_test_set, known_user, batch_caller_found, batch_test_set.
  unfold_ops. intros Hts Huser.
  destruct user_id as [uid|]; simpl in *; rewrite Hts; simpl.
  - destruct Huser as [u Hu]. unfold known_user in Hu. rewrite Hu. simpl.
    destruct (process_session_headers _ _ _).
    eexists. split; [done|]. simpl. rewrite <- app_assoc. done.
  - destruct (process_session_headers _ _ _).
    eexists. split; [done|]. done.
Qed.

(** When the header block passes it has processed the session headers
    once, for the user row it found. *)
Lemma batch_test_set_session request_obj user_id (w : World) ts :
  named_test_set w (default_test_set_name user_id) = Some ts →
  batch_caller_found w user_id →
  auth (snd (batch_test_set request_obj user_id w))
  = fst (process_session_headers request_obj (batch_user w user_id) (auth w)).
Proof.
  unfold named_test_set, batch_caller_found, batch_user, known_user, batch_test_set.
  unfold_ops. intros Hts Huser.
  destruct user_id as [uid|]; simpl in *; rewrite Hts; simpl.
  - destruct Huser as [u Hu]. rewrite Hu. simpl.
    by destruct (process_session_headers _ _ _).
  - by destruct (process_session_headers _ _ _).
Qed.

(** C2 (as amended). A batch request with [batch_size > 10] whose header
    block passes is rejected with 406 after the header block, that is
    after the test-set lookup by fixed name, the user lookup of an
    authenticated caller and the processing of the session headers, and
    before anything else: the only statements sent are the two lookups, the
    session state is the one [process_session_headers] left, and there is
    no metric lookup, no pairing plan, no token, and no change to the
    tables, the cache or the task queue. *)
Theorem oversized_batch_rejected now request request_obj user_id (w : World) ts :
  batch_size request > MAX_BATCH_SIZE →
  named_test_set w (default_test_set_name user_id) = Some ts →
  batch_caller_found w user_id →
  let run := get_comparison_batch now request request_obj user_id w in
  fst run = HTTPException 406 "Invalid batch size"
  ∧ queries (snd run) = queries w ++ header_queries user_id
  ∧ auth (snd run)
    = fst (process_session_headers request_obj (batch_user w user_id) (auth w))
  ∧ db (snd run) = db w
  ∧ redis (snd run) = redis w
  ∧ tasks (snd run) = tasks w
  ∧ uuid_calls (snd run) = uuid_calls w.
Proof.
  intros Hbig Hts Hfound run. subst run.
  pose proof (batch_test_set_session request_obj user_id w ts Hts Hfound) as Hauth.
  destruct (batch_test_set_found request_obj user_id w ts Hts Hfound)
    as (w0 & Hhead & Hq & Hdb & Hredis & Htasks & Huuid).
  unfold get_comparison_batch, bind. rewrite Hhead in *.
  destruct (Z.gtb_spec (batch_size request) MAX_BATCH_SIZE); [|lia].
  done.
Qed.

(** *** The pairing loop *)

Lemma uuid_str_inj (a b : U) : uuid_str a = uuid_str b → a = b.
Proof.
  intros Heq. pose proof (uuid_parse_str a) as Ha.
  rewrite Heq, uuid_parse_str in Ha. by simplify_eq.
Qed.

Lemma token_key_inj (a b : U) :
  Payload.active_key (uuid_str a) = Payload.active_key (uuid_str b) → a = b.
Proof. intros Heq. by apply uuid_str_inj, PayloadFacts.active_key_inj. Qed.

(** One iteration: a skipped row changes nothing but the query log; a kept
    row draws one UUID and stores its entry with a 3600 second expiry. *)
Lemma batch_row_run now metric ts row (w w' : World) r :
  batch_row now metric ts row w = (r, w') →
  db w' = db w ∧ tasks w' = tasks w
  ∧ (∃ qs, queries w' = queries w ++ qs ∧ Forall (λ q, q = SelectAvgVoteCount ts) qs)
  ∧ match r with
    | Returned (Some t) =>
        uuid_calls w' = S (uuid_calls w)
        ∧ token t = uuid4 (uuid_calls w)
        ∧ token_metric_id t = metric_external_id metric
        ∧ ∃ e, token_entry now t = Some e
               ∧ Cache.expires_at e = Some (now + 3600)
               ∧ redis w' = <[Payload.active_key (uuid_str (token t)) := e]> (redis w)
    | _ => uuid_calls w' = uuid_calls w ∧ redis w' = redis w
    end.
Proof.
  unfold batch_row. unfold_ops. unfold Cache.setex. intros Hrun.
  crunch; split_and!; try done.
  all: try (exists []; by rewrite app_nil_r).
  all: try (eexists [_]; split; [done|]; by repeat constructor).
  all: eexists; split_and!; done.
Qed.

Lemma batch_loop_frame now metric ts rows acc (w w' : World) r :
  batch_loop now metric ts rows acc w = (r, w') →
  db w' = db w ∧ tasks w' = tasks w
  ∧ (uuid_calls w ≤ uuid_calls w')%nat
  ∧ ∃ qs, queries w' = queries w ++ qs ∧ Forall (λ q, q = SelectAvgVoteCount ts) qs.
Proof.
  revert acc w. induction rows as [|row rest IH]; intros acc w; simpl.
  - unfold ret. intros; simplify_eq. split_and!; try done.
    exists []. by rewrite app_nil_r.
  - unfold bind at 1.
    destruct (batch_row now metric ts row w) as [r1 w1] eqn:Hrow.
    destruct (batch_row_run _ _ _ _ _ _ _ Hrow) as (Hdb & Htasks & (qs1 & Hq1 & Hall1) & Hcase).
    assert (uuid_calls w ≤ uuid_calls w1)%nat as Hmono.
    { destruct r1 as [[t|]| |]; destruct Hcase as (Hc & _); lia. }
    destruct r1 as [o| |]; intros Hrun; simplify_eq/=.
    + apply IH in Hrun as (Hdb2 & Htasks2 & Hmono2 & qs2 & Hq2 & Hall2).
      rewrite Hdb2, Htasks2, Hq2, Hq1, <- app_assoc.
      split_and!; try done; [lia|].
      exists (qs1 ++ qs2). split; [done|]. by apply Forall_app.
    + split_and!; eauto.
    + split_and!; eauto.
Qed.

(** The loop invariant for minted tokens: the accumulated pairs carry the
    UUIDs drawn so far, in order, and each is stored under its key. *)
Lemma batch_loop_tokens now metric ts rows acc (w w' : World) toks (c0 : nat) :
  batch_loop now metric ts rows acc w = (Returned toks, w') →
  (∀ i j, (c0 ≤ i)%nat → (i < j)%nat → (j < uuid_calls w')%nat → uuid4 i ≠ uuid4 j) →
  uuid_calls w = (c0 + length acc)%nat →
  map token acc = map uuid4 (seq c0 (length acc)) →
  Forall (λ t, token_metric_id t = metric_external_id metric
               ∧ is_Some (token_entry now t)
               ∧ redis w !! Payload.active_key (uuid_str (token t)) = token_entry now t) acc →
  uuid_calls w' = (c0 + length toks)%nat
  ∧ map token toks = map uuid4 (seq c0 (length toks))
  ∧ Forall (λ t, token_metric_id t = metric_external_id metric
                 ∧ is_Some (token_entry now t)
                 ∧ redis w' !! Payload.active_key (uuid_str (token t)) = token_entry now t) toks.
Proof.
  revert acc w. induction rows as [|row rest IH]; intros acc w; simpl.
  - unfold ret. intros; simplify_eq. done.
  - unfold bind at 1.
    destruct (batch_row now metric ts row w) as [r1 w1] eqn:Hrow.
    destruct (batch_row_run _ _ _ _ _ _ _ Hrow) as (_ & _ & _ & Hcase).
    destruct r1 as [[t|]| |]; intros Hrun Hfresh Hcount Htoks Hstored; simplify_eq/=.
    + destruct Hcase as (Hc & Htok & Hmetric & e & He & _ & Hredis).
      pose proof (batch_loop_frame _ _ _ _ _ _ _ _ Hrun) as (_ & _ & Hmono & _).
      apply IH in Hrun; try done.
      * rewrite Hc, Hcount, length_app. simpl. lia.
      * rewrite length_app, map_app. simpl.
        rewrite seq_app, map_app, Htoks. simpl. by rewrite Htok, Hcount.
      * apply Forall_app. split.
        -- apply Forall_forall. intros t0 Hin.
           pose proof (proj1 (Forall_forall _ _) Hstored t0 Hin) as (Hm0 & Hsome0 & Hlook0).
           split_and!; try done.
           rewrite Hredis, lookup_insert_ne; [done|].
           intros Hkey. apply token_key_inj in Hkey.
           assert (token t0 ∈ map uuid4 (seq c0 (length acc))) as Hmem.
           { rewrite <- Htoks. apply list_elem_of_fmap. eauto. }
           apply list_elem_of_fmap in Hmem as (i & Hi & Hseq).
           apply elem_of_seq in Hseq.
           apply (Hfresh i (uuid_calls w)); [lia | lia | lia |].
           by rewrite <- Hi, <- Htok.
        -- constructor; [|constructor]. split_and!; try done.
           rewrite Hredis, lookup_insert_eq. done.
    + destruct Hcase as (Hc & Hredis).
      apply IH in Hrun; try done.
      * by rewrite Hc.
      * by rewrite Hredis.
Qed.

(** *** [get_comparison_batch] as header block, checks, plan and loop *)

Lemma batch_test_set_frame request_obj user_id (w w0 : World) r :
  batch_test_set request_obj user_id w = (r, w0) →
  db w0 = db w ∧ redis w0 = redis w ∧ tasks w0 = tasks w
  ∧ uuid_calls w0 = uuid_calls w.
Proof.
  unfold batch_test_set. unfold_ops. intros Hrun. crunch; done.
Qed.

Lemma batch_test_set_returned request_obj user_id (w w0 : World) ts :
  batch_test_set request_obj user_id w = (Returned ts, w0) →
  named_test_set w (default_test_set_name user_id) = Some ts
  ∧ queries w0 = queries w ++ header_queries user_id.
Proof.
  unfold batch_test_set, named_test_set. unfold_ops. intros Hrun.
  destruct user_id as [uid|]; simpl in *.
  - destruct (head (filter _ (test_sets (db w)))) as [t|]; simplify_eq/=.
    destruct (head (filter _ (users (db w)))) as [u|]; simplify_eq/=.
    destruct (process_session_headers _ _ _); simplify_eq/=.
    by rewrite <- app_assoc.
  - destruct (head (filter _ (test_sets (db w)))) as [t|]; simplify_eq/=.
    destruct (process_session_headers _ _ _); simplify_eq/=. done.
Qed.

Lemma batch_inversion now request request_obj user_id (w w' : World) toks :
  get_comparison_batch now request request_obj user_id w = (Returned toks, w') →
  ∃ ts w0 metric rows w1,
    batch_test_set request_obj user_id w = (Returned ts, w0)
    ∧ batch_size request ≤ MAX_BATCH_SIZE
    ∧ metric_row w (uuid_str (request_metric_id request)) = Some metric
    ∧ execute_plan batch_query_name ts (batch_size request) (db w) = Some rows
    ∧ batch_loop now metric ts rows [] w1 = (Returned toks, w')
    ∧ db w1 = db w ∧ redis w1 = redis w ∧ tasks w1 = tasks w
    ∧ uuid_calls w1 = uuid_calls w
    ∧ queries w1 = queries w0
                   ++ [SelectMetricByExternalId (uuid_str (request_metric_id request));
                       ExecutePlan batch_query_name ts (batch_size request)].
Proof.
  unfold get_comparison_batch. unfold bind at 1.
  destruct (batch_test_set request_obj user_id w) as [r0 w0] eqn:Hhead.
  destruct (batch_test_set_frame _ _ _ _ _ Hhead) as (Hdb & Hredis & Htasks & Huuid).
  destruct r0 as [ts| |]; [|done..].
  destruct (Z.gtb_spec (batch_size request) MAX_BATCH_SIZE); [done|].
  unfold metric_row. unfold_ops. simpl. rewrite Hdb.
  destruct (head (filter _ (metrics (db w)))) as [metric|]; [|done].
  destruct (execute_plan _ _ _ _) as [rows|] eqn:Hplan; [|done].
  intros Hloop. eexists ts, w0, metric, rows, _.
  split_and!; try done. simpl. by rewrite <- app_assoc.
Qed.

Lemma decode_token_join3 (metric a b : U) :
  decode_token (Payload.join3 (uuid_str metric) (uuid_str a) (uuid_str b))
  = Some (uuid_str metric, a, b).
Proof.
  unfold decode_token.
  destruct (PayloadFacts.split_colon_join3 (uuid_str metric) (uuid_str a) (uuid_str b))
    as [-> ->]; try apply uuid_str_colon_free.
  by rewrite !uuid_parse_str.
Qed.

(** C8. Every pair of a returned batch carries its own UUID as token, and
    when the batch returns the cache holds, under that token's key, the
    payload naming the request's metric and the pair's two sample ids, with
    an expiry exactly 3600 seconds after the request.  Until then the entry
    is what a redemption reads; from then on a redemption of the token gets
    404.  The UUIDs drawn by the request are taken to be pairwise distinct. *)
Theorem batch_tokens_stored now request request_obj user_id (w w' : World) toks :
  get_comparison_batch now request request_obj user_id w = (Returned toks, w') →
  (∀ i j, (uuid_calls w ≤ i)%nat → (i < j)%nat → (j < uuid_calls w')%nat →
          uuid4 i ≠ uuid4 j) →
  map token toks = map uuid4 (seq (uuid_calls w) (length toks))
  ∧ NoDup (map token toks)
  ∧ Forall (λ t,
      token_metric_id t = request_metric_id request
      ∧ ∃ a b, token_samples t = [a; b]
          ∧ redis w' !! Payload.active_key (uuid_str (token t))
            = Some (Cache.mkEntry
                      (Payload.join3 (uuid_str (request_metric_id request)) a b)
                      (Some (now + 3600)))
          ∧ (∀ later, later < now + 3600 →
               Cache.get later (Payload.active_key (uuid_str (token t))) (redis w')
               = Some (Payload.join3 (uuid_str (request_metric_id request)) a b))
          ∧ (∀ later sample_a sample_b, later < now + 3600 →
               a = uuid_str sample_a → b = uuid_str sample_b →
               bound_to later w' (uuid_str (token t))
                 (uuid_str (request_metric_id request)) sample_a sample_b)
          ∧ (∀ later vote_request request_obj' user_uuid,
               now + 3600 ≤ later →
               comparison_token vote_request = uuid_str (token t) →
               caller_resolves w' user_uuid →
               fst (post_comparison later vote_request request_obj' user_uuid w')
               = HTTPException 404 "No active comparisons found")) toks.
Proof.
  intros Hrun Hfresh.
  destruct (batch_inversion _ _ _ _ _ _ _ Hrun)
    as (ts & w0 & metric & rows & w1 & Hhead & Hsize & Hmetric & Hplan & Hloop
        & Hdb1 & Hredis1 & Htasks1 & Huuid1 & Hq1).
  assert (metric_external_id metric = request_metric_id request) as Hmid.
  { unfold metric_row in Hmetric. apply head_Some_elem_of in Hmetric.
    apply list_elem_of_filter in Hmetric as [Heq _]. by apply uuid_str_inj. }
  destruct (batch_loop_tokens now metric ts rows [] w1 w' toks (uuid_calls w) Hloop)
    as (Hcount & Htoks & Hstored).
  { done. }
  { simpl. lia. }
  { done. }
  { constructor. }
  split_and!; [done| |].
  - rewrite Htoks. apply NoDup_fmap_2_strong; [|apply NoDup_seq].
    intros i j Hi Hj Heq. apply elem_of_seq in Hi, Hj.
    destruct (Nat.lt_trichotomy i j) as [Hlt|[Heq'|Hgt]]; [|done|].
    + exfalso. apply (Hfresh i j); [lia | lia | lia | done].
    + exfalso. apply (Hfresh j i); [lia | lia | lia | done].
  - eapply Forall_impl; [exact Hstored|]. intros t (Hm & Hsome & Hlook). simpl in *.
    rewrite <- Hmid. split; [done|].
    unfold token_entry in *. rewrite Hm in *.
    destruct (token_samples t) as [|a [|b [|? ?]]]; try by destruct Hsome.
    exists a, b. split_and!; try done.
    + intros later Hlater. by eapply CacheFacts.get_live.
    + intros later sa sb Hlater -> ->. eexists. split.
      * by eapply CacheFacts.get_live.
      * apply decode_token_join3.
    + intros later vr ro uu Hlater Htok Hres.
      pose proof (post_comparison_dead later vr ro uu w') as Hdead.
      destruct (post_comparison later vr ro uu w') as [r w2]. simpl.
      apply Hdead; [|done]. rewrite Htok.
      by eapply CacheFacts.get_expired.
Qed.

(** *** Failures of the batch operation *)

Lemma batch_after_header now request request_obj user_id (w w0 : World) ts :
  batch_test_set request_obj user_id w = (Returned ts, w0) →
  let run := get_comparison_batch now request request_obj user_id w in
  let metric_q := SelectMetricByExternalId (uuid_str (request_metric_id request)) in
  let plan_q := ExecutePlan batch_query_name ts (batch_size request) in
  if (batch_size request >? MAX_BATCH_SIZE)%Z then
    run = (HTTPException 406 "Invalid batch size", w0)
  else
    match metric_row w (uuid_str (request_metric_id request)) with
    | None =>
        fst run = HTTPException 400 "Invalid metric id"
        ∧ queries (snd run) = queries w0 ++ [metric_q]
        ∧ redis (snd run) = redis w ∧ uuid_calls (snd run) = uuid_calls w
    | Some metric =>
        match execute_plan batch_query_name ts (batch_size request) (db w) with
        | None =>
            fst run = HTTPException 500 plan_failure_detail
            ∧ queries (snd run) = queries w0 ++ [metric_q; plan_q]
            ∧ redis (snd run) = redis w ∧ uuid_calls (snd run) = uuid_calls w
        | Some rows =>
            ∃ qs, queries (snd run) = queries w0 ++ [metric_q; plan_q] ++ qs
                  ∧ Forall (λ q, q = SelectAvgVoteCount ts) qs
        end
    end.
Proof.
  intros Hhead run metric_q plan_q.
  assert (run = get_comparison_batch now request request_obj user_id w) as Hrun by done.
  clearbody run. subst metric_q plan_q.
  destruct (batch_test_set_frame _ _ _ _ _ Hhead) as (Hdb & Hredis & Htasks & Huuid).
  unfold get_comparison_batch in Hrun. unfold bind at 1 in Hrun. rewrite Hhead in Hrun.
  destruct (batch_size request >? MAX_BATCH_SIZE)%Z; [done|].
  unfold metric_row. unfold_ops. simpl in Hrun. rewrite Hdb in Hrun.
  destruct (head (filter _ (metrics (db w)))) as [metric|]; [|by subst run].
  destruct (execute_plan _ _ _ _) as [rows|] eqn:Hplan; [|subst run; simpl].
  - match type of Hrun with
    | context [batch_loop ?n ?m ?t ?rs ?a ?w1] =>
        destruct (batch_loop n m t rs a w1) as [r w2] eqn:Hloop
    end.
    destruct (batch_loop_frame _ _ _ _ _ _ _ _ Hloop) as (_ & _ & _ & qs & Hq & Hall).
    exists qs. subst run. simpl in *. rewrite Hq, <- !app_assoc. done.
  - rewrite <- app_assoc. done.
Qed.

(** C7. The batch operation fails with 500 when the default test set is
    not configured; once the header block has passed, with 406 for
    [batch_size > 10], otherwise with 400 for an unknown metric id,
    otherwise with 500 when the chosen pairing plan fails to execute.  In
    that last case no token has been minted, nothing is returned, and the
    chosen plan is the only plan that was sent to the store. *)
Theorem batch_error_statuses now request request_obj user_id (w : World) :
  let run := get_comparison_batch now request request_obj user_id w in
  (named_test_set w (default_test_set_name user_id) = None →
   fst run = HTTPException 500 (default_test_set_missing user_id))
  ∧ (∀ ts,
       named_test_set w (default_test_set_name user_id) = Some ts →
       batch_caller_found w user_id →
       (batch_size request > MAX_BATCH_SIZE →
        fst run = HTTPException 406 "Invalid batch size")
       ∧ (batch_size request ≤ MAX_BATCH_SIZE →
          metric_row w (uuid_str (request_metric_id request)) = None →
          fst run = HTTPException 400 "Invalid metric id")
       ∧ (batch_size request ≤ MAX_BATCH_SIZE →
          is_Some (metric_row w (uuid_str (request_metric_id request))) →
          execute_plan batch_query_name ts (batch_size request) (db w) = None →
          fst run = HTTPException 500 plan_failure_detail
          ∧ redis (snd run) = redis w
          ∧ uuid_calls (snd run) = uuid_calls w
          ∧ queries (snd run)
            = queries w ++ header_queries user_id
              ++ [SelectMetricByExternalId (uuid_str (request_metric_id request));
                  ExecutePlan batch_query_name ts (batch_size request)])).
Proof.
  intros run. split.
  - intros Hnone.
    destruct (batch_test_set_missing request_obj user_id w Hnone) as (w0 & Hhead & _).
    subst run. unfold get_comparison_batch, bind. by rewrite Hhead.
  - intros ts Hts Hfound.
    destruct (batch_test_set_found request_obj user_id w ts Hts Hfound)
      as (w0 & Hhead & Hq & _).
    pose proof (batch_after_header now request request_obj user_id w w0 ts Hhead) as Hrest.
    simpl in Hrest. fold run in Hrest.
    split_and!.
    + intros Hbig.
      destruct (Z.gtb_spec (batch_size request) MAX_BATCH_SIZE); [|lia].
      by rewrite Hrest.
    + intros Hsmall Hmetric.
      destruct (Z.gtb_spec (batch_size request) MAX_BATCH_SIZE); [lia|].
      rewrite Hmetric in Hrest. by destruct Hrest.
    + intros Hsmall [metric Hmetric] Hplan.
      destruct (Z.gtb_spec (batch_size request) MAX_BATCH_SIZE); [lia|].
      rewrite Hmetric, Hplan in Hrest.
      destruct Hrest as (Hr & Hqs & Hredis & Huuid).
      rewrite Hqs, Hq, <- app_assoc. done.
Qed.

(** *** Where the test set of a batch comes from *)

Lemma batch_test_set_queries request_obj user_id (w w0 : World) r :
  batch_test_set request_obj user_id w = (r, w0) →
  ∃ qs, queries w0 = queries w ++ qs ∧ Forall (λ q, is_execute_plan q = false) qs.
Proof.
  unfold batch_test_set. unfold_ops. intros Hrun.
  crunch; rewrite <- ?app_assoc; eexists; (split; [done|]); by repeat constructor.
Qed.

Lemma batch_plan_queries now request request_obj user_id (w : World) q t n :
  ExecutePlan q t n ∈ queries (snd (get_comparison_batch now request request_obj user_id w)) →
  ExecutePlan q t n ∈ queries w
  ∨ (named_test_set w (default_test_set_name user_id) = Some t
     ∧ q = batch_query_name ∧ n = batch_size request).
Proof.
  destruct (batch_test_set request_obj user_id w) as [r0 w0] eqn:Hhead.
  destruct (batch_test_set_queries _ _ _ _ _ Hhead) as (hq & Hq0 & Hnoplan).
  assert (ExecutePlan q t n ∉ hq) as Hnot.
  { intros Hin. by apply (proj1 (Forall_forall _ _) Hnoplan) in Hin. }
  destruct r0 as [ts| |].
  - destruct (batch_test_set_returned _ _ _ _ _ Hhead) as [Hts _].
    pose proof (batch_after_header now request request_obj user_id w w0 ts Hhead) as Hrest.
    simpl in Hrest.
    destruct (batch_size request >? MAX_BATCH_SIZE)%Z.
    { rewrite Hrest. simpl. rewrite Hq0. intros Hin.
      apply elem_of_app in Hin as [Hin | Hin]; [by left | done]. }
    destruct (metric_row w _) as [metric|].
    + destruct (execute_plan _ _ _ _) as [rows|].
      * destruct Hrest as (qs & -> & Hall). rewrite Hq0.
        intros Hin. rewrite !elem_of_app in Hin.
        destruct Hin as [[Hin | Hin] | Hin]; [by left | done |].
        apply elem_of_cons in Hin as [Hin | Hin]; [done|].
        apply elem_of_cons in Hin as [Hin | Hin]; [right; by simplify_eq|].
        by apply (proj1 (Forall_forall _ _) Hall) in Hin.
      * destruct Hrest as (_ & -> & _). rewrite Hq0.
        intros Hin. rewrite !elem_of_app in Hin.
        destruct Hin as [[Hin | Hin] | Hin]; [by left | done |].
        right. apply elem_of_cons in Hin as [Hin | Hin]; [done|].
        apply list_elem_of_singleton in Hin. by simplify_eq.
    + destruct Hrest as (_ & -> & _). rewrite Hq0.
      intros Hin. rewrite !elem_of_app in Hin.
      destruct Hin as [[Hin | Hin] | Hin]; [by left | done |].
      by apply list_elem_of_singleton in Hin.
  - unfold get_comparison_batch, bind. rewrite Hhead. simpl. rewrite Hq0. intros Hin.
    apply elem_of_app in Hin as [Hin | Hin]; [by left | done].
  - unfold get_comparison_batch, bind. rewrite Hhead. simpl. rewrite Hq0. intros Hin.
    apply elem_of_app in Hin as [Hin | Hin]; [by left | done].
Qed.

(** C10. The request carries no test set; the header block looks one up
    by a fixed name chosen by the authentication state, "Unauthenticated
    Test Set" for an anonymous caller and "Authenticated Test Set" for an
    authenticated one.  A missing test set row fails with 500, a missing
    user row of an authenticated caller with 404, in both cases with no
    pairing plan sent.  When the row of that name (and the user row) is
    found, the header block yields its id, and a request of valid size for
    a known metric sends the pairing plan with exactly that id.  Any
    pairing plan the request sends carries the id found under that name. *)
Theorem batch_test_set_from_auth_state now request request_obj user_id (w : World) :
  let run := get_comparison_batch now request request_obj user_id w in
  default_test_set_name None = "Unauthenticated Test Set"
  ∧ (∀ uid, default_test_set_name (Some uid) = "Authenticated Test Set")
  ∧ (named_test_set w (default_test_set_name user_id) = None →
     fst run = HTTPException 500 (default_test_set_missing user_id)
     ∧ queries (snd run)
       = queries w ++ [SelectTestSetIdByName (default_test_set_name user_id)])
  ∧ (∀ uid ts,
       user_id = Some uid →
       named_test_set w "Authenticated Test Set" = Some ts →
       known_user w uid = None →
       fst run = HTTPException 404 "Authenticated user not found"
       ∧ queries (snd run)
         = queries w ++ [SelectTestSetIdByName "Authenticated Test Set";
                         SelectUserByExternalId uid])
  ∧ (∀ ts,
       named_test_set w (default_test_set_name user_id) = Some ts →
       batch_caller_found w user_id →
       fst (batch_test_set request_obj user_id w) = Returned ts
       ∧ (batch_size request ≤ MAX_BATCH_SIZE →
          is_Some (metric_row w (uuid_str (request_metric_id request))) →
          ∃ qs,
            queries (snd run)
            = queries w ++ header_queries user_id
              ++ [SelectMetricByExternalId (uuid_str (request_metric_id request));
                  ExecutePlan batch_query_name ts (batch_size request)] ++ qs
            ∧ Forall (λ q, q = SelectAvgVoteCount ts) qs))
  ∧ (∀ q t n,
       ExecutePlan q t n ∈ queries (snd run) →
       ExecutePlan q t n ∈ queries w
       ∨ (named_test_set w (default_test_set_name user_id) = Some t
          ∧ q = batch_query_name ∧ n = batch_size request)).
Proof.
  intros run. split_and!; try done.
  - intros Hnone.
    destruct (batch_test_set_missing request_obj user_id w Hnone) as (w0 & Hhead & Hq & _).
    subst run. unfold get_comparison_batch, bind. by rewrite Hhead.
  - intros uid ts -> Hts Huser.
    destruct (batch_user_missing request_obj uid w ts Hts Huser) as (w0 & Hhead & Hq & _).
    subst run. unfold get_comparison_batch, bind. by rewrite Hhead.
  - intros ts Hts Hfound.
    destruct (batch_test_set_found request_obj user_id w ts Hts Hfound)
      as (w0 & Hhead & Hq & _).
    split; [by rewrite Hhead|].
    intros Hsmall [metric Hmetric].
    pose proof (batch_after_header now request request_obj user_id w w0 ts Hhead) as Hrest.
    simpl in Hrest. fold run in Hrest.
    destruct (Z.gtb_spec (batch_size request) MAX_BATCH_SIZE); [lia|].
    rewrite Hmetric in Hrest.
    destruct (execute_plan _ _ _ _) as [rows|].
    + destruct Hrest as (qs & Hqs & Hall). exists qs.
      rewrite Hqs, Hq, <- !app_assoc. done.
    + destruct Hrest as (_ & Hqs & _). exists [].
      rewrite Hqs, Hq, <- !app_assoc. split; [done | constructor].
  - intros q t n. apply batch_plan_queries.
Qed.

End Properties.

(** ** The handlers run on the concrete deployment *)

Import Fixture.



(** The first vote succeeds on this deployment, so the property above is
    about a token that really was redeemed once. *)
Example first_redemption_succeeds :
  fst (run_vote (vote 1001 [One SampleA; One SampleB] None) world1) = Returned both_models
  ∧ length (comparisons (db (snd (run_vote (vote 1001 [One SampleA; One SampleB] None) world1))))
    = 1%nat.
Proof. split; vm_compute; reflexivity. Qed.

(** C2, as stated, fails: the test-set lookup runs before the size check,
    and without a test set row the answer is 500, not 406. *)
Lemma oversized_batch_queries_store :
  ¬ (∀ now (request : NewComparisonBatchRequest) request_obj user_id (w : World),
       batch_size request > MAX_BATCH_SIZE →
       http_status (fst (get_comparison_batch now request request_obj user_id w)) = 406
       ∧ queries (snd (get_comparison_batch now request request_obj user_id w)) = queries w).
Proof.
  intros Hclaim.
  destruct (Hclaim 1000 (batch_request 11) no_headers None world0) as [_ Hqueries].
  - reflexivity.
  - vm_compute in Hqueries. discriminate Hqueries.
Qed.

Example oversized_batch_without_test_set :
  fst (get_comparison_batch 1000 (batch_request 11) no_headers None world_no_test_set)
  = HTTPException 500 "Default unauthenticated test set not found".
Proof. vm_compute. reflexivity. Qed.

Lemma oversized_batch_rejected_witness :
  fst (get_comparison_batch 1000 (batch_request 11) no_headers (Some "alice") world0)
  = HTTPException 406 "Invalid batch size"
  ∧ queries (snd (get_comparison_batch 1000 (batch_request 11) no_headers (Some "alice") world0))
    = [SelectTestSetIdByName "Authenticated Test Set"; SelectUserByExternalId "alice"]
  ∧ auth (snd (get_comparison_batch 1000 (batch_request 11) no_headers (Some "alice") world0))
    = 1%nat.
Proof.
  destruct (oversized_batch_rejected 1000 (batch_request 11) no_headers (Some "alice") world0 2)
    as (Hstatus & Hqueries & Hauth & _).
  - reflexivity.
  - reflexivity.
  - vm_compute. eauto.
  - split_and!; [exact Hstatus | exact Hqueries | exact Hauth].
Defined.

Lemma ranking_expansion_witness :
  ∃ rows,
    comparison_ranks (db (snd (run_vote (vote 1001 [One SampleA; One SampleB] None) world1)))
    = rows
    ∧ map rank rows = [1; 2]
    ∧ map rank_sample_id rows = [10; 11]
    ∧ rank_positions [Tie [SampleA; SampleB]] = [(1, SampleA); (1, SampleB)].
Proof.
  destruct (ranking_expansion 1001
              {| comparison_token := id_str Token1;
                 ordered_sample_ids := [One SampleA; One SampleB] |}
              no_headers None world1
              (snd (run_vote (vote 1001 [One SampleA; One SampleB] None) world1))
              both_models)
    as [(a & b & ranks & _ & _ & _ & Hgate) [_ Htie]].
  - vm_compute. reflexivity.
  - cbn [can_vote_of] in Hgate.
    destruct Hgate as (comparison & _ & _ & _ & _ & rows & Hrows & Hall).
    assert (samples (db world1) = samples store) as Hstore by (vm_compute; reflexivity).
    assert (comparison_ranks (db world1) = []) as Hnone by (vm_compute; reflexivity).
    rewrite Hnone in Hrows. rewrite Hstore in Hall.
    change (Forall2
              (λ row position,
                 rank row = fst position
                 ∧ rank_comparison_id row = comparison_id comparison
                 ∧ ∃ s, s ∈ samples store
                        ∧ comparison_sample_id s = snd position
                        ∧ rank_sample_id row = sample_id s)
              rows [(1, SampleA); (2, SampleB)]) in Hall.
    apply Forall2_cons_inv_r in Hall
      as (row1 & rest1 & (Hrank1 & _ & s1 & Hin1 & Hid1 & Hrow1) & Hall & ->).
    apply Forall2_cons_inv_r in Hall
      as (row2 & rest2 & (Hrank2 & _ & s2 & Hin2 & Hid2 & Hrow2) & Hall & ->).
    apply Forall2_nil_inv_r in Hall as ->.
    exists [row1; row2]. split_and!; [exact Hrows | | | apply Htie].
    + simpl. by rewrite Hrank1, Hrank2.
    + simpl. rewrite Hrow1, Hrow2.
      unfold store in Hin1, Hin2. simpl in Hin1, Hin2.
      apply elem_of_cons in Hin1 as [-> | Hin1];
        [|apply list_elem_of_singleton in Hin1 as ->; discriminate Hid1].
      apply elem_of_cons in Hin2 as [-> | Hin2]; [discriminate Hid2|].
      apply list_elem_of_singleton in Hin2 as ->. reflexivity.
Defined.

Example strict_order_rows :
  comparison_ranks (db (snd (run_vote (vote 1001 [One SampleA; One SampleB] None) world1)))
  = [ {| rank_comparison_id := 1; rank_sample_id := 10; rank := 1 |};
      {| rank_comparison_id := 1; rank_sample_id := 11; rank := 2 |} ].
Proof. vm_compute. reflexivity. Qed.

Example tie_rows :
  comparison_ranks (db (snd (run_vote (vote 1001 [Tie [SampleA; SampleB]] None) world1)))
  = [ {| rank_comparison_id := 1; rank_sample_id := 10; rank := 1 |};
      {| rank_comparison_id := 1; rank_sample_id := 11; rank := 1 |} ].
Proof. vm_compute. reflexivity. Qed.

(** C4, as stated, fails.  With an active token: an anonymous vote writes
    nothing when a sample of the pair has no row or when the ranking names a
    sample outside the pair; and when the metric row is gone the eligible
    caller gets an unhandled error while the caller without the scope gets
    the normal body. *)
Lemma eligibility_can_show_in_response :
  ¬ (∀ now (request : UserComparisonRequest) h1 h2 c1 c2 (w : World) metric a b,
       bound_to now w (comparison_token request) metric a b →
       caller_resolves w c1 → caller_resolves w c2 →
       fst (post_comparison now request h1 c1 w) = fst (post_comparison now request h2 c2 w)
       ∧ http_status (fst (post_comparison now request h1 c1 w)) = 200
       ∧ (can_vote_of w c1 = true →
          comparisons (db (snd (post_comparison now request h1 c1 w)))
          ≠ comparisons (db w)))
  ∧ fst (run_vote (vote 1001 [One SampleA; One SampleB] None) world_missing_sample)
    = Raised KeyError
  ∧ fst (run_vote (vote 1001 [One SampleA; One SampleC] None) world1) = Raised KeyError
  ∧ fst (run_vote (vote 1001 [One SampleA; One SampleB] None) world_missing_metric)
    = Raised AttributeError
  ∧ fst (run_vote (vote 1001 [One SampleA; One SampleB] (Some "alice")) world_missing_metric)
    = Returned both_models.
Proof.
  split; [|split_and!; vm_compute; reflexivity].
  intros Hclaim.
  destruct (Hclaim 1001
              {| comparison_token := id_str Token1;
                 ordered_sample_ids := [One SampleA; One SampleB] |}
              no_headers no_headers None (Some "alice") world_missing_metric
              (id_str Metric1) SampleA SampleB) as (Hsame & _).
  - exists payload1. split; vm_compute; reflexivity.
  - exact I.
  - reflexivity.
  - vm_compute in Hsame. discriminate Hsame.
Qed.

Lemma vote_response_ignores_eligibility_witness :
  fst (run_vote (vote 1001 [One SampleA; One SampleB] None) world1)
  = fst (run_vote (vote 1001 [One SampleA; One SampleB] (Some "alice")) world1)
  ∧ fst (run_vote (vote 1001 [One SampleA; One SampleB] None) world1) = Returned both_models.
Proof.
  destruct (vote_response_ignores_eligibility 1001
              {| comparison_token := id_str Token1;
                 ordered_sample_ids := [One SampleA; One SampleB] |}
              no_headers no_headers None (Some "alice") world1
              (id_str Metric1) SampleA SampleB
              {| sample_id := 10; comparison_sample_id := SampleA;
                 sample_test_set_id := Some 1; sample_model_name := "model-a" |}
              {| sample_id := 11; comparison_sample_id := SampleB;
                 sample_test_set_id := Some 1; sample_model_name := "model-b" |}
              [(1, {| sample_id := 10; comparison_sample_id := SampleA;
                      sample_test_set_id := Some 1; sample_model_name := "model-a" |});
               (2, {| sample_id := 11; comparison_sample_id := SampleB;
                      sample_test_set_id := Some 1; sample_model_name := "model-b" |})]
              {| metric_id := 3; metric_external_id := Metric1 |})
    as (Hsame & Hresp & _).
  - exists payload1. split; vm_compute; reflexivity.
  - vm_compute. reflexivity.
  - vm_compute. reflexivity.
  - vm_compute. reflexivity.
  - vm_compute. reflexivity.
  - exact I.
  - vm_compute. reflexivity.
  - split; [exact Hsame | exact Hresp].
Defined.

Example ineligible_vote_writes_nothing :
  ledger (snd (run_vote (vote 1001 [One SampleA; One SampleB] (Some "alice")) world1))
  = ([], []).
Proof. vm_compute. reflexivity. Qed.

Lemma recompute_debounced_witness :
  tasks (run_votes [vote_with Token1 1001 [One SampleA; One SampleB] None;
                    vote_with Token2 1200 [Tie [SampleA; SampleB]] (Some "bob")] world2)
  = ["elo_calculation"].
Proof.
  destruct (recompute_debounced
              (vote_with Token1 1001 [One SampleA; One SampleB] None)
              [vote_with Token2 1200 [Tie [SampleA; SampleB]] (Some "bob")] world2)
    as [(_ & _ & Htasks) _].
  - vm_compute. reflexivity.
  - vm_compute. discriminate.
  - intros v Hv. apply list_elem_of_singleton in Hv. subst v. simpl. lia.
  - exact Htasks.
Defined.

Example two_votes_one_task :
  length (comparisons (db (run_votes
            [vote_with Token1 1001 [One SampleA; One SampleB] None;
             vote_with Token2 1200 [Tie [SampleA; SampleB]] (Some "bob")] world2))) = 2%nat
  ∧ tasks (run_votes
            [vote_with Token1 1001 [One SampleA; One SampleB] None;
             vote_with Token2 1301 [Tie [SampleA; SampleB]] (Some "bob")] world2)
    = ["elo_calculation"; "elo_calculation"].
Proof. split; vm_compute; reflexivity. Qed.

(** C6, as stated, fails: a missing sample row is not answered like a
    missing token. *)
Lemma missing_sample_not_reported_as_not_found :
  ¬ (∀ now (request : UserComparisonRequest) request_obj user_uuid (w : World) metric a b,
       bound_to now w (comparison_token request) metric a b →
       caller_resolves w user_uuid →
       Forall (λ s, comparison_sample_id s ≠ a) (samples (db w))
       ∨ Forall (λ s, comparison_sample_id s ≠ b) (samples (db w)) →
       fst (post_comparison now request request_obj user_uuid w)
       = HTTPException 404 "No active comparisons found").
Proof.
  intros Hclaim.
  assert (fst (run_vote (vote 1001 [One SampleA; One SampleB] None) world_missing_sample)
          = HTTPException 404 "No active comparisons found") as Hbad.
  { apply (Hclaim 1001
             {| comparison_token := id_str Token1;
                ordered_sample_ids := [One SampleA; One SampleB] |}
             no_headers None world_missing_sample (id_str Metric1) SampleA SampleB).
    - exists payload1. split; vm_compute; reflexivity.
    - exact I.
    - right. vm_compute. repeat constructor. discriminate. }
  vm_compute in Hbad. discriminate Hbad.
Qed.

Lemma missing_sample_is_unhandled_witness :
  fst (run_vote (vote 1001 [One SampleA; One SampleB] None) world_missing_sample)
  = Raised KeyError
  ∧ http_status
      (fst (run_vote (vote 1001 [One SampleA; One SampleB] None) world_missing_sample))
    = 500.
Proof.
  destruct (missing_sample_is_unhandled 1001
              {| comparison_token := id_str Token1;
                 ordered_sample_ids := [One SampleA; One SampleB] |}
              no_headers None world_missing_sample (id_str Metric1) SampleA SampleB)
    as (Hkey & Hstatus & _).
  - exists payload1. split; vm_compute; reflexivity.
  - exact I.
  - right. vm_compute. repeat constructor. discriminate.
  - split; [exact Hkey | exact Hstatus].
Defined.

Lemma batch_error_statuses_witness :
  fst (get_comparison_batch 1000 (batch_request (-1)) no_headers None world0)
  = HTTPException 500 "Failed to retrieve comparison batch using 'comparison_batch_query'"
  ∧ queries (snd (get_comparison_batch 1000 (batch_request (-1)) no_headers None world0))
    = [SelectTestSetIdByName "Unauthenticated Test Set";
       SelectMetricByExternalId (id_str Metric1);
       ExecutePlan "comparison_batch_query" 1 (-1)]
  ∧ fst (get_comparison_batch 1000 (batch_request 11) no_headers None world0)
    = HTTPException 406 "Invalid batch size"
  ∧ fst (get_comparison_batch 1000 (batch_request 3) no_headers None world_missing_metric)
    = HTTPException 400 "Invalid metric id"
  ∧ fst (get_comparison_batch 1000 (batch_request 3) no_headers None world_no_test_set)
    = HTTPException 500 "Default unauthenticated test set not found".
Proof.
  split_and!.
  - destruct (batch_error_statuses 1000 (batch_request (-1)) no_headers None world0)
      as (_ & Hrest).
    destruct (Hrest 1 eq_refl I) as (_ & _ & Hplan).
    destruct Hplan as (Hstatus & _); [unfold MAX_BATCH_SIZE; simpl; lia | vm_compute; eauto | reflexivity |].
    exact Hstatus.
  - destruct (batch_error_statuses 1000 (batch_request (-1)) no_headers None world0)
      as (_ & Hrest).
    destruct (Hrest 1 eq_refl I) as (_ & _ & Hplan).
    destruct Hplan as (_ & _ & _ & Hqueries);
      [unfold MAX_BATCH_SIZE; simpl; lia | vm_compute; eauto | reflexivity |].
    exact Hqueries.
  - destruct (batch_error_statuses 1000 (batch_request 11) no_headers None world0)
      as (_ & Hrest).
    destruct (Hrest 1 eq_refl I) as (Hbig & _).
    apply Hbig. reflexivity.
  - destruct (batch_error_statuses 1000 (batch_request 3) no_headers None
                world_missing_metric) as (_ & Hrest).
    destruct (Hrest 1 eq_refl I) as (_ & Hmetric & _).
    apply Hmetric; [unfold MAX_BATCH_SIZE; simpl; lia | reflexivity].
  - destruct (batch_error_statuses 1000 (batch_request 3) no_headers None
                world_no_test_set) as (Hmissing & _).
    apply Hmissing. reflexivity.
Defined.

Lemma batch_tokens_stored_witness :
  map token tokens2 = [Token1; Token2]
  ∧ NoDup (map token tokens2)
  ∧ redis world2 !! Payload.active_key (id_str Token2)
    = Some (Cache.mkEntry
              (Payload.join3 (id_str Metric1) (id_str SampleB) (id_str SampleA))
              (Some 4600))
  ∧ fst (run_vote (vote_with Token1 4600 [One SampleA; One SampleB] None) world2)
    = HTTPException 404 "No active comparisons found".
Proof.
  destruct (batch_tokens_stored 1000 (batch_request 2) no_headers None world0 world2 tokens2)
    as (Htokens & Hnodup & Hstored).
  - vm_compute. reflexivity.
  - intros i j Hi Hij Hj. vm_compute in Hj.
    destruct i as [|i]; [|lia]. destruct j as [|[|j]]; [lia | | lia].
    simpl. discriminate.
  - split_and!.
    + exact Htokens.
    + exact Hnodup.
    + apply Forall_forall with (x := nth 1 tokens2 (nth 0 tokens2 (nth 0 tokens2
               {| token := Token1; token_metric_id := Metric1; token_samples := [];
                  build_description := CInt 0; assets := [] |}))) in Hstored.
      * destruct Hstored as (_ & a & b & Hsamples & Hentry & _).
        vm_compute in Hsamples. simplify_eq. exact Hentry.
      * vm_compute. right. left.
    + apply Forall_forall with (x := nth 0 tokens2
               {| token := Token1; token_metric_id := Metric1; token_samples := [];
                  build_description := CInt 0; assets := [] |}) in Hstored.
      * destruct Hstored as (_ & a & b & _ & _ & _ & _ & Hexpired).
        apply (Hexpired 4600 {| comparison_token := id_str Token1;
                                ordered_sample_ids := [One SampleA; One SampleB] |}
                 no_headers None); [lia | reflexivity | exact I].
      * vm_compute. left.
Defined.

Example token_live_just_before_expiry :
  fst (run_vote (vote_with Token1 4599 [One SampleA; One SampleB] None) world2)
  = Returned both_models.
Proof. vm_compute. reflexivity. Qed.



Lemma batch_test_set_from_auth_state_witness :
  fst (get_comparison_batch 1000 (batch_request 1) no_headers (Some "carol") world0)
  = HTTPException 404 "Authenticated user not found"
  ∧ fst (get_comparison_batch 1000 (batch_request 1) no_headers (Some "bob") world_no_test_set)
    = HTTPException 500 "Default authenticated test set not found"
  ∧ fst (batch_test_set no_headers (Some "bob") world0) = Returned 2
  ∧ ExecutePlan "comparison_batch_query" 2 1
    ∈ queries (snd (get_comparison_batch 1000 (batch_request 1) no_headers (Some "bob") world0))
  ∧ (ExecutePlan "comparison_batch_query" 2 1
       ∈ queries (snd (get_comparison_batch 1000 (batch_request 1) no_headers (Some "bob") world0))
     → named_test_set world0 "Authenticated Test Set" = Some 2).
Proof.
  assert (batch_caller_found world0 (Some "bob")) as Hbob by (vm_compute; eauto).
  split_and!.
  - destruct (batch_test_set_from_auth_state 1000 (batch_request 1) no_headers
                (Some "carol") world0) as (_ & _ & _ & Huser & _).
    destruct (Huser "carol" 2 eq_refl eq_refl eq_refl) as [Hstatus _]. exact Hstatus.
  - destruct (batch_test_set_from_auth_state 1000 (batch_request 1) no_headers
                (Some "bob") world_no_test_set) as (_ & _ & Hmissing & _).
    destruct (Hmissing eq_refl) as [Hstatus _]. exact Hstatus.
  - destruct (batch_test_set_from_auth_state 1000 (batch_request 1) no_headers
                (Some "bob") world0) as (_ & _ & _ & _ & Hfound & _).
    destruct (Hfound 2 eq_refl Hbob) as [Hts _]. exact Hts.
  - destruct (batch_test_set_from_auth_state 1000 (batch_request 1) no_headers
                (Some "bob") world0) as (_ & _ & _ & _ & Hfound & _).
    destruct (Hfound 2 eq_refl Hbob) as [_ Hplan].
    destruct Hplan as (qs & Hqueries & _).
    + unfold MAX_BATCH_SIZE. simpl. lia.
    + vm_compute. eauto.
    + rewrite Hqueries.
      apply elem_of_app. right. apply elem_of_app. right. apply elem_of_app. left.
      apply elem_of_cons. right. apply elem_of_cons. left. reflexivity.
  - intros Hin.
    destruct (batch_test_set_from_auth_state 1000 (batch_request 1) no_headers
                (Some "bob") world0) as (_ & _ & _ & _ & _ & Hplan).
    destruct (Hplan _ _ _ Hin) as [Hold | (Hts & _)].
    + vm_compute in Hold. by apply elem_of_nil in Hold.
    + exact Hts.
Defined.

Example authenticated_batch_uses_authenticated_test_set :
  queries (snd (get_comparison_batch 1000 (batch_request 1) no_headers (Some "bob") world0))
  = [SelectTestSetIdByName "Authenticated Test Set";
     SelectUserByExternalId "bob";
     SelectMetricByExternalId (id_str Metric1);
     ExecutePlan "comparison_batch_query" 2 1].
Proof. vm_compute. reflexivity. Qed.

(** ** Further properties of the two handlers *)

Section MoreProperties.
Context {U : Type} `{!UuidCodec U} `{!Env U}.

Ltac unfold_ops :=
  cbv beta delta
    [bind ret http_exception raise log_query scalar_test_set_id
     scalar_user one_user scalar_metric select_samples_in execute_named
     log_average_votes session_headers redis_setex redis_getdel
     redis_set_nx_ex send_task fresh_uuid getitem row_at
     set_db set_auth set_redis] in *.

Ltac crunch := repeat (simplify_eq/=; case_match); simplify_eq/=.

(** *** The pairing loop, row by row *)

Lemma batch_row_short now metric ts row (w : World) :
  (length row < 5)%nat →
  batch_row now metric ts row w = (Raised IndexError, w).
Proof.
  intros Hshort. unfold batch_row. unfold_ops.
  destruct row as [|c0 [|c1 [|c2 [|c3 [|c4 rest]]]]]; simpl in *; try done; lia.
Qed.

Lemma batch_row_full now metric ts row (w : World) :
  (5 ≤ length row)%nat →
  ∃ r w', batch_row now metric ts row w = (Returned r, w')
    ∧ match r with
      | Some t => row_kept row = true ∧ token_samples t = row_samples row
      | None => row_kept row = false
      end.
Proof.
  intros Hfull. unfold batch_row, row_kept, row_samples. unfold_ops.
  destruct row as [|c0 [|c1 [|c2 [|c3 [|c4 rest]]]]]; simpl in *; try lia.
  destruct USE_PRIORITY_COMPARISON; simpl.
  - destruct (Z.ltb_spec (Z.of_nat (S (S (S (S (S (length rest))))))) 11); simpl.
    + by eexists None, _.
    + by eexists (Some _), _.
  - by eexists (Some _), _.
Qed.

(** The loop only ever adds cache entries, and only under the keys of the
    UUIDs it draws. *)
Lemma batch_loop_cache now metric ts rows acc (w w' : World) r :
  batch_loop now metric ts rows acc w = (r, w') →
  (∀ k, is_Some (redis w !! k) → is_Some (redis w' !! k))
  ∧ (∀ i, (uuid_calls w ≤ i)%nat → (i < uuid_calls w')%nat →
          is_Some (redis w' !! Payload.active_key (uuid_str (uuid4 i))))
  ∧ (∀ k, (∀ i, (uuid_calls w ≤ i)%nat → (i < uuid_calls w')%nat →
               k ≠ Payload.active_key (uuid_str (uuid4 i))) →
          redis w' !! k = redis w !! k).
Proof.
  revert acc w. induction rows as [|row rest IH]; intros acc w; simpl.
  - unfold ret. intros; simplify_eq. split_and!; [done | intros; lia | done].
  - unfold bind at 1.
    destruct (batch_row now metric ts row w) as [r1 w1] eqn:Hrow.
    pose proof (batch_row_run _ _ _ _ _ _ _ Hrow) as (_ & _ & _ & Hcase).
    assert ((∀ k, is_Some (redis w !! k) → is_Some (redis w1 !! k))
            ∧ (∀ i, (uuid_calls w ≤ i)%nat → (i < uuid_calls w1)%nat →
                    is_Some (redis w1 !! Payload.active_key (uuid_str (uuid4 i))))
            ∧ (∀ k, (∀ i, (uuid_calls w ≤ i)%nat → (i < uuid_calls w1)%nat →
                         k ≠ Payload.active_key (uuid_str (uuid4 i))) →
                    redis w1 !! k = redis w !! k)
            ∧ (uuid_calls w ≤ uuid_calls w1)%nat) as (Hkeep1 & Hnew1 & Hother1 & Hmono1).
    { destruct r1 as [[t|]| |].
      - destruct Hcase as (Hc & Htok & _ & e & _ & _ & Hredis).
        rewrite Hredis, Hc, Htok. split_and!.
        + intros k Hk. destruct (decide (Payload.active_key (uuid_str (uuid4 (uuid_calls w))) = k))
            as [<- | Hne]; [by rewrite lookup_insert_eq | by rewrite lookup_insert_ne].
        + intros i Hlo Hhi. assert (i = uuid_calls w) as -> by lia.
          by rewrite lookup_insert_eq.
        + intros k Hk. rewrite lookup_insert_ne; [done|].
          intros Heq. apply (Hk (uuid_calls w)); [lia | lia | done].
        + lia.
      - destruct Hcase as [Hc ->]. rewrite Hc.
        split_and!; [done | intros; lia | done | lia].
      - destruct Hcase as [Hc ->]. rewrite Hc.
        split_and!; [done | intros; lia | done | lia].
      - destruct Hcase as [Hc ->]. rewrite Hc.
        split_and!; [done | intros; lia | done | lia]. }
    destruct r1 as [o| |]; intros Hrun; simplify_eq/=; [|done..].
    pose proof (batch_loop_frame _ _ _ _ _ _ _ _ Hrun) as (_ & _ & Hmono2 & _).
    apply IH in Hrun as (Hkeep2 & Hnew2 & Hother2).
    split_and!.
    + intros k Hk. by apply Hkeep2, Hkeep1.
    + intros i Hlo Hhi. destruct (decide (i < uuid_calls w1)%nat).
      * by apply Hkeep2, Hnew1.
      * apply Hnew2; lia.
    + intros k Hk. rewrite Hother2, Hother1; [done | |].
      * intros i ??. apply Hk; lia.
      * intros i ??. apply Hk; lia.
Qed.

(** When every row has its five common columns the loop returns one pair
    per kept row, in order. *)
Lemma batch_loop_full now metric ts rows acc (w : World) :
  Forall (λ row, (5 ≤ length row)%nat) rows →
  ∃ news w',
    batch_loop now metric ts rows acc w = (Returned (acc ++ news), w')
    ∧ map token_samples news = map row_samples (filter (λ row, row_kept row = true) rows)
    ∧ map token news = map uuid4 (seq (uuid_calls w) (length news))
    ∧ uuid_calls w' = (uuid_calls w + length news)%nat.
Proof.
  intros Hfull. revert acc w.
  induction Hfull as [|row rest Hrow _ IH]; intros acc w; simpl.
  - exists [], w. unfold ret. rewrite app_nil_r. split_and!; [done | done | done | simpl; lia].
  - unfold bind at 1.
    destruct (batch_row_full now metric ts row w Hrow) as (r & w1 & Hrun & Hr).
    pose proof (batch_row_run _ _ _ _ _ _ _ Hrun) as (_ & _ & _ & Hcase).
    rewrite Hrun. rewrite filter_cons.
    destruct r as [t|].
    + destruct Hr as [Hkept Hsamples]. destruct Hcase as (Hc & Htok & _).
      destruct (IH (acc ++ [t]) w1) as (news & w' & Hloop & Hmap & Htoks & Hcount).
      exists (t :: news), w'. rewrite Hloop, <- app_assoc. simpl.
      destruct (decide (row_kept row = true)); [|done].
      simpl. rewrite Hsamples, Hmap, Htoks, Htok, Hc.
      split_and!; [done | done | done | simpl in *; lia].
    + destruct Hcase as (Hc & _).
      destruct (IH acc w1) as (news & w' & Hloop & Hmap & Htoks & Hcount).
      exists news, w'. rewrite Hloop.
      destruct (decide (row_kept row = true)); [congruence|].
      rewrite Htoks, Hc. split_and!; [done | done | done | lia].
Qed.

(** A row without its five common columns stops the loop with
    [IndexError], after the rows before it have drawn their UUIDs. *)
Lemma batch_loop_short now metric ts before short after acc (w : World) :
  Forall (λ row, (5 ≤ length row)%nat) before →
  (length short < 5)%nat →
  ∃ w',
    batch_loop now metric ts (before ++ short :: after) acc w = (Raised IndexError, w')
    ∧ uuid_calls w'
      = (uuid_calls w + length (filter (λ row, row_kept row = true) before))%nat.
Proof.
  intros Hfull Hshort. revert acc w.
  induction Hfull as [|row rest Hrow _ IH]; intros acc w; simpl.
  - unfold bind at 1. rewrite batch_row_short by done.
    exists w. split; [done | lia].
  - unfold bind at 1.
    destruct (batch_row_full now metric ts row w Hrow) as (r & w1 & Hrun & Hr).
    pose proof (batch_row_run _ _ _ _ _ _ _ Hrun) as (_ & _ & _ & Hcase).
    rewrite Hrun, filter_cons.
    destruct r as [t|].
    + destruct Hr as [Hkept _]. destruct Hcase as (Hc & _).
      destruct (IH (acc ++ [t]) w1) as (w' & Hloop & Hcount).
      exists w'. rewrite Hloop. destruct (decide (row_kept row = true)); [|done].
      split; [done | simpl; lia].
    + destruct Hcase as (Hc & _).
      destruct (IH acc w1) as (w' & Hloop & Hcount).
      exists w'. rewrite Hloop. destruct (decide (row_kept row = true)); [congruence|].
      split; [done | lia].
Qed.

(** *** [get_comparison_batch] up to its loop *)

Lemma batch_shape now request request_obj user_id (w : World) :
  let run := get_comparison_batch now request request_obj user_id w in
  ((∀ toks, fst run ≠ Returned toks)
   ∧ (∀ e, fst run ≠ Raised e)
   ∧ db (snd run) = db w ∧ redis (snd run) = redis w
   ∧ tasks (snd run) = tasks w ∧ uuid_calls (snd run) = uuid_calls w)
  ∨ (∃ ts metric rows w1,
       run = batch_loop now metric ts rows [] w1
       ∧ db w1 = db w ∧ redis w1 = redis w ∧ tasks w1 = tasks w
       ∧ uuid_calls w1 = uuid_calls w
       ∧ named_test_set w (default_test_set_name user_id) = Some ts
       ∧ batch_size request ≤ MAX_BATCH_SIZE
       ∧ metric_row w (uuid_str (request_metric_id request)) = Some metric
       ∧ execute_plan batch_query_name ts (batch_size request) (db w) = Some rows).
Proof.
  intros run.
  assert (run = get_comparison_batch now request request_obj user_id w) as Hrun by done.
  clearbody run.
  unfold get_comparison_batch in Hrun. unfold bind at 1 in Hrun.
  destruct (batch_test_set request_obj user_id w) as [r0 w0] eqn:Hhead.
  destruct (batch_test_set_frame _ _ _ _ _ Hhead) as (Hdb & Hredis & Htasks & Huuid).
  assert (∀ e, r0 ≠ Raised e) as Hnoraise.
  { revert Hhead. unfold batch_test_set. unfold_ops. intros Hhead e. crunch; done. }
  destruct r0 as [ts|status detail|e]; [| |by destruct (Hnoraise e)].
  - destruct (batch_test_set_returned _ _ _ _ _ Hhead) as [Hts _].
    destruct (Z.gtb_spec (batch_size request) MAX_BATCH_SIZE).
    { left. subst run. simpl. by rewrite ?Hdb, ?Hredis, ?Htasks, ?Huuid. }
    unfold metric_row. unfold_ops. simpl in Hrun. rewrite Hdb in Hrun.
    destruct (head (filter _ (metrics (db w)))) as [metric|].
    + destruct (execute_plan _ _ _ _) as [rows|] eqn:Hplan.
      * right. eexists ts, metric, rows, _. split; [exact Hrun|].
        simpl. by rewrite ?Hdb, ?Hredis, ?Htasks, ?Huuid.
      * left. subst run. simpl. by rewrite ?Hdb, ?Hredis, ?Htasks, ?Huuid.
    + left. subst run. simpl. by rewrite ?Hdb, ?Hredis, ?Htasks, ?Huuid.
  - left. subst run. simpl. by rewrite ?Hdb, ?Hredis, ?Htasks, ?Huuid.
Qed.

Lemma batch_reaches_loop now request request_obj user_id (w : World) ts metric rows :
  named_test_set w (default_test_set_name user_id) = Some ts →
  batch_caller_found w user_id →
  batch_size request ≤ MAX_BATCH_SIZE →
  metric_row w (uuid_str (request_metric_id request)) = Some metric →
  execute_plan batch_query_name ts (batch_size request) (db w) = Some rows →
  ∃ w1,
    get_comparison_batch now request request_obj user_id w
    = batch_loop now metric ts rows [] w1
    ∧ db w1 = db w ∧ redis w1 = redis w ∧ tasks w1 = tasks w
    ∧ uuid_calls w1 = uuid_calls w.
Proof.
  intros Hts Hfound Hsize Hmetric Hplan.
  destruct (batch_test_set_found request_obj user_id w ts Hts Hfound)
    as (w0 & Hhead & _ & Hdb & Hredis & Htasks & Huuid).
  unfold get_comparison_batch. unfold bind at 1. rewrite Hhead.
  destruct (Z.gtb_spec (batch_size request) MAX_BATCH_SIZE); [lia|].
  unfold metric_row in Hmetric. unfold_ops. simpl. rewrite Hdb, Hmetric. simpl.
  rewrite ?Hdb, Hplan.
  eexists. split; [done|]. simpl. by rewrite ?Hdb, ?Hredis, ?Htasks, ?Huuid.
Qed.

(** X1. A batch request never writes to the store or the task queue and
    never removes or changes a cache entry other than under a token key:
    whatever its outcome, the tables and the queue are as before, every
    cache key that existed still exists, and every key that is not the
    token key of some UUID, the recompute lock among them, holds what it
    held. *)
Theorem batch_only_adds_token_keys now request request_obj user_id (w : World) :
  let run := get_comparison_batch now request request_obj user_id w in
  db (snd run) = db w
  ∧ tasks (snd run) = tasks w
  ∧ (∀ k, is_Some (redis w !! k) → is_Some (redis (snd run) !! k))
  ∧ (∀ k, (∀ u : U, k ≠ Payload.active_key (uuid_str u)) →
          redis (snd run) !! k = redis w !! k)
  ∧ redis (snd run) !! Payload.lock_key = redis w !! Payload.lock_key.
Proof.
  intros run.
  assert (db (snd run) = db w ∧ tasks (snd run) = tasks w
          ∧ (∀ k, is_Some (redis w !! k) → is_Some (redis (snd run) !! k))
          ∧ (∀ k, (∀ u : U, k ≠ Payload.active_key (uuid_str u)) →
                  redis (snd run) !! k = redis w !! k)) as (Hdb & Htasks & Hkeep & Hother).
  { destruct (batch_shape now request request_obj user_id w)
      as [(_ & _ & Hdb & Hredis & Htasks & _)
         | (ts & metric & rows & w1 & Hrun & Hdb & Hredis & Htasks & _)].
    - fold run in Hdb, Hredis, Htasks. rewrite Hdb, Hredis, Htasks. done.
    - fold run in Hrun. destruct run as [r w'] eqn:Hrun'. simpl. symmetry in Hrun.
      destruct (batch_loop_frame _ _ _ _ _ _ _ _ Hrun) as (Hdb' & Htasks' & _).
      destruct (batch_loop_cache _ _ _ _ _ _ _ _ Hrun) as (Hkeep & _ & Hother).
      rewrite Hdb', Htasks', Hdb, Htasks. rewrite Hredis in Hkeep, Hother.
      split_and!; try done.
      intros k Hk. apply Hother. intros i _ _. apply Hk. }
  split_and!; try done.
  apply Hother. intros u Heq. by apply (PayloadFacts.active_key_not_lock (uuid_str u)).
Qed.

(** X2. When the header block passes, the size check passes, the metric
    is known and the plan returns rows that all have their five common
    columns, the batch succeeds with one pair per kept row, in row order and
    carrying that row's two sample ids; in priority mode the kept rows are
    those with at least eleven columns, otherwise all.  One UUID is drawn
    per returned pair. *)
Theorem batch_returns_kept_rows now request request_obj user_id (w : World)
    ts metric rows :
  named_test_set w (default_test_set_name user_id) = Some ts →
  batch_caller_found w user_id →
  batch_size request ≤ MAX_BATCH_SIZE →
  metric_row w (uuid_str (request_metric_id request)) = Some metric →
  execute_plan batch_query_name ts (batch_size request) (db w) = Some rows →
  Forall (λ row, (5 ≤ length row)%nat) rows →
  let run := get_comparison_batch now request request_obj user_id w in
  ∃ toks,
    fst run = Returned toks
    ∧ map token_samples toks = map row_samples (filter (λ row, row_kept row = true) rows)
    ∧ map token toks = map uuid4 (seq (uuid_calls w) (length toks))
    ∧ uuid_calls (snd run) = (uuid_calls w + length toks)%nat.
Proof.
  intros Hts Hfound Hsize Hmetric Hplan Hfull run.
  destruct (batch_reaches_loop now request request_obj user_id w ts metric rows
              Hts Hfound Hsize Hmetric Hplan) as (w1 & Hrun & _ & _ & _ & Huuid).
  destruct (batch_loop_full now metric ts rows [] w1 Hfull)
    as (news & w' & Hloop & Hmap & Htoks & Hcount).
  subst run. rewrite Hrun, Hloop. simpl. exists news.
  rewrite Htoks, Hcount, Huuid. done.
Qed.

(** X3. A row with fewer than five columns fails the whole batch with an
    unhandled [IndexError], in either mode; the pairs of the rows before it
    are not returned, yet their UUIDs have been drawn and their entries
    stay in the cache. *)
Theorem short_row_fails_batch now request request_obj user_id (w : World)
    ts metric before short after :
  named_test_set w (default_test_set_name user_id) = Some ts →
  batch_caller_found w user_id →
  batch_size request ≤ MAX_BATCH_SIZE →
  metric_row w (uuid_str (request_metric_id request)) = Some metric →
  execute_plan batch_query_name ts (batch_size request) (db w)
  = Some (before ++ short :: after) →
  Forall (λ row, (5 ≤ length row)%nat) before →
  (length short < 5)%nat →
  let run := get_comparison_batch now request request_obj user_id w in
  let minted := length (filter (λ row, row_kept row = true) before) in
  fst run = Raised IndexError
  ∧ http_status (fst run) = 500
  ∧ uuid_calls (snd run) = (uuid_calls w + minted)%nat
  ∧ ∀ i, (i < minted)%nat →
         is_Some (redis (snd run)
                    !! Payload.active_key (uuid_str (uuid4 (uuid_calls w + i)))).
Proof.
  intros Hts Hfound Hsize Hmetric Hplan Hfull Hshort run minted.
  destruct (batch_reaches_loop now request request_obj user_id w ts metric _
              Hts Hfound Hsize Hmetric Hplan) as (w1 & Hrun & _ & _ & _ & Huuid).
  destruct (batch_loop_short now metric ts before short after [] w1 Hfull Hshort)
    as (w' & Hloop & Hcount).
  destruct (batch_loop_cache _ _ _ _ _ _ _ _ Hloop) as (_ & Hnew & _).
  subst run. rewrite Hrun, Hloop. simpl. rewrite Hcount, Huuid.
  split_and!; try done.
  intros i Hi. apply Hnew; rewrite ?Hcount, ?Huuid; fold minted; lia.
Qed.

(** *** What a vote request leaves alone *)

Lemma add_ranks_tables comparison ranks (w : World) :
  ∃ w', add_ranks comparison ranks w = (Returned tt, w')
    ∧ test_sets (db w') = test_sets (db w) ∧ users (db w') = users (db w)
    ∧ metrics (db w') = metrics (db w) ∧ samples (db w') = samples (db w)
    ∧ comparisons (db w') = comparisons (db w)
    ∧ comparison_ranks (db w') = comparison_ranks (db w) ++ map (rank_row comparison) ranks
    ∧ redis w' = redis w ∧ tasks w' = tasks w ∧ uuid_calls w' = uuid_calls w.
Proof.
  revert w. induction ranks as [|ranked rest IH]; intros w; simpl.
  - exists w. unfold ret. by rewrite app_nil_r.
  - unfold bind, add_comparison_rank.
    match goal with
    | |- context [add_ranks comparison rest ?w0] =>
        destruct (IH w0) as (w' & Hrun & Hts & Hus & Hms & Hss & Hcs & Hrs & Hredis & Htasks & Hu)
    end.
    exists w'. rewrite Hrun. simpl in *.
    rewrite Hrs, <- app_assoc. done.
Qed.

Lemma redeem_store now request caller (w w' : World) r :
  redeem_and_record now request caller w = (r, w') →
  test_sets (db w') = test_sets (db w) ∧ users (db w') = users (db w)
  ∧ metrics (db w') = metrics (db w) ∧ samples (db w') = samples (db w)
  ∧ uuid_calls w' = uuid_calls w
  ∧ ∃ cs rs,
      comparisons (db w') = comparisons (db w) ++ cs
      ∧ comparison_ranks (db w') = comparison_ranks (db w) ++ rs
      ∧ (length cs ≤ 1)%nat
      ∧ (cs = [] → rs = []).
Proof.
  destruct caller as [[user can_vote] [sid itid]].
  unfold redeem_and_record. unfold_ops. unfold Cache.getdel. simpl. intros Hrun.
  assert (∀ w0 : World,
            test_sets (db w0) = test_sets (db w0) ∧ users (db w0) = users (db w0)
            ∧ metrics (db w0) = metrics (db w0) ∧ samples (db w0) = samples (db w0)
            ∧ uuid_calls w0 = uuid_calls w0
            ∧ ∃ cs rs : list _,
                comparisons (db w0) = comparisons (db w0) ++ cs
                ∧ comparison_ranks (db w0) = comparison_ranks (db w0) ++ rs
                ∧ (length cs ≤ 1)%nat ∧ (cs = [] → rs = [])) as Hsame.
  { intros w0. split_and!; try done. exists [], []. rewrite !app_nil_r. simpl.
    split_and!; [done | done | lia | done]. }
  destruct (Cache.get now _ (redis w)) as [[|c0 data]|] eqn:Hget; simplify_eq/=;
    try apply Hsame.
  destruct (decode_token _) as [[[m a] b]|]; simplify_eq/=; try apply Hsame.
  destruct (sample_lookup _ a); simplify_eq/=; try apply Hsame.
  destruct (sample_lookup _ b); simplify_eq/=; try apply Hsame.
  destruct (expand_ranks _ _ _) as [ranks|]; simplify_eq/=; try apply Hsame.
  destruct can_vote; simplify_eq/=; try apply Hsame.
  destruct (head _) as [mrow|]; simplify_eq/=; try apply Hsame.
  unfold add_comparison in Hrun. simpl in Hrun.
  match type of Hrun with
  | context [add_ranks ?c ranks ?w0] =>
      destruct (add_ranks_tables c ranks w0)
        as (w1 & Hr & Hts & Hus & Hms & Hss & Hcs & Hrs & Hredis & Htasks & Hu);
      rewrite Hr in Hrun
  end.
  unfold Cache.set_nx_ex in Hrun. simpl in *.
  assert (test_sets (db w') = test_sets (db w1) ∧ users (db w') = users (db w1)
          ∧ metrics (db w') = metrics (db w1) ∧ samples (db w') = samples (db w1)
          ∧ uuid_calls w' = uuid_calls w1
          ∧ comparisons (db w') = comparisons (db w1)
          ∧ comparison_ranks (db w') = comparison_ranks (db w1))
    as (-> & -> & -> & -> & -> & -> & ->) by (crunch; done).
  rewrite Hts, Hus, Hms, Hss, Hcs, Hrs, Hu. split_and!; try done.
  eexists [_], _. split_and!; [done | done | simpl; lia | done].
Qed.

(** X4. A vote request never changes or deletes a stored row and draws no
    UUID: the reference tables are as before, and the ledger only grows, by
    at most one Comparison row, ComparisonRank rows being added only
    together with it. *)
Theorem vote_store_append_only now request request_obj user_uuid (w : World) :
  let w' := snd (post_comparison now request request_obj user_uuid w) in
  test_sets (db w') = test_sets (db w) ∧ users (db w') = users (db w)
  ∧ metrics (db w') = metrics (db w) ∧ samples (db w') = samples (db w)
  ∧ uuid_calls w' = uuid_calls w
  ∧ ∃ cs rs,
      comparisons (db w') = comparisons (db w) ++ cs
      ∧ comparison_ranks (db w') = comparison_ranks (db w) ++ rs
      ∧ (length cs ≤ 1)%nat
      ∧ (cs = [] → rs = []).
Proof.
  intros w'. subst w'.
  destruct (post_comparison_split now request request_obj user_uuid w)
    as (r0 & w0 & Hcaller & Hdb & Hredis & Htasks & Hpost).
  destruct (vote_caller_frame _ _ _ _ _ Hcaller) as (_ & _ & _ & Huuid).
  destruct r0 as [caller| |e]; [|done|].
  - rewrite Hpost.
    destruct (redeem_and_record now request caller w0) as [r w'] eqn:Hrun. simpl.
    destruct (redeem_store _ _ _ _ _ _ Hrun) as (Hts & Hus & Hms & Hss & Hu & Hledger).
    rewrite Hts, Hus, Hms, Hss, Hu, Huuid, Hdb. rewrite Hdb in Hledger. done.
  - destruct Hpost as [-> _]. simpl. rewrite Hdb, Huuid.
    split_and!; try done. exists [], []. rewrite !app_nil_r.
    split_and!; [done | done | simpl; lia | done].
Qed.

(** X5. In the cache a vote request touches two keys at most: the key of
    the token it presents and the recompute lock, which it takes only when
    no live lock was held and then with value "1" and an expiry 300 seconds
    ahead.  Every other key holds what it held. *)
Theorem vote_cache_footprint now request request_obj user_uuid (w : World) :
  let w' := snd (post_comparison now request request_obj user_uuid w) in
  (∀ k, k ≠ Payload.active_key (comparison_token request) → k ≠ Payload.lock_key →
        redis w' !! k = redis w !! k)
  ∧ (redis w' !! Payload.lock_key = redis w !! Payload.lock_key
     ∨ (Cache.get now Payload.lock_key (redis w) = None
        ∧ redis w' !! Payload.lock_key = Some (Cache.mkEntry "1" (Some (now + 300))))).
Proof.
  intros w'. subst w'.
  destruct (post_comparison_cases now request request_obj user_uuid w)
    as [(_ & _ & [Hredis | Hredis]) | (resp & c & _ & _ & Hlock)].
  - rewrite Hredis. auto.
  - rewrite Hredis. split.
    + intros k Hk _. by rewrite lookup_delete_ne.
    + left. apply lookup_delete_ne, PayloadFacts.active_key_not_lock.
  - destruct (Cache.get now Payload.lock_key (redis w)) as [x|] eqn:Hheld;
      destruct Hlock as [Hredis _]; rewrite Hredis.
    + split.
      * intros k Hk _. by rewrite lookup_delete_ne.
      * left. apply lookup_delete_ne, PayloadFacts.active_key_not_lock.
    + split.
      * intros k Hk Hl. rewrite lookup_insert_ne by done. by rewrite lookup_delete_ne.
      * right. split; [done|]. apply lookup_insert_eq.
Qed.

(** *** The samples a vote may rank *)

(** X6. An accepted vote request ranks only the two samples its token was
    issued for: every id in [ordered_sample_ids] is one of the token's two
    sample ids, and every ComparisonRank row it adds points to a sample row
    whose comparison id is one of the two. *)
Theorem ranked_samples_within_pair now request request_obj user_uuid (w w' : World) resp :
  post_comparison now request request_obj user_uuid w = (Returned resp, w') →
  ∃ metric a b rows,
    bound_to now w (comparison_token request) metric a b
    ∧ Forall (λ ranked : Z * U, snd ranked = a ∨ snd ranked = b)
        (rank_positions (ordered_sample_ids request))
    ∧ comparison_ranks (db w') = comparison_ranks (db w) ++ rows
    ∧ Forall (λ row, ∃ s, s ∈ samples (db w)
                          ∧ rank_sample_id row = sample_id s
                          ∧ (comparison_sample_id s = a ∨ comparison_sample_id s = b)) rows.
Proof.
  intros Hrun.
  pose proof (post_comparison_returned _ _ _ _ _ _ _ Hrun) as Hres.
  destruct (post_comparison_resolved now request request_obj _ _ Hres)
    as (ids & w0 & Hdb & Hredis & Htasks & Hpost).
  rewrite Hpost in Hrun.
  destruct (redeem_inversion _ _ _ _ _ _ _ _ Hrun)
    as (metric & a & b & s1 & s2 & ranks & Hb & Hs1 & Hs2 & Hranks & Hm & _).
  pose proof Hranks as Hexp.
  apply (expand_ranks_positions _ 0) in Hexp as [Hpos Hin].
  change (map ranked_id ranks = rank_positions (ordered_sample_ids request)) in Hpos.
  assert (Forall (λ ranked : Z * Sample U,
                    snd ranked ∈ samples (db w)
                    ∧ (comparison_sample_id (snd ranked) = a
                       ∨ comparison_sample_id (snd ranked) = b)) ranks) as Hpair.
  { eapply Forall_impl; [exact Hin|]. intros ranked. simpl.
    unfold pair_samples. rewrite Hdb. intros Hel.
    by apply list_elem_of_filter in Hel as [? ?]. }
  assert (∃ rows, comparison_ranks (db w') = comparison_ranks (db w) ++ rows
                  ∧ (rows = [] ∨ ∃ c, rows = map (rank_row c) ranks)) as (rows & Hrows & Hshape).
  { destruct (can_vote_of w user_uuid).
    - destruct (Hm eq_refl) as [mrow Hmrow].
      destruct (redeem_success now request (user_of w user_uuid) true ids w0
                  metric a b s1 s2 ranks mrow Hb Hs1 Hs2 Hranks (λ _, Hmrow))
        as (w1 & Hrun1 & Hc & Hr & _).
      rewrite Hrun in Hrun1. simplify_eq.
      eexists. rewrite Hr, Hdb. split; [done|]. right. by eexists.
    - destruct (redeem_ineligible_frame _ _ _ _ _ _ _ Hrun) as (Hdb' & _).
      exists []. rewrite Hdb', Hdb, app_nil_r. split; [done|]. by left. }
  exists metric, a, b, rows. split_and!.
  - unfold bound_to in *. by rewrite <- Hredis.
  - rewrite <- Hpos. apply Forall_fmap.
    eapply Forall_impl; [exact Hpair|]. intros ranked [_ Hab]. exact Hab.
  - exact Hrows.
  - destruct Hshape as [-> | [c ->]]; [constructor|].
    apply Forall_fmap. eapply Forall_impl; [exact Hpair|].
    intros ranked [Hel Hab]. simpl. eauto.
Qed.

(** X7. A cache entry under a token key whose value is not of the form
    metric:uuid:uuid makes the request fail with an unhandled [ValueError];
    the entry is deleted all the same and nothing is written. *)
Theorem undecodable_token_is_consumed now request request_obj user_uuid (w : World) data :
  caller_resolves w user_uuid →
  Cache.get now (Payload.active_key (comparison_token request)) (redis w) = Some data →
  data ≠ "" →
  decode_token data = None →
  let run := post_comparison now request request_obj user_uuid w in
  fst run = Raised ValueError
  ∧ http_status (fst run) = 500
  ∧ redis (snd run) !! Payload.active_key (comparison_token request) = None
  ∧ ledger (snd run) = ledger w
  ∧ tasks (snd run) = tasks w.
Proof.
  intros Hres Hget Hne Hdecode run.
  pose proof (post_comparison_consumes now request request_obj _ _ Hres) as Hgone.
  destruct (post_comparison_resolved now request request_obj _ _ Hres)
    as (ids & w0 & Hdb & Hredis & Htasks & Hpost).
  assert (fst run = Raised ValueError) as Hfail.
  { subst run. rewrite Hpost. destruct ids as [sid itid].
    unfold redeem_and_record. unfold_ops. unfold Cache.getdel. simpl.
    rewrite Hredis, Hget. destruct data as [|c0 data]; [done|]. by rewrite Hdecode. }
  assert (db (snd run) = db w ∧ tasks (snd run) = tasks w) as [Hdb' Htasks'].
  { subst run. rewrite Hpost in *.
    destruct (redeem_and_record _ _ _ w0) as [r w1] eqn:Hrun.
    simpl in Hfail. simpl. subst r.
    destruct (redeem_failure_frame _ _ _ _ _ _ Hrun) as (-> & -> & _); [done|].
    by rewrite Hdb, Htasks. }
  rewrite Hfail. split_and!; try done.
  unfold ledger. by rewrite Hdb'.
Qed.

(** *** From a batch to a vote *)

(** X8. A pair returned by a batch can be voted on: while its 3600
    seconds last, an anonymous vote that presents the pair's token and
    ranks its two samples is answered with both model names, consumes the
    token, and adds one Comparison row for the batch's metric with rank 1
    and rank 2 rows for the two samples.  The row's test set is the one
    derived from the two sample rows.  The UUIDs drawn by the batch are
    taken to be pairwise distinct and the pair's sample ids to be UUIDs of
    stored samples. *)
Theorem issued_token_is_redeemable now request request_obj user_id (w w' : World)
    toks t a b sample_1 sample_2 later request_obj' :
  get_comparison_batch now request request_obj user_id w = (Returned toks, w') →
  (∀ i j, (uuid_calls w ≤ i)%nat → (i < j)%nat → (j < uuid_calls w')%nat →
          uuid4 i ≠ uuid4 j) →
  t ∈ toks →
  token_samples t = [uuid_str a; uuid_str b] →
  sample_lookup (pair_samples w a b) a = Some sample_1 →
  sample_lookup (pair_samples w a b) b = Some sample_2 →
  later < now + 3600 →
  let vote := {| comparison_token := uuid_str (token t);
                 ordered_sample_ids := [One a; One b] |} in
  let run := post_comparison later vote request_obj' None w' in
  fst run = Returned {| sample_1_model := sample_model_name sample_1;
                        sample_2_model := sample_model_name sample_2 |}
  ∧ redis (snd run) !! Payload.active_key (uuid_str (token t)) = None
  ∧ ∃ mrow cmp,
      metric_row w (uuid_str (request_metric_id request)) = Some mrow
      ∧ comparisons (db (snd run)) = comparisons (db w) ++ [cmp]
      ∧ comparison_metric_id cmp = metric_id mrow
      ∧ comparison_user_id cmp = None
      ∧ comparison_test_set_id cmp = derive_test_set sample_1 sample_2
      ∧ comparison_ranks (db (snd run))
        = comparison_ranks (db w)
          ++ [ {| rank_comparison_id := comparison_id cmp;
                  rank_sample_id := sample_id sample_1; rank := 1 |};
               {| rank_comparison_id := comparison_id cmp;
                  rank_sample_id := sample_id sample_2; rank := 2 |} ].
Proof.
  intros Hrun Hfresh Ht Hsamples Hs1 Hs2 Hlater vote run.
  destruct (batch_inversion _ _ _ _ _ _ _ Hrun)
    as (ts & w0 & metric & rows & w1 & Hhead & Hsize & Hmetric & Hplan & Hloop
        & Hdb1 & Hredis1 & Htasks1 & Huuid1 & Hq1).
  assert (metric_external_id metric = request_metric_id request) as Hmid.
  { unfold metric_row in Hmetric. apply head_Some_elem_of in Hmetric.
    apply list_elem_of_filter in Hmetric as [Heq _]. by apply uuid_str_inj. }
  destruct (batch_loop_frame _ _ _ _ _ _ _ _ Hloop) as (Hdb' & _).
  assert (db w' = db w) as Hdb by (by rewrite Hdb', Hdb1).
  destruct (batch_loop_tokens now metric ts rows [] w1 w' toks (uuid_calls w) Hloop)
    as (_ & _ & Hstored); [done | simpl; lia | done | constructor |].
  pose proof (proj1 (Forall_forall _ _) Hstored t Ht) as (Hm & _ & Hlook).
  unfold token_entry in Hlook. rewrite Hsamples, Hm, Hmid in Hlook.
  assert (bound_to later w' (comparison_token vote)
            (uuid_str (request_metric_id request)) a b) as Hbound.
  { eexists. split; [by eapply CacheFacts.get_live | apply decode_token_join3]. }
  assert (pair_samples w' a b = pair_samples w a b) as Hpair
    by (unfold pair_samples; by rewrite Hdb).
  destruct (vote_effects later vote request_obj' None w'
              (uuid_str (request_metric_id request)) a b sample_1 sample_2
              [(1, sample_1); (2, sample_2)] metric)
    as (w2 & ids & Hvote & Hc & Hr & _); try done.
  - by rewrite Hpair.
  - by rewrite Hpair.
  - rewrite Hpair. simpl. unfold rank_item. simpl. by rewrite Hs1, Hs2.
  - unfold metric_row in *. by rewrite Hdb.
  - pose proof (post_comparison_consumes later vote request_obj' None w' I) as Hgone.
    subst run. rewrite Hvote in *. simpl in *.
    split_and!; [done | exact Hgone |].
    eexists metric, _. rewrite Hc, Hr, Hdb. split_and!; done.
Qed.

End MoreProperties.

(** ** Properties of the admin API client's paths *)

Module AdminClientFacts.
Import AdminClient.

Lemma append_cons (c : ascii) (a b : string) :
  String c a +:+ b = String c (a +:+ b).
Proof. reflexivity. Qed.

Lemma lstrip_slashes (j : nat) (p : string) :
  lstrip_slash (slashes j +:+ p) = lstrip_slash p.
Proof. induction j as [|j IH]; [done|]. cbn. exact IH. Qed.

Lemma rstrip_only_slashes (k : nat) : rstrip_slash (slashes k) = EmptyString.
Proof. induction k as [|k IH]; [done|]. cbn. by rewrite IH. Qed.

Lemma rstrip_slashes (b : string) (k : nat) :
  rstrip_slash (b +:+ slashes k) = rstrip_slash b.
Proof.
  induction b as [|c b IH].
  - apply rstrip_only_slashes.
  - rewrite append_cons. cbn. by rewrite IH.
Qed.

Lemma lstrip_decompose (p : string) :
  ∃ j, p = slashes j +:+ lstrip_slash p ∧ starts_with_slash (lstrip_slash p) = false.
Proof.
  induction p as [|c p (j & Hp & Hstart)].
  - by exists O.
  - simpl lstrip_slash. destruct (is_slash c) eqn:Hc.
    + exists (S j). split; [|done].
      change (slashes (S j)) with (String "/"%char (slashes j)).
      rewrite append_cons, <- Hp. by apply Ascii.eqb_eq in Hc as ->.
    + exists O. split; [done|]. simpl. exact Hc.
Qed.

Lemma rstrip_decompose (b : string) :
  ∃ k, b = rstrip_slash b +:+ slashes k ∧ ends_with_slash (rstrip_slash b) = false.
Proof.
  induction b as [|c b (k & Hb & Hend)].
  - by exists O.
  - simpl rstrip_slash. destruct (rstrip_slash b) as [|c' kept] eqn:Hkept.
    + destruct (is_slash c) eqn:Hc.
      * exists (S k). split; [|done].
        change (EmptyString +:+ slashes (S k)) with (String "/"%char (EmptyString +:+ slashes k)).
        rewrite <- Hb. by apply Ascii.eqb_eq in Hc as ->.
      * exists k. split.
        -- rewrite append_cons, <- Hb. done.
        -- simpl. exact Hc.
    + exists k. split.
      * rewrite append_cons, <- Hb. done.
      * exact Hend.
Qed.

(** X9. Trailing slashes of the base URL and leading slashes of the path
    do not change the URL the client builds. *)
Theorem make_path_ignores_extra_slashes (tok base path : string) (k j : nat) :
  _make_path {| client_token := tok; base_url := base +:+ slashes k |} (slashes j +:+ path)
  = _make_path {| client_token := tok; base_url := base |} path.
Proof. unfold _make_path. cbn. by rewrite lstrip_slashes, rstrip_slashes. Qed.

(** X10. The URL is the base URL without its trailing slashes, one slash,
    and the path without its leading slashes: the part before the joining
    slash does not end with a slash and the part after it does not start
    with one. *)
Theorem make_path_single_joint (self : Client) (path : string) :
  ∃ host rest k j,
    base_url self = host +:+ slashes k
    ∧ path = slashes j +:+ rest
    ∧ _make_path self path = host +:+ "/" +:+ rest
    ∧ request_url (post self path) = host +:+ "/" +:+ rest
    ∧ ends_with_slash host = false
    ∧ starts_with_slash rest = false.
Proof.
  destruct (lstrip_decompose path) as (j & Hp & Hstart).
  destruct (rstrip_decompose (base_url self)) as (k & Hb & Hend).
  exists (rstrip_slash (base_url self)), (lstrip_slash path), k, j.
  split_and!; done.
Qed.

End AdminClientFacts.

(** ** Properties of the pagination *)

Module PagingFacts.
Import Paging.

Lemma total_pages_bounds (total pageSize : Z) :
  1 ≤ pageSize → 0 ≤ total →
  1 ≤ total_pages_of total pageSize
  ∧ total ≤ total_pages_of total pageSize * pageSize
  ∧ (total_pages_of total pageSize - 1) * pageSize < Z.max total 1.
Proof.
  intros Hsize Htotal. unfold total_pages_of.
  destruct (Z.gtb_spec total 0) as [Hpos | Hzero].
  - pose proof (Z.div_mod (total + pageSize - 1) pageSize ltac:(lia)) as Hdm.
    pose proof (Z.mod_pos_bound (total + pageSize - 1) pageSize ltac:(lia)) as Hmod.
    split_and!; nia.
  - split_and!; lia.
Qed.

(** X11. [total_pages] is the least number of pages, at least one, that
    holds all items: it is 1 for no items and otherwise the ceiling of
    total_items / pageSize. *)
Theorem total_pages_least (total pageSize : Z) :
  1 ≤ pageSize → 0 ≤ total →
  let n := total_pages (paging 1 pageSize total) in
  1 ≤ n
  ∧ total ≤ n * pageSize
  ∧ (∀ m, 1 ≤ m → total ≤ m * pageSize → n ≤ m).
Proof.
  intros Hsize Htotal n. subst n. simpl.
  destruct (total_pages_bounds total pageSize Hsize Htotal) as (H1 & Hcover & Hleast).
  split_and!; try done.
  intros m Hm Hfit. nia.
Qed.

Lemma page_rows_empty_iff {A} (rows : list A) (pg pageSize : Z) :
  1 ≤ pg → 1 ≤ pageSize →
  page_rows rows pg pageSize = [] ↔ Z.of_nat (length rows) ≤ (pg - 1) * pageSize.
Proof.
  intros Hpage Hsize. unfold page_rows, offset_of.
  split.
  - intros Hnil. apply (f_equal length) in Hnil.
    rewrite length_take, length_drop in Hnil. simpl in Hnil. nia.
  - intros Hle. rewrite drop_ge; [by rewrite take_nil | nia].
Qed.

(** X12. [has_next] is set exactly when the following page has rows, and
    [has_previous] exactly when this page starts after the first row; the
    count of items being the number of rows of the base query. *)
Theorem has_next_iff_rows_remain {A} (rows : list A) (pg pageSize : Z) :
  1 ≤ pg → 1 ≤ pageSize →
  let p := paging pg pageSize (Z.of_nat (length rows)) in
  (has_next p = true ↔ page_rows rows (pg + 1) pageSize ≠ [])
  ∧ (has_next p = true ↔ pg * pageSize < Z.of_nat (length rows))
  ∧ (has_previous p = true ↔ 0 < offset_of pg pageSize).
Proof.
  intros Hpage Hsize p. subst p. simpl.
  pose proof (total_pages_bounds (Z.of_nat (length rows)) pageSize Hsize ltac:(lia))
    as (H1 & Hcover & Hleast).
  assert ((pg <? total_pages_of (Z.of_nat (length rows)) pageSize) = true
          ↔ pg * pageSize < Z.of_nat (length rows)) as Hnext.
  { rewrite Z.ltb_lt. split; intros; nia. }
  split_and!.
  - rewrite Hnext, (page_rows_empty_iff rows (pg + 1) pageSize) by lia.
    replace (pg + 1 - 1) with pg by lia. lia.
  - exact Hnext.
  - unfold offset_of. rewrite Z.gtb_gt. split; intros; nia.
Qed.

Lemma pages_from_take {A} (rows : list A) (pageSize first : Z) (n : nat) :
  1 ≤ first → 1 ≤ pageSize →
  pages_from rows pageSize first n
  = take (n * Z.to_nat pageSize) (drop (Z.to_nat ((first - 1) * pageSize)) rows).
Proof.
  intros Hfirst Hsize. revert first Hfirst.
  induction n as [|n IH]; intros first Hfirst; simpl; [done|].
  rewrite IH by lia. unfold page_rows, offset_of.
  replace (Z.to_nat ((first + 1 - 1) * pageSize))
    with (Z.to_nat ((first - 1) * pageSize) + Z.to_nat pageSize)%nat by nia.
  rewrite <- drop_drop. apply take_take_drop.
Qed.

(** X13. Going through pages 1 to [total_pages] yields every row of the
    base query exactly once and in order, and any page after the last is
    empty; the ordered rows being the same list for every page. *)
Theorem pages_partition_rows {A} (rows : list A) (pageSize : Z) :
  1 ≤ pageSize →
  let n := total_pages (paging 1 pageSize (Z.of_nat (length rows))) in
  pages_from rows pageSize 1 (Z.to_nat n) = rows
  ∧ ∀ pg, n < pg → page_rows rows pg pageSize = [].
Proof.
  intros Hsize n. subst n. simpl.
  pose proof (total_pages_bounds (Z.of_nat (length rows)) pageSize Hsize ltac:(lia))
    as (H1 & Hcover & Hleast).
  split.
  - rewrite pages_from_take by lia. simpl. rewrite drop_0.
    apply take_ge. nia.
  - intros pg Hpg. apply page_rows_empty_iff; [lia | lia | nia].
Qed.

End PagingFacts.

(** ** Properties of statement preparation *)

Module PrepareFacts.
Import Prepare.

(** X14. Once the cursor is open it is closed exactly once, as the last
    call, whatever fails in between; when opening it fails nothing else is
    called and the exception propagates. *)
Theorem cursor_closed_last (fails : Call → bool) :
  let run := prepare_statements fails [] in
  if fails OpenCursor then run = (Some OpenCursor, [OpenCursor])
  else ∃ middle,
         snd run = OpenCursor :: middle ++ [CloseCursor]
         ∧ (CloseCursor ∉ middle) ∧ (OpenCursor ∉ middle).
Proof.
  intros run. subst run.
  unfold prepare_statements, try_except_finally, seq_run, call. simpl.
  destruct (fails OpenCursor); [done|].
  destruct (fails (ExecutePrepare "comparison_batch_query"));
    destruct (fails (ExecutePrepare "comparison_batch_query_priority"));
    destruct (fails Commit); destruct (fails Rollback); destruct (fails CloseCursor);
    simpl;
    match goal with
    | |- ∃ middle, ?t = _ ∧ _ => exists (removelast (tail t))
    end; simpl; (split; [reflexivity|]);
    split; intros Hin; repeat (apply elem_of_cons in Hin as [Hin|Hin]; [done|]);
    by apply elem_of_nil in Hin.
Qed.

(** X15. A failure to prepare or to commit does not leave the function:
    when opening the cursor, the rollback and the close succeed, the
    function returns normally.  The commit is issued exactly when both
    statements were prepared, a rollback exactly when a statement or the
    commit failed, and the second statement is not tried after the first
    failed. *)
Theorem prepare_failure_is_swallowed (fails : Call → bool) :
  fails OpenCursor = false →
  fails Rollback = false →
  fails CloseCursor = false →
  let run := prepare_statements fails [] in
  let first := ExecutePrepare "comparison_batch_query" in
  let second := ExecutePrepare "comparison_batch_query_priority" in
  fst run = None
  ∧ (Commit ∈ snd run ↔ fails first = false ∧ fails second = false)
  ∧ (Rollback ∈ snd run
     ↔ fails first = true ∨ fails second = true ∨ fails Commit = true)
  ∧ (fails first = true → second ∉ snd run).
Proof.
  intros Hopen Hrollback Hclose run first second. subst run first second.
  unfold prepare_statements, try_except_finally, seq_run, call. simpl.
  rewrite Hopen, Hrollback, Hclose.
  destruct (fails (ExecutePrepare "comparison_batch_query"));
    destruct (fails (ExecutePrepare "comparison_batch_query_priority"));
    destruct (fails Commit); simpl; split_and!; try done.
  all: rewrite ?elem_of_cons, ?elem_of_nil; intuition (try discriminate; auto).
Qed.

End PrepareFacts.

(** ** Properties of the [excludeIds] parsing *)

Section ExcludeIdsFacts.
Context {Char : Type} `{!CodePoints Char}.

Lemma split_comma_nonempty (s : list Char) : split_comma s ≠ [].
Proof.
  induction s as [|c rest IH]; simpl; [done|].
  destruct (decide (c = comma)); [done|].
  by destruct (split_comma rest).
Qed.

Lemma split_comma_pieces (s : list Char) :
  Forall (λ piece, comma ∉ piece) (split_comma s).
Proof.
  induction s as [|c rest IH]; simpl.
  - repeat constructor. apply not_elem_of_nil.
  - destruct (decide (c = comma)).
    + constructor; [apply not_elem_of_nil | done].
    + destruct (split_comma rest) as [|piece pieces].
      * repeat constructor. rewrite list_elem_of_singleton. congruence.
      * inversion IH; subst. constructor; [|done].
        rewrite elem_of_cons. intros [? | ?]; [congruence | done].
Qed.

Lemma split_comma_whole (id : list Char) : comma ∉ id → split_comma id = [id].
Proof.
  induction id as [|c rest IH]; simpl; [done|].
  rewrite elem_of_cons. intros Hnot.
  destruct (decide (c = comma)) as [-> | _]; [by destruct Hnot; left|].
  rewrite IH; [done|]. intros ?. apply Hnot. by right.
Qed.

Lemma split_comma_app (id rest : list Char) :
  comma ∉ id → split_comma (id ++ comma :: rest) = id :: split_comma rest.
Proof.
  induction id as [|c id IH]; simpl.
  - intros _. by destruct (decide (comma = comma)).
  - rewrite elem_of_cons. intros Hnot.
    destruct (decide (c = comma)) as [-> | _]; [by destruct Hnot; left|].
    rewrite IH; [done|]. intros ?. apply Hnot. by right.
Qed.

Lemma lstrip_suffix (s : list Char) : ∃ pre, s = pre ++ lstrip s ∧ spaces pre.
Proof.
  induction s as [|c rest (pre & Hpre & Hsp)]; simpl.
  - exists []. split; [done | constructor].
  - destruct (isspace c) eqn:Hc.
    + exists (c :: pre). split; [by rewrite Hpre at 1 | by constructor].
    + exists []. split; [done | constructor].
Qed.

Lemma rstrip_prefix (s : list Char) : ∃ post, s = rstrip s ++ post ∧ spaces post.
Proof.
  induction s as [|c rest (post & Hpost & Hsp)]; simpl.
  - exists []. split; [done | constructor].
  - destruct (rstrip rest) as [|c' kept] eqn:Hkept.
    + destruct (isspace c) eqn:Hc.
      * exists (c :: post). simpl in *. split; [by rewrite Hpost at 1 | by constructor].
      * exists post. simpl in *. split; [by rewrite Hpost at 1 | done].
    + exists post. split; [|done]. simpl. by rewrite Hpost at 1.
Qed.

Lemma lstrip_head (s : list Char) c : head (lstrip s) = Some c → isspace c = false.
Proof.
  induction s as [|c0 rest IH]; simpl; [done|].
  destruct (isspace c0) eqn:Hc; [done|]. simpl. congruence.
Qed.

Lemma rstrip_last (s : list Char) c : last (rstrip s) = Some c → isspace c = false.
Proof.
  induction s as [|c0 rest IH]; simpl; [done|].
  destruct (rstrip rest) as [|c' kept] eqn:Hkept.
  - destruct (isspace c0) eqn:Hc; [done|]. simpl. congruence.
  - rewrite last_cons_cons. exact IH.
Qed.

Lemma lstrip_last (s : list Char) c : last (lstrip s) = Some c → last s = Some c.
Proof.
  destruct (lstrip_suffix s) as (pre & Hpre & _).
  intros Hlast. rewrite Hpre, last_app, Hlast. done.
Qed.

Lemma rstrip_spaces (s : list Char) : spaces s → rstrip s = [].
Proof.
  induction 1 as [|c rest Hc _ IH]; simpl; [done|]. by rewrite IH, Hc.
Qed.

Lemma strip_nil_iff (s : list Char) : strip s = [] ↔ spaces s.
Proof.
  unfold strip. split.
  - intros Hnil.
    destruct (rstrip_prefix s) as (post & Hpost & Hsp).
    destruct (lstrip_suffix (rstrip s)) as (pre & Hpre & Hsp').
    rewrite Hnil, app_nil_r in Hpre. rewrite Hpost, Hpre. by apply Forall_app.
  - intros Hsp. by rewrite rstrip_spaces.
Qed.

Lemma strip_sub (s : list Char) c : c ∈ strip s → c ∈ s.
Proof.
  unfold strip. intros Hin.
  destruct (rstrip_prefix s) as (post & Hpost & _).
  destruct (lstrip_suffix (rstrip s)) as (pre & Hpre & _).
  rewrite Hpost, Hpre, !elem_of_app. auto.
Qed.

Lemma strip_clean (id : list Char) : clean_id id → strip id = id.
Proof.
  intros (Hne & _ & Hhead & Hlast). unfold strip.
  assert (rstrip id = id) as ->.
  { clear Hhead Hne. induction id as [|c rest IH]; simpl; [done|].
    destruct rest as [|c' rest'].
    - simpl. by rewrite (Hlast c).
    - rewrite IH; [done|]. intros c0 Hc0. apply Hlast. by rewrite last_cons_cons. }
  destruct id as [|c rest]; [done|]. simpl. by rewrite (Hhead c).
Qed.

Lemma omap_nil_iff {A B} (f : A → option B) (l : list A) :
  omap f l = [] ↔ Forall (λ x, f x = None) l.
Proof.
  induction l as [|x l IH]; simpl; [by split; [constructor|]|].
  destruct (f x) eqn:Hx.
  - split; [done|]. intros Hall. apply Forall_cons in Hall as [? _]. congruence.
  - rewrite IH. split; [by constructor | by intros [_ ?]%Forall_cons].
Qed.

Lemma spaces_pieces (s : list Char) :
  Forall spaces (split_comma s)
  ↔ Forall (λ c, c = comma ∨ isspace c = true) s.
Proof.
  induction s as [|c rest IH]; simpl.
  - split; intros; repeat constructor.
  - destruct (decide (c = comma)) as [-> | Hne].
    + rewrite !Forall_cons, IH. split; [intros [_ ?]; auto | intros [_ ?]].
      split; [constructor | done].
    + pose proof (split_comma_nonempty rest) as Hnil.
      destruct (split_comma rest) as [|piece pieces]; [done|].
      rewrite !Forall_cons in IH. rewrite !Forall_cons. unfold spaces at 1.
      rewrite Forall_cons, <- IH. unfold spaces. intuition congruence.
Qed.

(** X16. Every id taken from [excludeIds] is non-empty, contains no comma
    and has no whitespace at either end. *)
Theorem exclude_list_clean (excludeIds : list Char) :
  Forall clean_id (exclude_list excludeIds).
Proof.
  apply Forall_forall. intros id Hin. unfold exclude_list in Hin.
  apply list_elem_of_omap in Hin as (piece & Hpiece & Hid).
  destruct (nonempty (strip piece)) eqn:Hne; simplify_eq.
  pose proof (proj1 (Forall_forall _ _) (split_comma_pieces excludeIds) _ Hpiece) as Hcomma.
  split_and!.
  - by destruct (strip piece).
  - intros Hc. by apply Hcomma, strip_sub.
  - intros c. apply lstrip_head.
  - intros c Hlast. unfold strip in Hlast.
    by apply lstrip_last, rstrip_last in Hlast.
Qed.

(** X17. No id is excluded, and no filter is added to the query, exactly
    when [excludeIds] is absent or made of commas and whitespace only. *)
Theorem nothing_excluded_iff (excludeIds : list Char) :
  (exclude_list excludeIds = []
   ↔ Forall (λ c, c = comma ∨ isspace c = true) excludeIds)
  ∧ (excluded (Some excludeIds) = None
     ↔ Forall (λ c, c = comma ∨ isspace c = true) excludeIds)
  ∧ excluded None = None.
Proof.
  assert (exclude_list excludeIds = []
          ↔ Forall (λ c, c = comma ∨ isspace c = true) excludeIds) as Hiff.
  { rewrite <- spaces_pieces. unfold exclude_list. rewrite omap_nil_iff.
    apply Forall_iff. intros piece. rewrite <- strip_nil_iff.
    destruct (strip piece); simpl; split; done. }
  split_and!; [done | | done].
  destruct excludeIds as [|c rest]; simpl.
  - split; [constructor | done].
  - rewrite <- Hiff. by destruct (exclude_list (c :: rest)).
Qed.

(** X18. Joining clean ids with commas and passing the result as
    [excludeIds] excludes exactly those ids, in order. *)
Theorem exclude_list_join (ids : list (list Char)) :
  Forall clean_id ids →
  exclude_list (join_comma ids) = ids
  ∧ (ids ≠ [] → excluded (Some (join_comma ids)) = Some ids).
Proof.
  intros Hclean.
  assert (exclude_list (join_comma ids) = ids) as Hlist.
  { unfold exclude_list.
    assert (omap (λ id, if nonempty (strip id) then Some (strip id) else None) ids = ids)
      as Homap.
    { induction Hclean as [|id rest Hid _ IH]; [done|].
      cbn [omap list_omap]. rewrite (strip_clean id Hid).
      destruct Hid as (Hne & _). destruct id as [|c id]; [done|].
      cbn [nonempty]. by f_equal. }
    destruct ids as [|id rest]; [done|].
    assert (split_comma (join_comma (id :: rest)) = id :: rest) as ->; [|done].
    clear Homap. revert id Hclean.
    induction rest as [|id2 rest IH]; intros id Hclean.
    - simpl. apply split_comma_whole.
      apply Forall_cons in Hclean as [(_ & ? & _) _]. done.
    - apply Forall_cons in Hclean as [(_ & Hcomma & _) Hrest].
      change (join_comma (id :: id2 :: rest))
        with (id ++ comma :: join_comma (id2 :: rest)).
      rewrite split_comma_app by done. by rewrite IH. }
  split; [done|].
  intros Hne. unfold excluded.
  destruct (join_comma ids) as [|c rest] eqn:Hjoin.
  - destruct ids as [|id ids']; [done|].
    apply Forall_cons in Hclean as [(Hid & _) _].
    destruct ids'; simpl in Hjoin; [done|]. by destruct id.
  - rewrite Hlist. by destruct ids.
Qed.

End ExcludeIdsFacts.

(** ** Properties of the sample statistics *)

Module ModelStatsFacts.
Import ModelStats.
Section Facts.
Context {F : Type} `{!Scores F}.

Lemma sum_of_app (f : @SampleLeaderboard F → Z) (l1 l2 : list (@SampleEntry F)) :
  sum_of f (l1 ++ l2) = sum_of f l1 + sum_of f l2.
Proof. induction l1 as [|x l1 IH]; simpl; [done|]. rewrite IH. lia. Qed.

Lemma sum_of_permutation (f : @SampleLeaderboard F → Z) (l1 l2 : list (@SampleEntry F)) :
  l1 ≡ₚ l2 → sum_of f l1 = sum_of f l2.
Proof. induction 1; simpl; lia. Qed.

Lemma slice_full (l : list (@SampleEntry F)) (i B : nat) :
  slice l (Z.of_nat i * Z.of_nat B)
    (Z.min (Z.of_nat i * Z.of_nat B + Z.of_nat B) (Z.of_nat (length l)))
  = take (Nat.min B (length l - i * B)) (drop (i * B) l).
Proof. unfold slice. f_equal; [lia | f_equal; lia]. Qed.

(** The guard [votes > 0] keeps the division of two ints away from zero. *)
Lemma rate_defined (wins votes : Z) : ∃ r : F, rate wins votes = Some r.
Proof.
  unfold rate, int_div. destruct (Z.gtb_spec votes 0); [|by eexists].
  destruct (Z.eqb_spec votes 0); [lia | by eexists].
Qed.

Lemma top_samples_defined (l : list (@SampleEntry F)) :
  ∃ tops, mapM top_sample l = Some tops ∧ length tops = length l.
Proof.
  assert (is_Some (mapM top_sample l)) as [tops Htops].
  { apply mapM_is_Some, Forall_forall. intros entry _. simpl. unfold top_sample.
    destruct (rate_defined (win_count (leaderboard entry)) (vote_count (leaderboard entry)))
      as [r ->]. done. }
  exists tops. split; [done|]. symmetry. by eapply length_mapM.
Qed.

Lemma bucket_loop_cons (i : Z) (rest : list Z) (sorted : list (@SampleEntry F))
    (T B : Z) (name : string) :
  bucket_loop (i :: rest) sorted T B name
  = if (i * B >=? T)%Z then Some []
    else match make_bucket (i + 1) (slice sorted (i * B) (Z.min (i * B + B) T)) name with
         | None => None
         | Some b =>
             match bucket_loop rest sorted T B name with
             | None => None
             | Some bs => Some (b :: bs)
             end
         end.
Proof. reflexivity. Qed.

(** A run of full buckets: [n] buckets from index [i] on, each of [B]
    samples, as long as the sorted list reaches that far. *)
Lemma bucket_loop_full (sorted : list (@SampleEntry F)) (B : nat) (name : string)
    (n i : nat) (rest : list Z) :
  (1 ≤ B)%nat → ((i + n) * B ≤ length sorted)%nat →
  ∃ bl,
    bucket_loop ((Z.of_nat <$> seq i n) ++ rest) sorted
      (Z.of_nat (length sorted)) (Z.of_nat B) name
    = (λ bs, bl ++ bs)
        <$> bucket_loop rest sorted (Z.of_nat (length sorted)) (Z.of_nat B) name
    ∧ length bl = n
    ∧ Forall (λ b, bucket_sample_count b = Z.of_nat B) bl
    ∧ map bucket bl = (λ j, Z.of_nat j + 1) <$> seq i n
    ∧ ∀ f g,
        (∀ number samples b, make_bucket number samples name = Some b →
                             g b = sum_of f samples) →
        over_buckets g bl = sum_of f (take (n * B) (drop (i * B) sorted)).
Proof.
  intros HB. revert i. induction n as [|n IH]; intros i Hfit.
  - exists []. simpl. split_and!; try done.
    by destruct (bucket_loop rest _ _ _ _).
  - destruct (IH (S i)) as (bl & Hloop & Hlen & Hcount & Hnum & Hsum); [lia|].
    change (seq i (S n)) with (i :: seq (S i) n).
    rewrite fmap_cons, <- app_comm_cons, bucket_loop_cons.
    destruct (Z.geb_spec (Z.of_nat i * Z.of_nat B) (Z.of_nat (length sorted))); [nia|].
    rewrite slice_full.
    replace (Nat.min B (length sorted - i * B)) with B by nia.
    assert (length (take B (drop (i * B) sorted)) = B) as Hslice.
    { rewrite length_take, length_drop. nia. }
    destruct (rate_defined (sum_of win_count (take B (drop (i * B) sorted)))
                (sum_of vote_count (take B (drop (i * B) sorted)))) as [r Hr].
    unfold make_bucket at 1, score_div. cbv zeta. rewrite Hr, Hslice.
    destruct (Z.eqb_spec (Z.of_nat B) 0); [lia|].
    rewrite Hloop.
    eexists (_ :: bl).
    split; [by destruct (bucket_loop rest _ _ _ _)|].
    split_and!.
    + simpl. by rewrite Hlen.
    + constructor; [done | exact Hcount].
    + simpl. rewrite Hnum. done.
    + intros f g Hg. simpl. rewrite (Hsum f g Hg).
      erewrite (Hg _ (take B (drop (i * B) sorted))); last first.
      { unfold make_bucket, score_div. cbv zeta. rewrite Hr, Hslice.
        destruct (Z.eqb_spec (Z.of_nat B) 0); [lia|]. reflexivity. }
      rewrite <- sum_of_app. f_equal.
      replace (S i * B)%nat with (i * B + B)%nat by lia.
      rewrite <- drop_drop. apply take_take_drop.
Qed.

Lemma bucket_loop_break (sorted : list (@SampleEntry F)) (B i : nat) (name : string)
    (rest : list Z) :
  (length sorted ≤ i * B)%nat →
  bucket_loop (Z.of_nat i :: rest) sorted (Z.of_nat (length sorted)) (Z.of_nat B) name
  = Some [].
Proof.
  intros Hle. simpl.
  destruct (Z.geb_spec (Z.of_nat i * Z.of_nat B) (Z.of_nat (length sorted))); [done | nia].
Qed.

(** The buckets of a non-empty sorted list. *)
Lemma buckets_of_sorted (sorted : list (@SampleEntry F)) (name : string) :
  sorted ≠ [] →
  let T := length sorted in
  let B := Nat.max 1 (T / 10) in
  ∃ buckets,
    bucket_loop range10 sorted (Z.of_nat T) (Z.max 1 (Z.of_nat T / 10)) name = Some buckets
    ∧ length buckets = Nat.min 10 T
    ∧ Forall (λ b, bucket_sample_count b = Z.of_nat B) buckets
    ∧ map bucket buckets = (λ j, Z.of_nat j + 1) <$> seq 0 (Nat.min 10 T)
    ∧ ∀ f g,
        (∀ number samples b, make_bucket number samples name = Some b →
                             g b = sum_of f samples) →
        over_buckets g buckets = sum_of f (take (10 * B) sorted).
Proof.
  intros Hne T B.
  assert (0 < T)%nat as HT by (subst T; destruct sorted; simpl; [done | lia]).
  assert (Z.max 1 (Z.of_nat T / 10) = Z.of_nat B) as ->.
  { subst B. rewrite Nat2Z.inj_max, Nat2Z.inj_div. done. }
  destruct (decide (T < 10)%nat) as [Hsmall | Hbig].
  - assert (B = 1%nat) as HB.
    { subst B. rewrite Nat.div_small by done. done. }
    assert (range10 = (Z.of_nat <$> seq 0 T) ++ Z.of_nat T :: (Z.of_nat <$> seq (S T) (9 - T)))
      as ->.
    { unfold range10. replace 10%nat with (T + S (9 - T))%nat at 1 by lia.
      rewrite seq_app, fmap_app. simpl. done. }
    destruct (bucket_loop_full sorted B name T 0 (Z.of_nat T :: (Z.of_nat <$> seq (S T) (9 - T))))
      as (bl & Hloop & Hlen & Hcount & Hnum & Hsum); [lia | subst T; lia |].
    fold T in Hloop. rewrite Hloop, bucket_loop_break by (subst T; lia).
    replace (Nat.min 10 T) with T by lia.
    exists bl. split; [simpl; by rewrite app_nil_r|].
    split_and!; try done.
    intros f g Hg. rewrite (Hsum f g Hg). rewrite HB, drop_0.
    rewrite !take_ge; [done | unfold T; lia | unfold T; lia].
  - assert (1 ≤ B ∧ 10 * B ≤ T)%nat as [HB Hfit].
    { subst B. pose proof (Nat.div_mod_eq T 10). pose proof (Nat.mod_upper_bound T 10). lia. }
    destruct (bucket_loop_full sorted B name 10 0 [])
      as (bl & Hloop & Hlen & Hcount & Hnum & Hsum); [lia | subst T; lia |].
    rewrite app_nil_r in Hloop. fold range10 in Hloop. fold T in Hloop.
    rewrite Hloop.
    replace (Nat.min 10 T) with 10%nat by lia.
    exists bl. split; [simpl; by rewrite app_nil_r|].
    split_and!; done.
Qed.

Lemma make_bucket_fields number samples name b :
  make_bucket number samples name = Some b →
  total_votes b = sum_of vote_count samples
  ∧ total_wins b = sum_of win_count samples
  ∧ total_losses b = sum_of loss_count samples
  ∧ total_ties b = sum_of tie_count samples.
Proof.
  unfold make_bucket. destruct (rate _ _); [|done].
  destruct (score_div _ _); intros; simplify_eq. done.
Qed.

(** X19. The statistics are computed without a division by zero for every
    list of sample rows: neither the average score of a bucket nor any of
    the win rates (of a bucket, of a top sample, of the model) divides by
    zero.  For a non-empty list there are min(10, n)
    buckets, numbered from 1, each of exactly max(1, n // 10) samples, and
    the top samples are the first 20 of the sorted rows at most. *)
Theorem statistics_buckets (name : string) (model_entry_elo : F)
    (sample_entries : list (@SampleEntry F)) :
  ∃ response,
    sample_statistics name model_entry_elo sample_entries = Some response
    ∧ sample_count response = Z.of_nat (length sample_entries)
    ∧ (sample_entries = [] →
       bucket_stats response = None
       ∧ statistics response
         = Some [("message", "No sample data available for this model")])
    ∧ (sample_entries ≠ [] →
       ∃ buckets tops,
         bucket_stats response = Some buckets
         ∧ top_samples response = Some tops
         ∧ length buckets = Nat.min 10 (length sample_entries)
         ∧ Forall (λ b, bucket_sample_count b
                        = Z.max 1 (Z.of_nat (length sample_entries) / 10)) buckets
         ∧ map bucket buckets
           = (λ j, Z.of_nat j + 1) <$> seq 0 (Nat.min 10 (length sample_entries))
         ∧ length tops = Nat.min 20 (length sample_entries)).
Proof.
  unfold sample_statistics.
  destruct sample_entries as [|entry entries].
  - simpl. eexists. split_and!; try done.
  - set (l := entry :: entries).
    destruct (Z.eqb_spec (Z.of_nat (length l)) 0) as [Hzero | _]; [by subst l|].
    pose proof (sorted_desc_permutation _ (λ x, elo_score (leaderboard x)) l) as Hperm.
    pose proof (Permutation_length Hperm) as Hlen.
    set (sorted := sorted_desc (λ x, elo_score (leaderboard x)) l) in *.
    assert (sorted ≠ []) as Hne by (intros Hnil; rewrite Hnil in Hlen; by subst l).
    destruct (buckets_of_sorted sorted name Hne) as (buckets & Hloop & Hcount & Hsize & Hnum & _).
    cbv zeta in Hloop, Hcount, Hsize, Hnum.
    rewrite Hlen in Hloop, Hcount, Hsize, Hnum. rewrite Hloop.
    destruct (top_samples_defined (take 20 sorted)) as (tops & -> & Htops).
    destruct (rate_defined (sum_of win_count l) (sum_of vote_count l)) as [r ->].
    eexists. split_and!; try done.
    intros _. eexists _, _. simpl. split_and!; try done.
    + eapply Forall_impl; [exact Hsize|]. intros b ->.
      rewrite Nat2Z.inj_max, Nat2Z.inj_div. done.
    + rewrite Htops, length_take. by rewrite Hlen.
Qed.

(** X20. The buckets count the first 10 * max(1, n // 10) rows of the
    sorted list only: their sizes, votes, wins, losses and ties add up to
    those of these rows.  For ten rows or more the last n mod 10 rows of the
    sorted list are in no bucket, and the global totals of votes and wins
    are the bucket totals plus the totals of those rows. *)
Theorem buckets_cover_best_samples (name : string) (model_entry_elo : F)
    (sample_entries : list (@SampleEntry F)) :
  sample_entries ≠ [] →
  ∃ response buckets globals,
    sample_statistics name model_entry_elo sample_entries = Some response
    ∧ bucket_stats response = Some buckets
    ∧ global_stats response = Some globals
    ∧ over_buckets bucket_sample_count buckets = Z.of_nat (length (bucketed sample_entries))
    ∧ over_buckets total_votes buckets = sum_of vote_count (bucketed sample_entries)
    ∧ over_buckets total_wins buckets = sum_of win_count (bucketed sample_entries)
    ∧ over_buckets total_losses buckets = sum_of loss_count (bucketed sample_entries)
    ∧ over_buckets total_ties buckets = sum_of tie_count (bucketed sample_entries)
    ∧ global_total_votes globals
      = over_buckets total_votes buckets + sum_of vote_count (unbucketed sample_entries)
    ∧ global_total_wins globals
      = over_buckets total_wins buckets + sum_of win_count (unbucketed sample_entries)
    ∧ length (unbucketed sample_entries)
      = (if decide (length sample_entries < 10)%nat then 0
         else length sample_entries mod 10)%nat.
Proof.
  intros Hne0. unfold sample_statistics, bucketed, unbucketed.
  destruct (Z.eqb_spec (Z.of_nat (length sample_entries)) 0) as [Hzero | _].
  { destruct sample_entries; [done | simpl in Hzero; lia]. }
  pose proof (sorted_desc_permutation _ (λ x, elo_score (leaderboard x)) sample_entries)
    as Hperm.
  pose proof (Permutation_length Hperm) as Hlen.
  set (sorted := sorted_desc (λ x, elo_score (leaderboard x)) sample_entries) in *.
  assert (sorted ≠ []) as Hne.
  { intros Hnil. rewrite Hnil in Hlen. by destruct sample_entries. }
  destruct (buckets_of_sorted sorted name Hne) as (buckets & Hloop & Hcount & Hsize & Hnum & Hsum).
  cbv zeta in Hloop, Hcount, Hsize, Hnum, Hsum.
  rewrite Hlen in Hloop, Hcount, Hsize, Hnum, Hsum. rewrite Hloop.
  destruct (top_samples_defined (take 20 sorted)) as (tops & -> & _).
  destruct (rate_defined (sum_of win_count sample_entries)
              (sum_of vote_count sample_entries)) as [r ->].
  set (T := length sample_entries) in *.
  set (B := Nat.max 1 (T / 10)) in *.
  assert (∀ f, sum_of f sample_entries
               = sum_of f (take (10 * B) sorted) + sum_of f (drop (10 * B) sorted)) as Hsplit.
  { intros f. rewrite <- sum_of_app, take_drop. symmetry. by apply sum_of_permutation. }
  eexists _, buckets, _. split_and!; [done | done | done | ..];
    cbn [global_total_votes global_total_wins].
  - assert (over_buckets bucket_sample_count buckets = Z.of_nat (length buckets) * Z.of_nat B)
      as ->.
    { clear -Hsize. induction Hsize as [|b bs Hb _ IH]; [done|].
      unfold over_buckets in *. cbn [foldr length]. rewrite IH, Hb. lia. }
    rewrite Hcount, length_take, Hlen. fold T.
    subst B. pose proof (Nat.div_mod_eq T 10). pose proof (Nat.mod_upper_bound T 10).
    destruct (decide (T < 10)%nat).
    + rewrite Nat.div_small by done. lia.
    + lia.
  - apply Hsum. intros ??? Hb. by apply make_bucket_fields in Hb as (-> & _).
  - apply Hsum. intros ??? Hb. by apply make_bucket_fields in Hb as (_ & -> & _).
  - apply Hsum. intros ??? Hb. by apply make_bucket_fields in Hb as (_ & _ & -> & _).
  - apply Hsum. intros ??? Hb. by apply make_bucket_fields in Hb as (_ & _ & _ & ->).
  - rewrite (Hsplit vote_count). f_equal. symmetry.
    apply Hsum. intros ??? Hb. by apply make_bucket_fields in Hb as (-> & _).
  - rewrite (Hsplit win_count). f_equal. symmetry.
    apply Hsum. intros ??? Hb. by apply make_bucket_fields in Hb as (_ & -> & _).
  - rewrite length_drop, Hlen. fold T.
    subst B. pose proof (Nat.div_mod_eq T 10). pose proof (Nat.mod_upper_bound T 10).
    destruct (decide (T < 10)%nat).
    + rewrite Nat.div_small by done. lia.
    + lia.
Qed.

End Facts.
End ModelStatsFacts.

(** ** The further properties on concrete inputs *)

Import PriorityFixture MoreFixture.

Lemma batch_returns_kept_rows_witness :
  ∃ toks,
    fst (priority_batch 2) = Returned toks
    ∧ map token_samples toks = [[id_str SampleA; id_str SampleB]]
    ∧ map token toks = [Token1]
    ∧ uuid_calls (snd (priority_batch 2)) = 1%nat.
Proof.
  destruct (@batch_returns_kept_rows Id id_codec priority_env 1000 (batch_request 2) tt None
              priority_world0 1 {| metric_id := 3; metric_external_id := Metric1 |}
              (take 2 priority_rows))
    as (toks & Hret & Hsamples & Htoks & Hcount).
  - reflexivity.
  - exact I.
  - unfold MAX_BATCH_SIZE. simpl. lia.
  - reflexivity.
  - reflexivity.
  - repeat constructor; simpl; lia.
  - assert (length toks = 1%nat) as Hlen.
    { apply (f_equal length) in Hsamples. rewrite !length_map in Hsamples. exact Hsamples. }
    rewrite Hlen in Htoks, Hcount.
    exists toks. split_and!; [exact Hret | exact Hsamples | exact Htoks | exact Hcount].
Defined.

Lemma short_row_fails_batch_witness :
  fst (priority_batch 3) = Raised IndexError
  ∧ uuid_calls (snd (priority_batch 3)) = 1%nat
  ∧ is_Some (redis (snd (priority_batch 3)) !! Payload.active_key (id_str Token1)).
Proof.
  destruct (@short_row_fails_batch Id id_codec priority_env 1000 (batch_request 3) tt None
              priority_world0 1 {| metric_id := 3; metric_external_id := Metric1 |}
              (take 2 priority_rows) [CUuid SampleA; CText "a.gltf"; CUuid SampleB] [])
    as (Hfail & _ & Hcount & Hkept).
  - reflexivity.
  - exact I.
  - unfold MAX_BATCH_SIZE. simpl. lia.
  - reflexivity.
  - reflexivity.
  - repeat constructor; simpl; lia.
  - simpl. lia.
  - split_and!; [exact Hfail | exact Hcount |].
    apply (Hkept 0%nat). vm_compute. lia.
Defined.

Lemma ranked_samples_within_pair_witness :
  ∃ metric a b rows,
    bound_to 1001 world1 (id_str Token1) metric a b
    ∧ Forall (λ ranked : Z * Id, snd ranked = a ∨ snd ranked = b)
        (rank_positions [One SampleA; One SampleB])
    ∧ comparison_ranks (db (snd (run_vote (vote 1001 [One SampleA; One SampleB] None) world1)))
      = comparison_ranks (db world1) ++ rows
    ∧ Forall (λ row, ∃ s, s ∈ samples (db world1)
                          ∧ rank_sample_id row = sample_id s
                          ∧ (comparison_sample_id s = a ∨ comparison_sample_id s = b)) rows.
Proof.
  apply (ranked_samples_within_pair 1001
           (vote_request (vote 1001 [One SampleA; One SampleB] None)) no_headers None world1
           (snd (run_vote (vote 1001 [One SampleA; One SampleB] None) world1)) both_models).
  vm_compute. reflexivity.
Defined.

Lemma undecodable_token_is_consumed_witness :
  fst (run_vote (vote 1001 [One SampleA; One SampleB] None) world_bad_token) = Raised ValueError
  ∧ redis (snd (run_vote (vote 1001 [One SampleA; One SampleB] None) world_bad_token))
      !! Payload.active_key (id_str Token1) = None
  ∧ ledger (snd (run_vote (vote 1001 [One SampleA; One SampleB] None) world_bad_token))
    = ledger world_bad_token.
Proof.
  destruct (undecodable_token_is_consumed 1001
              (vote_request (vote 1001 [One SampleA; One SampleB] None)) no_headers None
              world_bad_token "stale")
    as (Hfail & _ & Hgone & Hledger & _).
  - exact I.
  - vm_compute. reflexivity.
  - discriminate.
  - reflexivity.
  - split_and!; [exact Hfail | exact Hgone | exact Hledger].
Defined.

Lemma issued_token_is_redeemable_witness :
  fst (run_vote (vote 2000 [One SampleA; One SampleB] None) world2) = Returned both_models
  ∧ redis (snd (run_vote (vote 2000 [One SampleA; One SampleB] None) world2))
      !! Payload.active_key (id_str Token1) = None
  ∧ ∃ cmp,
      comparisons (db (snd (run_vote (vote 2000 [One SampleA; One SampleB] None) world2)))
      = [cmp]
      ∧ comparison_metric_id cmp = 3
      ∧ comparison_test_set_id cmp = Some 1.
Proof.
  destruct (issued_token_is_redeemable 1000 (batch_request 2) no_headers None world0 world2
              tokens2 first_token SampleA SampleB
              {| sample_id := 10; comparison_sample_id := SampleA;
                 sample_test_set_id := Some 1; sample_model_name := "model-a" |}
              {| sample_id := 11; comparison_sample_id := SampleB;
                 sample_test_set_id := Some 1; sample_model_name := "model-b" |}
              2000 no_headers)
    as (Hret & Hgone & mrow & cmp & Hmrow & Hcmp & Hmetric & _ & Hts & _).
  - vm_compute. reflexivity.
  - intros i j Hi Hij Hj. vm_compute in Hj.
    destruct i as [|i]; [|lia]. destruct j as [|[|j]]; [lia | | lia].
    simpl. discriminate.
  - vm_compute. left.
  - reflexivity.
  - reflexivity.
  - reflexivity.
  - lia.
  - split_and!; [exact Hret | exact Hgone |].
    exists cmp. vm_compute in Hmrow. injection Hmrow as <-.
    split_and!; [exact Hcmp | exact Hmetric | exact Hts].
Defined.

Lemma total_pages_least_witness :
  Paging.total_pages (Paging.paging 1 20 45) = 3
  ∧ ∀ m, 1 ≤ m → 45 ≤ m * 20 → 3 ≤ m.
Proof.
  destruct (PagingFacts.total_pages_least 45 20) as (_ & _ & Hleast); [lia | lia |].
  split; [reflexivity | exact Hleast].
Defined.

Lemma has_next_iff_rows_remain_witness :
  (Paging.has_next (Paging.paging 2 2 5) = true
   ↔ Paging.page_rows [10; 20; 30; 40; 50] 3 2 ≠ [])
  ∧ (Paging.has_next (Paging.paging 2 2 5) = true ↔ 2 * 2 < 5)
  ∧ (Paging.has_previous (Paging.paging 2 2 5) = true ↔ 0 < Paging.offset_of 2 2).
Proof.
  apply (PagingFacts.has_next_iff_rows_remain [10; 20; 30; 40; 50] 2 2); lia.
Defined.

Lemma pages_partition_rows_witness :
  Paging.pages_from [10; 20; 30; 40; 50] 2 1 3 = [10; 20; 30; 40; 50]
  ∧ ∀ pg, 3 < pg → Paging.page_rows [10; 20; 30; 40; 50] pg 2 = [].
Proof.
  apply (PagingFacts.pages_partition_rows [10; 20; 30; 40; 50] 2). lia.
Defined.

Lemma prepare_failure_is_swallowed_witness :
  fst (Prepare.prepare_statements fails_second []) = None
  ∧ Prepare.Rollback ∈ snd (Prepare.prepare_statements fails_second [])
  ∧ Prepare.Commit ∉ snd (Prepare.prepare_statements fails_second []).
Proof.
  destruct (PrepareFacts.prepare_failure_is_swallowed fails_second)
    as (Hnone & Hcommit & Hrollback & _); [reflexivity | reflexivity | reflexivity |].
  split_and!.
  - exact Hnone.
  - apply Hrollback. right. left. reflexivity.
  - intros Hin. apply Hcommit in Hin as [_ Hsecond]. discriminate Hsecond.
Defined.

Lemma exclude_list_join_witness :
  exclude_list (chars "a1,b2") = [chars "a1"; chars "b2"]
  ∧ excluded (Some (chars "a1,b2")) = Some [chars "a1"; chars "b2"].
Proof.
  destruct (exclude_list_join [chars "a1"; chars "b2"]) as [Hlist Hfilter].
  - repeat constructor; try discriminate.
    + intros Hin. repeat (apply elem_of_cons in Hin as [Hin | Hin]; [discriminate|]).
      by apply elem_of_nil in Hin.
    + intros c Hc. injection Hc as <-. reflexivity.
    + intros c Hc. injection Hc as <-. reflexivity.
    + intros Hin. repeat (apply elem_of_cons in Hin as [Hin | Hin]; [discriminate|]).
      by apply elem_of_nil in Hin.
    + intros c Hc. injection Hc as <-. reflexivity.
    + intros c Hc. injection Hc as <-. reflexivity.
  - split; [exact Hlist | apply Hfilter; discriminate].
Defined.

Lemma buckets_cover_best_samples_witness :
  ∃ response buckets globals,
    ModelStats.sample_statistics "model-a" (inject_Z 1000) twelve_entries = Some response
    ∧ ModelStats.bucket_stats response = Some buckets
    ∧ ModelStats.global_stats response = Some globals
    ∧ ModelStats.over_buckets ModelStats.bucket_sample_count buckets = 10
    ∧ ModelStats.over_buckets ModelStats.total_votes buckets = 20
    ∧ ModelStats.global_total_votes globals = 20 + 8
    ∧ length (ModelStats.unbucketed twelve_entries) = 2%nat.
Proof.
  destruct (ModelStatsFacts.buckets_cover_best_samples "model-a" (inject_Z 1000)
              twelve_entries)
    as (response & buckets & globals & Hstats & Hbuckets & Hglobals & Hcount & Hvotes
        & _ & _ & _ & Hall & _ & Hrest); [discriminate|].
  exists response, buckets, globals.
  split_and!; [exact Hstats | exact Hbuckets | exact Hglobals | | | |].
  - rewrite Hcount. vm_compute. reflexivity.
  - rewrite Hvotes. vm_compute. reflexivity.
  - rewrite Hall, Hvotes. vm_compute. reflexivity.
  - exact Hrest.
Defined.
